(** * Quiz application: answer validation, submission and scoring

    A shallow embedding of the quiz engine of the repository
    (models: [Quiz], [Question]; service: [QuizService]) and the proofs of
    its specification.

    Conventions of the embedding.
    - A JavaScript value is a tree [Js.value], as JSON deserialisation
      produces it: every array or object occurrence is its own reference, so
      two occurrences are never the same reference.
    - A JavaScript string is a [string] of 8-bit code units (the Latin-1
      part of UTF-16), so [String.length] is the [length] property.
    - A JavaScript number that is computed with [/] and [*] is an IEEE 754
      binary64 value ([Binary64]); lengths and counters are integers.
    - [uuidv4()] and [new Date().toISOString()] are read from two oracles,
      the section variables [uuidv4] and [toISOString]; the world counts how
      many values each has handed out.
    - A [throw new Error(msg)] is a result [Throw msg]; the state reached
      when the error is thrown is kept. *)

From Stdlib Require Import ZArith List String Ascii Bool Lia.
From Stdlib Require Import SpecFloat DecimalString.
From Stdlib Require DecimalNat DecimalFacts.
From stdpp Require Import gmap strings.
Import ListNotations.

Set Warnings "-register-all".
Local Open Scope string_scope.
Local Open Scope list_scope.

(** ** JavaScript values *)

Module Js.

(** [String.prototype.trim]: the white space code units below 256. *)
Definition is_whitespace (c : ascii) : bool :=
  let n := nat_of_ascii c in
  ((9 <=? n) && (n <=? 13) || (n =? 32) || (n =? 160))%nat.

Fixpoint trimStart (s : string) : string :=
  match s with
  | EmptyString => EmptyString
  | String c s' => if is_whitespace c then trimStart s' else s
  end.

Fixpoint trimEnd (s : string) : string :=
  match s with
  | EmptyString => EmptyString
  | String c s' =>
      match trimEnd s' with
      | EmptyString => if is_whitespace c then EmptyString else String c EmptyString
      | t => String c t
      end
  end.

Definition trim (s : string) : string := trimEnd (trimStart s).

(** [String.prototype.toLowerCase] on the code units below 256: A-Z and
    the upper case letters U+00C0-U+00DE (without the sign U+00D7). *)
Definition lower_char (c : ascii) : ascii :=
  let n := nat_of_ascii c in
  if ((65 <=? n) && (n <=? 90)
      || (192 <=? n) && (n <=? 222) && negb (n =? 215))%nat
  then ascii_of_nat (n + 32) else c.

Fixpoint toLowerCase (s : string) : string :=
  match s with
  | EmptyString => EmptyString
  | String c s' => String (lower_char c) (toLowerCase s')
  end.

Inductive value : Type :=
  | VUndefined
  | VNull
  | VBool (b : bool)
  | VNum (x : spec_float)
  | VStr (s : string)
  | VArr (items : list value)
  | VObj (props : list (string * value)).

(** [typeof v] *)
Definition typeof (v : value) : string :=
  match v with
  | VUndefined => "undefined"
  | VNull => "object"
  | VBool _ => "boolean"
  | VNum _ => "number"
  | VStr _ => "string"
  | VArr _ => "object"
  | VObj _ => "object"
  end.

(** ToBoolean: what [!v], [if (v)] and [filter(id => id)] test. *)
Definition truthy (v : value) : bool :=
  match v with
  | VUndefined => false
  | VNull => false
  | VBool b => b
  | VNum (S754_zero _) => false
  | VNum S754_nan => false
  | VNum _ => true
  | VStr s => negb (s =? "")
  | VArr _ => true
  | VObj _ => true
  end.

Definition isArray (v : value) : bool :=
  match v with VArr _ => true | _ => false end.

(** Numbers compare by value; [SFeqb] equates the two zeros and no NaN. *)
Definition num_eqb (x y : spec_float) : bool := SFeqb x y.

(** [a === b].  Two array or object occurrences are different references. *)
Definition strict_equal (a b : value) : bool :=
  match a, b with
  | VUndefined, VUndefined => true
  | VNull, VNull => true
  | VBool x, VBool y => Bool.eqb x y
  | VNum x, VNum y => num_eqb x y
  | VStr s, VStr t => (s =? t)
  | _, _ => false
  end.

(** SameValueZero, the equality of [Set], [Map] and [Array.prototype.includes]:
    as [===], and NaN is the same value as NaN. *)
Definition sameValueZero (a b : value) : bool :=
  match a, b with
  | VNum S754_nan, VNum S754_nan => true
  | _, _ => strict_equal a b
  end.

(** [o.k]: own property lookup; [undefined] when absent.  Only used on
    values that passed a truthiness test, and never with the key [length]. *)
Fixpoint lookup_prop (k : string) (props : list (string * value)) : value :=
  match props with
  | [] => VUndefined
  | (k', v) :: rest => if (k' =? k) then v else lookup_prop k rest
  end.

Definition get (v : value) (k : string) : value :=
  match v with
  | VObj props => lookup_prop k props
  | _ => VUndefined
  end.

(** [arr.includes(x)] *)
Definition includes (arr : list value) (x : value) : bool :=
  existsb (fun y => sameValueZero y x) arr.

(** [[...new Set(arr)]]: the elements in order of first occurrence. *)
Definition set_add (acc : list value) (v : value) : list value :=
  if includes acc v then acc else acc ++ [v].

Definition uniq (arr : list value) : list value :=
  fold_left set_add arr [].

(** Whether an object with own key [k] occurs anywhere in [v]. *)
Fixpoint mentions_key (k : string) (v : value) {struct v} : bool :=
  match v with
  | VArr items => existsb (mentions_key k) items
  | VObj props =>
      existsb (fun kv => (fst kv =? k) || mentions_key k (snd kv)) props
  | _ => false
  end.

(** [Object.keys(v)] for an object. *)
Definition keys (v : value) : list string :=
  match v with
  | VObj props => map fst props
  | _ => []
  end.

(** A value that is a string. *)
Definition is_str (v : value) : Prop := exists s, v = VStr s.

(** The strings among the elements of an array. *)
Definition strings_in (arr : list value) : list string :=
  omap (fun v => match v with VStr s => Some s | _ => None end) arr.

(** A string that does not start with white space. *)
Definition starts_clean (s : string) : Prop :=
  match s with
  | EmptyString => True
  | String c _ => is_whitespace c = false
  end.

End Js.

(** ** IEEE 754 binary64, the JavaScript number type *)

Module Binary64.

Definition prec : Z := 53.
Definition emax : Z := 1024.

(** The number an integer denotes (exact below 2^53). *)
Definition of_Z (n : Z) : spec_float := binary_normalize prec emax n 0 false.

(** [x / y] and [x * y], rounded to nearest, ties to even. *)
Definition div (x y : spec_float) : spec_float := SFdiv prec emax x y.
Definition mul (x y : spec_float) : spec_float := SFmul prec emax x y.

(** [Math.round(x)]: the integer closest to [x], ties towards +infinity,
    that is floor(x + 1/2) computed exactly.  NaN and the infinities, which
    [Math.round] returns unchanged, are no integers; they are sent to 0 and
    [percentage_argument_finite] shows that none reaches the call below. *)
Definition Math_round (x : spec_float) : Z :=
  match x with
  | S754_finite s m e =>
      let n := cond_Zopp s (Zpos m) in
      if (0 <=? e)%Z then (n * 2 ^ e)%Z
      else ((2 * n + 2 ^ (- e)) / 2 ^ (1 - e))%Z
  | _ => 0%Z
  end.

Definition is_finite (x : spec_float) : bool :=
  match x with
  | S754_zero _ | S754_finite _ _ _ => true
  | _ => false
  end.

(** The bounds used to show that the percentage is in range. *)
Section Bounds.
Local Open Scope Z_scope.

(** The number that the mantissa [shr_m], the round bit and the sticky
    bit stand for at exponent [e] is at most [c * 2^k]. *)
Definition under (c : positive) (k : Z) (mrs : shr_record) (e : Z) : Prop :=
  e <= k /\ 0 <= shr_m mrs
  /\ (if shr_r mrs || shr_s mrs then shr_m mrs + 1 else shr_m mrs)
       <= Zpos c * 2 ^ (k - e).

(** A number that is not negative, finite and at most [c * 2^k]. *)
Definition below (c : positive) (k : Z) (x : spec_float) : Prop :=
  match x with
  | S754_zero _ => True
  | S754_finite false m e => e <= k /\ Zpos m <= Zpos c * 2 ^ (k - e)
  | _ => False
  end.

(** What the round and sticky bits add to the mantissa: the number that
    the record stands for lies between the mantissa and the mantissa plus
    this, in units of the last place. *)
Definition excess (mrs : shr_record) : Z :=
  if shr_r mrs || shr_s mrs then 1 else 0.

(** The record, at exponent [e], encloses the fraction [A / B]. *)
Definition encloses (A B : Z) (mrs : shr_record) (e : Z) : Prop :=
  e <= 0 /\ 0 <= shr_m mrs
  /\ shr_m mrs * B <= A * 2 ^ (- e) <= (shr_m mrs + excess mrs) * B.

(** The mantissa [m], at exponent [e], is within one unit of the last
    place of the fraction [A / B]. *)
Definition near (A B : Z) (m e : Z) : Prop :=
  e <= 0 /\ 0 <= m /\ Z.abs (m * B - A * 2 ^ (- e)) <= B.

(** A number that is not negative, finite, with an exponent of at most
    [k], and within one unit of its last place of the fraction [A / B];
    zero stands for a fraction below [2^k]. *)
Definition close (A B k : Z) (x : spec_float) : Prop :=
  match x with
  | S754_zero _ => A * 2 ^ (- k) <= B
  | S754_finite false m e =>
      e <= k /\ Z.abs (Zpos m * B - A * 2 ^ (- e)) <= B
  | _ => False
  end.

End Bounds.

End Binary64.

(** ** Errors

    The message of a thrown [Error].  A template literal keeps its
    interpolated parts: [Idx n] is the decimal numeral of [n], and
    [Interp v] is [String(v)] of a value, which is not rendered here. *)

Inductive piece : Type :=
  | Lit (s : string)
  | Idx (n : nat)
  | Interp (v : Js.value).

Definition message : Type := list piece.

Inductive outcome (A : Type) : Type :=
  | Return (a : A)
  | Throw (msg : message).

Arguments Return {A} a.
Arguments Throw {A} msg.

Definition is_Throw {A} (o : outcome A) : bool :=
  match o with Throw _ => true | Return _ => false end.

(** What the engine itself never throws: reading a property of [null], or
    calling [forEach] on a value that has none. *)
Definition TypeError : message := [Lit "TypeError"].

(** The two error kinds, as the controller tells them apart: by the message
    (error.message === 'Quiz not found' gives 404, any other message 400). *)
Definition NotFoundError (msg : message) : Prop := msg = [Lit "Quiz not found"].
Definition ValidationError (msg : message) : Prop := msg <> [Lit "Quiz not found"].

(** Sequencing of computations that may throw. *)
Definition obind {A B} (o : outcome A) (k : A -> outcome B) : outcome B :=
  match o with
  | Return a => k a
  | Throw msg => Throw msg
  end.

Notation "x <-? c ;; k" := (obind c (fun x => k))
  (at level 100, c at next level, right associativity).
Notation "c ;;? k" := (obind c (fun _ => k))
  (at level 100, right associativity).

(** [if (cond) throw new Error(msg)] *)
Definition throw_if (cond : bool) (msg : message) : outcome unit :=
  if cond then Throw msg else Return tt.

(** [arr.forEach((x, index) => ...)] where the callback may throw and
    updates the variables [s] it closes over. *)
Fixpoint forEach {A S} (f : S -> A -> nat -> outcome S)
    (arr : list A) (index : nat) (s : S) : outcome S :=
  match arr with
  | [] => Return s
  | x :: rest => s' <-? f s x index ;; forEach f rest (Datatypes.S index) s'
  end.

(** ** The models: Option, Question, Quiz *)

Record AnswerOption : Type := {
  opt_id : string;
  opt_text : string;
  opt_isCorrect : bool
}.

Record Question : Type := {
  q_id : string;
  q_text : string;
  q_type : Js.value;
  q_options : list AnswerOption;
  q_createdAt : string
}.

Record Quiz : Type := {
  quiz_id : string;
  title : string;
  questions : list Question;
  createdAt : string;
  updatedAt : string
}.

Module QuestionModel.
Import Js.

(** [getCorrectOptionIds()] *)
Definition getCorrectOptionIds (this : Question) : list string :=
  map opt_id (List.filter opt_isCorrect (q_options this)).

(** The array of strings [correct], seen as values. *)
Definition ids (l : list string) : list value := map VStr l.

(** [validateSingleChoice(selected, correct)] *)
Definition validateSingleChoice (selected : list value) (correct : list string) : bool :=
  if negb (length selected =? 1)%nat then false
  else includes (ids correct) (nth 0 selected VUndefined).

(** [validateMultipleChoice(selected, correct)] *)
Definition validateMultipleChoice (selected : list value) (correct : list string) : bool :=
  if negb (length selected =? length correct)%nat then false
  else
    let allSelectedCorrect := forallb (fun id => includes (ids correct) id) selected in
    let allCorrectSelected := forallb (fun id => includes selected id) (ids correct) in
    allSelectedCorrect && allCorrectSelected.

(** [validateTextChoice(selected, correct)] *)
Definition validateTextChoice (selected : list value) (correct : list string) : bool :=
  existsb (fun id => includes (ids correct) id) selected.

(** The intermediate [uniqueSelected] of [isAnswerCorrect]. *)
Definition uniqueSelected (items : list value) : list value :=
  uniq (List.filter truthy items).

(** The intermediate [allOptionsExist] of [isAnswerCorrect]. *)
Definition allOptionsExist (this : Question) (selected : list value) : bool :=
  forallb (fun id =>
    existsb (fun opt => strict_equal (VStr (opt_id opt)) id) (q_options this))
    selected.

(** [isAnswerCorrect(selectedOptionIds)] *)
Definition isAnswerCorrect (this : Question) (selectedOptionIds : value) : bool :=
  match selectedOptionIds with
  | VArr items =>
      let selected := uniqueSelected items in
      let correctIds := getCorrectOptionIds this in
      if (length correctIds =? 0)%nat then false
      else if (length selected =? 0)%nat then false
      else if negb (allOptionsExist this selected) then false
      else if strict_equal (q_type this) (VStr "single_choice")
        then validateSingleChoice selected correctIds
      else if strict_equal (q_type this) (VStr "multiple_choice")
        then validateMultipleChoice selected correctIds
      else if strict_equal (q_type this) (VStr "text")
        then validateTextChoice selected correctIds
      else false
  | _ => false
  end.

(** [validateByType(correctOptions)] *)
Definition validateByType (this : Question) (correctOptions : list AnswerOption)
  : outcome unit :=
  if strict_equal (q_type this) (VStr "single_choice") then
    throw_if (negb (length correctOptions =? 1)%nat)
      [Lit "Single choice questions can only have one correct answer"] ;;?
    throw_if (length (q_options this) <? 2)%nat
      [Lit "Single choice questions must have at least 2 options"]
  else if strict_equal (q_type this) (VStr "multiple_choice") then
    throw_if (length correctOptions <? 2)%nat
      [Lit "Multiple choice questions must have at least 2 correct answers"] ;;?
    throw_if (length correctOptions =? length (q_options this))%nat
      [Lit "Multiple choice questions must have at least one incorrect option"] ;;?
    throw_if (length (q_options this) <? 3)%nat
      [Lit "Multiple choice questions must have at least 3 options"]
  else if strict_equal (q_type this) (VStr "text") then
    throw_if (300 <? String.length (q_text this))%nat
      [Lit "Text-based question cannot exceed 300 characters"]
  else Throw [Lit "Invalid question type: "; Interp (q_type this)].

(** [validate()] *)
Definition validate (this : Question) : outcome bool :=
  throw_if ((q_text this =? "") || (String.length (trim (q_text this)) =? 0)%nat)
    [Lit "Question text cannot be empty"] ;;?
  throw_if (length (q_options this) =? 0)%nat
    [Lit "At least one option is required"] ;;?
  let correctOptions := List.filter opt_isCorrect (q_options this) in
  throw_if (length correctOptions =? 0)%nat
    [Lit "At least one correct answer is required"] ;;?
  validateByType this correctOptions ;;?
  Return true.

(** [getPublicView()]: the object literal it returns. *)
Definition getPublicView (this : Question) : value :=
  VObj [ ("id", VStr (q_id this));
         ("text", VStr (q_text this));
         ("type", q_type this);
         ("options", VArr (map (fun opt =>
             VObj [ ("id", VStr (opt_id opt)); ("text", VStr (opt_text opt)) ])
           (q_options this))) ].

End QuestionModel.

Module QuizModel.

(** [getQuestionsWithoutAnswers()] *)
Definition getQuestionsWithoutAnswers (this : Quiz) : list Js.value :=
  map QuestionModel.getPublicView (questions this).

(** [findQuestionById(questionId)]: [None] is [null]. *)
Definition findQuestionById (this : Quiz) (questionId : Js.value) : option Question :=
  List.find (fun q => Js.strict_equal (Js.VStr (q_id q)) questionId) (questions this).

End QuizModel.

(** ** The service: state, oracles and operations *)

(** The state of the process: the [Map] of the service, and how many ids
    and clock readings have been handed out. *)
Record World : Type := {
  quizzes : gmap string Quiz;
  uuids_drawn : nat;
  clock_reads : nat
}.

Definition initial : World :=
  {| quizzes := ∅; uuids_drawn := 0; clock_reads := 0 |}.

(** A method of the service: it runs in a world and returns or throws,
    leaving the world it reached. *)
Definition M (A : Type) : Type := World -> outcome A * World.

Definition ret {A} (a : A) : M A := fun w => (Return a, w).
Definition throw {A} (msg : message) : M A := fun w => (Throw msg, w).
Definition lift {A} (o : outcome A) : M A := fun w => (o, w).

Definition bind {A B} (c : M A) (k : A -> M B) : M B :=
  fun w =>
    match c w with
    | (Return a, w') => k a w'
    | (Throw msg, w') => (Throw msg, w')
    end.

Notation "x <- c ;; k" := (bind c (fun x => k))
  (at level 100, c at next level, right associativity).
Notation "c ;;; k" := (bind c (fun _ => k))
  (at level 100, right associativity).

Definition get_quizzes : M (gmap string Quiz) := fun w => (Return (quizzes w), w).

Definition modify_quizzes (f : gmap string Quiz -> gmap string Quiz) : M unit :=
  fun w => (Return tt,
            {| quizzes := f (quizzes w);
               uuids_drawn := uuids_drawn w;
               clock_reads := clock_reads w |}).

(** [this.quizzes.get(key)]: the keys of the map are strings. *)
Definition map_get (m : gmap string Quiz) (key : Js.value) : option Quiz :=
  match key with
  | Js.VStr k => m !! k
  | _ => None
  end.

(** A method of [Quiz] that assigns to a field of the object read under
    [key]: the map holds the object, so the entry changes with it. *)
Definition map_update (key : Js.value) (quiz : Quiz) : M unit :=
  modify_quizzes (fun m =>
    match key with
    | Js.VStr k => <[k := quiz]> m
    | _ => m
    end).

(** The double quote, for the messages that contain one. *)
Definition dquote : string := String (ascii_of_nat 34) EmptyString.

(** One entry of the [results] array of a submission. *)
Record OptionDetail : Type := {
  detail_id : string;
  detail_text : string
}.

Record QuestionResult : Type := {
  questionId : Js.value;
  questionText : string;
  questionType : Js.value;
  selectedOptionIds : Js.value;
  correctOptionIds : list string;
  isCorrect : bool;
  selectedOptions : list OptionDetail;
  correctOptions : list OptionDetail
}.

Record Statistics : Type := {
  score : Z;
  total : Z;
  percentage : Z;
  answeredCount : Z;
  unansweredCount : Z;
  passed : bool;
  grade : string
}.

Record SubmitResult : Type := {
  stats : Statistics;
  results : list QuestionResult;
  submittedAt : string
}.

Module QuizService.
Import Js.

(** *** The pure parts *)

(** [validateQuizId(quizId)] *)
Definition validateQuizId (quizId : value) : outcome unit :=
  throw_if (negb (truthy quizId)) [Lit "Quiz ID is required"] ;;?
  throw_if (negb (typeof quizId =? "string")) [Lit "Quiz ID must be a string"].

(** [validateQuestionData(questionData)] *)
Definition validateQuestionData (questionData : value) : outcome unit :=
  throw_if (negb (truthy questionData) || negb (typeof questionData =? "object"))
    [Lit "Question data is required"] ;;?
  match get questionData "text" with
  | VStr text =>
      throw_if (text =? "")
        [Lit "Question text is required and must be a string"] ;;?
      let trimmedText := trim text in
      throw_if (String.length trimmedText =? 0)%nat
        [Lit "Question text cannot be empty"] ;;?
      throw_if (strict_equal (get questionData "type") (VStr "text")
                && (300 <? String.length trimmedText)%nat)
        [Lit "Text-based question cannot exceed 300 characters"] ;;?
      throw_if (1000 <? String.length trimmedText)%nat
        [Lit "Question text cannot exceed 1000 characters"] ;;?
      let validTypes := [VStr "single_choice"; VStr "multiple_choice"; VStr "text"] in
      throw_if (negb (truthy (get questionData "type")))
        [Lit "Question type is required"] ;;?
      throw_if (negb (includes validTypes (get questionData "type")))
        [Lit ("Invalid question type: " ++ dquote);
         Interp (get questionData "type");
         Lit (dquote ++ ". Must be one of: single_choice, multiple_choice, text")]
  | _ => Throw [Lit "Question text is required and must be a string"]
  end.

(** The [length] of a value that is an array. *)
Definition array_length (v : value) : nat :=
  match v with VArr items => length items | _ => 0 end.

(** The callback of the [forEach] of [validateAnswersFormat];
    [answered] is the set [answeredQuestionIds]. *)
Definition validateAnswer (questionIds : list value)
    (answered : list value) (answer : value) (index : nat)
  : outcome (list value) :=
  throw_if (negb (truthy answer) || negb (typeof answer =? "object"))
    [Lit "Answer "; Idx (index + 1); Lit " must be an object"] ;;?
  throw_if (negb (truthy (get answer "questionId")))
    [Lit "Answer "; Idx (index + 1); Lit " is missing questionId"] ;;?
  throw_if (negb (includes questionIds (get answer "questionId")))
    [Lit "Question "; Interp (get answer "questionId"); Lit " not found in this quiz"] ;;?
  throw_if (includes answered (get answer "questionId"))
    [Lit "Duplicate answer for question "; Interp (get answer "questionId")] ;;?
  let answered' := set_add answered (get answer "questionId") in
  throw_if (negb (truthy (get answer "selectedOptionIds"))
            || negb (isArray (get answer "selectedOptionIds")))
    [Lit "Answer "; Idx (index + 1); Lit " must have selectedOptionIds as an array"] ;;?
  throw_if (array_length (get answer "selectedOptionIds") =? 0)%nat
    [Lit "Answer "; Idx (index + 1); Lit " must have at least one selected option"] ;;?
  Return answered'.

(** [validateAnswersFormat(answers, quiz)] *)
Definition validateAnswersFormat (answers : value) (quiz : Quiz) : outcome unit :=
  match answers with
  | VArr entries =>
      throw_if (length entries =? 0)%nat
        [Lit "At least one answer must be provided"] ;;?
      throw_if (length (questions quiz) <? length entries)%nat
        [Lit "Number of answers exceeds number of questions"] ;;?
      let questionIds := uniq (map (fun q => VStr (q_id q)) (questions quiz)) in
      forEach (validateAnswer questionIds) entries 0 [] ;;?
      Return tt
  | _ => Throw [Lit "Answers must be an array"]
  end.

(** [getOptionDetails(question, optionIds)] *)
Definition getOptionDetails (question : Question) (optionIds : list value)
  : list OptionDetail :=
  omap (fun id =>
    match List.find (fun opt => strict_equal (VStr (opt_id opt)) id)
            (q_options question) with
    | Some option => Some {| detail_id := opt_id option; detail_text := opt_text option |}
    | None => None
    end) optionIds.

(** The callback of the [forEach] of [processAnswers]; [results] is the
    array it pushes to. *)
Definition processAnswer (quiz : Quiz)
    (results : list QuestionResult) (answer : value) (index : nat)
  : outcome (list QuestionResult) :=
  match QuizModel.findQuestionById quiz (get answer "questionId") with
  | None => Throw TypeError
  | Some question =>
      let validOptionIds := uniq (map (fun opt => VStr (opt_id opt)) (q_options question)) in
      match get answer "selectedOptionIds" with
      | VArr optionIds =>
          forEach (fun (_ : unit) optionId (_ : nat) =>
              throw_if (negb (includes validOptionIds optionId))
                [Lit "Invalid option ID: "; Interp optionId;
                 Lit " for question "; Interp (VStr (q_id question))])
            optionIds 0 tt ;;?
          let isCorrect := QuestionModel.isAnswerCorrect question (VArr optionIds) in
          Return (results ++ [
            {| questionId := get answer "questionId";
               questionText := q_text question;
               questionType := q_type question;
               selectedOptionIds := VArr optionIds;
               correctOptionIds := QuestionModel.getCorrectOptionIds question;
               isCorrect := isCorrect;
               selectedOptions := getOptionDetails question optionIds;
               correctOptions :=
                 getOptionDetails question
                   (QuestionModel.ids (QuestionModel.getCorrectOptionIds question)) |} ])
      | _ => Throw TypeError
      end
  end.

(** [processAnswers(answers, quiz)] *)
Definition processAnswers (answers : value) (quiz : Quiz)
  : outcome (list QuestionResult) :=
  match answers with
  | VArr entries => forEach (processAnswer quiz) entries 0 []
  | _ => Throw TypeError
  end.

(** [calculateGrade(percentage)] *)
Definition calculateGrade (percentage : Z) : string :=
  if (90 <=? percentage)%Z then "A"
  else if (80 <=? percentage)%Z then "B"
  else if (70 <=? percentage)%Z then "C"
  else if (60 <=? percentage)%Z then "D"
  else "F".

(** [calculateStatistics(results, totalQuestions)]; the quotient and the
    product are binary64 operations. *)
Definition calculateStatistics (results : list QuestionResult) (totalQuestions : Z)
  : Statistics :=
  let correctCount := Z.of_nat (length (List.filter isCorrect results)) in
  let percentage :=
    if (0 <? totalQuestions)%Z
    then Binary64.Math_round
           (Binary64.mul
              (Binary64.div (Binary64.of_Z correctCount) (Binary64.of_Z totalQuestions))
              (Binary64.of_Z 100))
    else 0%Z in
  {| score := correctCount;
     total := totalQuestions;
     percentage := percentage;
     answeredCount := Z.of_nat (length results);
     unansweredCount := (totalQuestions - Z.of_nat (length results))%Z;
     passed := (60 <=? percentage)%Z;
     grade := calculateGrade percentage |}.

End QuizService.

Section Service.
Import Js QuizService.

(** The oracles: the n-th identifier [uuidv4()] returns, and the n-th
    reading of [new Date().toISOString()]. *)
Variable uuidv4 : nat -> string.
Variable toISOString : nat -> string.

Definition draw_uuid : M string :=
  fun w => (Return (uuidv4 (uuids_drawn w)),
            {| quizzes := quizzes w;
               uuids_drawn := S (uuids_drawn w);
               clock_reads := clock_reads w |}).

Definition read_clock : M string :=
  fun w => (Return (toISOString (clock_reads w)),
            {| quizzes := quizzes w;
               uuids_drawn := uuids_drawn w;
               clock_reads := S (clock_reads w) |}).

(** [forEach] with a callback that draws ids. *)
Fixpoint forEachM {A S} (f : S -> A -> nat -> M S)
    (arr : list A) (index : nat) (s : S) : M S :=
  match arr with
  | [] => ret s
  | x :: rest => s' <- f s x index ;; forEachM f rest (Datatypes.S index) s'
  end.

(** [new Quiz(title)] *)
Definition Quiz_new (title_ : string) : M Quiz :=
  id <- draw_uuid ;;
  created <- read_clock ;;
  updated <- read_clock ;;
  ret {| quiz_id := id; title := trim title_; questions := [];
         createdAt := created; updatedAt := updated |}.

(** [quiz.addQuestion(question)]: the quiz after the call. *)
Definition Quiz_addQuestion (this : Quiz) (question : Question) : M Quiz :=
  updated <- read_clock ;;
  ret {| quiz_id := quiz_id this; title := title this;
         questions := questions this ++ [question];
         createdAt := createdAt this; updatedAt := updated |}.

(** [new Question(text, type)]; an [undefined] type takes the default. *)
Definition Question_new (text : string) (type : value) : M Question :=
  id <- draw_uuid ;;
  created <- read_clock ;;
  ret {| q_id := id; q_text := trim text;
         q_type := match type with VUndefined => VStr "single_choice" | _ => type end;
         q_options := []; q_createdAt := created |}.

(** [question.addOption(text, isCorrect)]: the question after the call. *)
Definition Question_addOption (this : Question) (text isCorrect_ : value) : M Question :=
  match text with
  | VStr t =>
      if (t =? "") then throw [Lit "Option text must be a non-empty string"]
      else
        let trimmedText := trim t in
        if (String.length trimmedText =? 0)%nat
        then throw [Lit "Option text cannot be empty after trimming"]
        else
          id <- draw_uuid ;;
          let option :=
            {| opt_id := id; opt_text := trimmedText; opt_isCorrect := truthy isCorrect_ |} in
          ret {| q_id := q_id this; q_text := q_text this; q_type := q_type this;
                 q_options := q_options this ++ [option];
                 q_createdAt := q_createdAt this |}
  | _ => throw [Lit "Option text must be a non-empty string"]
  end.

(** The callback of the [forEach] of [addOptionsToQuestion]; the state is
    the question and the set [optionTexts]. *)
Definition addOptionData (s : Question * gset string) (optionData : value) (index : nat)
  : M (Question * gset string) :=
  let (question, optionTexts) := s in
  if negb (truthy optionData) || negb (typeof optionData =? "object")
  then throw [Lit "Option "; Idx (index + 1); Lit " must be an object"]
  else
    match get optionData "text" with
    | VStr text =>
        if (text =? "")
        then throw [Lit "Option "; Idx (index + 1); Lit " must have text"]
        else
          let trimmedText := trim text in
          if (String.length trimmedText =? 0)%nat
          then throw [Lit "Option "; Idx (index + 1); Lit " text cannot be empty"]
          else if (500 <? String.length trimmedText)%nat
          then throw [Lit "Option "; Idx (index + 1); Lit " text cannot exceed 500 characters"]
          else
            let lowerText := toLowerCase trimmedText in
            if bool_decide (lowerText ∈ optionTexts)
            then throw [Lit ("Duplicate option text found: " ++ dquote);
                        Interp (VStr trimmedText); Lit dquote]
            else
              let isCorrect_ := get optionData "isCorrect" in
              if negb (strict_equal isCorrect_ VUndefined)
                 && negb (typeof isCorrect_ =? "boolean")
              then throw [Lit "Option "; Idx (index + 1); Lit " isCorrect must be a boolean"]
              else
                question' <- Question_addOption question (VStr trimmedText) isCorrect_ ;;
                ret (question', {[ lowerText ]} ∪ optionTexts)
    | _ => throw [Lit "Option "; Idx (index + 1); Lit " must have text"]
    end.

(** [addOptionsToQuestion(question, options)]: the question after it. *)
Definition addOptionsToQuestion (question : Question) (options : value) : M Question :=
  match options with
  | VArr items =>
      if (length items =? 0)%nat then throw [Lit "At least one option is required"]
      else if (10 <? length items)%nat
      then throw [Lit "Question cannot have more than 10 options"]
      else
        s <- forEachM addOptionData items 0 (question, ∅) ;;
        ret (fst s)
  | _ => throw [Lit "Options must be an array"]
  end.

(** [createQuiz(title)] *)
Definition createQuiz (title_ : value) : M Quiz :=
  match title_ with
  | VUndefined | VNull => throw [Lit "Quiz title is required"]
  | VStr t =>
      let trimmedTitle := trim t in
      if (String.length trimmedTitle =? 0)%nat
      then throw [Lit "Quiz title is required"]
      else if (String.length trimmedTitle <? 3)%nat
      then throw [Lit "Quiz title must be at least 3 characters long"]
      else if (200 <? String.length trimmedTitle)%nat
      then throw [Lit "Quiz title cannot exceed 200 characters"]
      else
        quiz <- Quiz_new trimmedTitle ;;
        modify_quizzes (insert (quiz_id quiz) quiz) ;;;
        ret quiz
  | _ => throw [Lit "Quiz title must be a string"]
  end.

(** [getQuiz(quizId)] *)
Definition getQuiz (quizId : value) : M Quiz :=
  lift (validateQuizId quizId) ;;;
  m <- get_quizzes ;;
  match map_get m quizId with
  | Some quiz => ret quiz
  | None => throw [Lit "Quiz not found"]
  end.

(** [addQuestion(quizId, questionData)] *)
Definition addQuestion (quizId questionData : value) : M Question :=
  quiz <- getQuiz quizId ;;
  lift (validateQuestionData questionData) ;;;
  question <- Question_new
                (match get questionData "text" with VStr t => trim t | _ => "" end)
                (get questionData "type") ;;
  question <- addOptionsToQuestion question (get questionData "options") ;;
  lift (QuestionModel.validate question) ;;;
  quiz' <- Quiz_addQuestion quiz question ;;
  map_update quizId quiz' ;;;
  ret question.

(** [getQuizQuestions(quizId)] *)
Definition getQuizQuestions (quizId : value) : M (list value) :=
  quiz <- getQuiz quizId ;;
  if (length (questions quiz) =? 0)%nat
  then throw [Lit "Quiz has no questions yet"]
  else ret (QuizModel.getQuestionsWithoutAnswers quiz).

(** [submitQuizAnswers(quizId, answers)] *)
Definition submitQuizAnswers (quizId answers : value) : M SubmitResult :=
  quiz <- getQuiz quizId ;;
  lift (throw_if (length (questions quiz) =? 0)%nat [Lit "Quiz has no questions"]) ;;;
  lift (validateAnswersFormat answers quiz) ;;;
  results_ <- lift (processAnswers answers quiz) ;;
  let stats_ := calculateStatistics results_ (Z.of_nat (length (questions quiz))) in
  submitted <- read_clock ;;
  ret {| stats := stats_; results := results_; submittedAt := submitted |}.

(** [deleteQuiz(quizId)]; [Map.prototype.delete] returns [true] here. *)
Definition deleteQuiz (quizId : value) : M bool :=
  quiz <- getQuiz quizId ;;
  modify_quizzes (fun m =>
    match quizId with VStr k => delete k m | _ => m end) ;;;
  ret true.

(** [clearAll()] *)
Definition clearAll : M unit := modify_quizzes (fun _ => ∅).

(** [getQuizCount()] *)
Definition getQuizCount : M nat := m <- get_quizzes ;; ret (size m).

(** [updateQuizTitle(quizId, newTitle)] *)
Definition updateQuizTitle (quizId newTitle : value) : M Quiz :=
  quiz <- getQuiz quizId ;;
  match newTitle with
  | VStr t =>
      if (t =? "") then throw [Lit "New title must be a non-empty string"]
      else
        let trimmedTitle := trim t in
        if (String.length trimmedTitle =? 0)%nat
        then throw [Lit "Quiz title cannot be empty"]
        else if (200 <? String.length trimmedTitle)%nat
        then throw [Lit "Quiz title cannot exceed 200 characters"]
        else
          updated <- read_clock ;;
          let quiz' :=
            {| quiz_id := quiz_id quiz; title := trimmedTitle;
               questions := questions quiz;
               createdAt := createdAt quiz; updatedAt := updated |} in
          map_update quizId quiz' ;;;
          ret quiz'
  | _ => throw [Lit "New title must be a non-empty string"]
  end.

(** One call of a public method of the service, with its arguments. *)
Inductive call : Type :=
  | CreateQuiz (title_ : value)
  | GetQuiz (quizId : value)
  | AddQuestion (quizId questionData : value)
  | GetQuizQuestions (quizId : value)
  | SubmitQuizAnswers (quizId answers : value)
  | DeleteQuiz (quizId : value)
  | ClearAll
  | GetQuizCount
  | UpdateQuizTitle (quizId newTitle : value).

(** The world a call leaves, whether it returns or throws. *)
Definition run (c : call) (w : World) : World :=
  match c with
  | CreateQuiz t => snd (createQuiz t w)
  | GetQuiz i => snd (getQuiz i w)
  | AddQuestion i d => snd (addQuestion i d w)
  | GetQuizQuestions i => snd (getQuizQuestions i w)
  | SubmitQuizAnswers i a => snd (submitQuizAnswers i a w)
  | DeleteQuiz i => snd (deleteQuiz i w)
  | ClearAll => snd (clearAll w)
  | GetQuizCount => snd (getQuizCount w)
  | UpdateQuizTitle i t => snd (updateQuizTitle i t w)
  end.

(** The worlds the service reaches from its start. *)
Inductive reachable : World -> Prop :=
  | reachable_initial : reachable initial
  | reachable_step (c : call) (w : World) :
      reachable w -> reachable (run c w).

End Service.

(** ** A concrete quiz, used to run the definitions

    The quiz of the scenarios of the specification: a single_choice
    question, a multiple_choice question, and a text question. *)

Module Scenario.
Import Js.

Definition decimal (n : nat) : string := NilZero.string_of_uint (Nat.to_uint n).

(** Oracles: the ids are id-0, id-1, ... and the clock readings t-0, t-1, ... *)
Definition uuids (n : nat) : string := "id-" ++ decimal n.
Definition clock (n : nat) : string := "t-" ++ decimal n.

Definition option_data (text : string) (correct : bool) : value :=
  VObj [("text", VStr text); ("isCorrect", VBool correct)].

Definition question_data (text type : string) (options : list value) : value :=
  VObj [("text", VStr text); ("type", VStr type); ("options", VArr options)].

Definition sum_data : value :=
  question_data "What is 2+2?" "single_choice"
    [option_data "3" false; option_data "4" true; option_data "5" false].

Definition primes_data : value :=
  question_data "Select primes" "multiple_choice"
    [option_data "2" true; option_data "3" true; option_data "4" false].

Definition all_correct_data : value :=
  question_data "Select primes" "multiple_choice"
    [option_data "2" true; option_data "3" true; option_data "5" true].

Definition capital_data : value :=
  question_data "Capital of France?" "text"
    [option_data "Paris" true; option_data "paris, france" true;
     option_data "Lyon" false].

Definition answer (question : string) (selected : list string) : value :=
  VObj [("questionId", VStr question);
        ("selectedOptionIds", VArr (map VStr selected))].

(** The questions as [addQuestion] builds them with these oracles. *)
Definition sum_question : Question :=
  {| q_id := "id-1"; q_text := "What is 2+2?"; q_type := VStr "single_choice";
     q_options :=
       [ {| opt_id := "id-2"; opt_text := "3"; opt_isCorrect := false |};
         {| opt_id := "id-3"; opt_text := "4"; opt_isCorrect := true |};
         {| opt_id := "id-4"; opt_text := "5"; opt_isCorrect := false |} ];
     q_createdAt := "t-2" |}.

Definition primes_question : Question :=
  {| q_id := "id-5"; q_text := "Select primes"; q_type := VStr "multiple_choice";
     q_options :=
       [ {| opt_id := "id-6"; opt_text := "2"; opt_isCorrect := true |};
         {| opt_id := "id-7"; opt_text := "3"; opt_isCorrect := true |};
         {| opt_id := "id-8"; opt_text := "4"; opt_isCorrect := false |} ];
     q_createdAt := "t-4" |}.

Definition capital_question : Question :=
  {| q_id := "id-9"; q_text := "Capital of France?"; q_type := VStr "text";
     q_options :=
       [ {| opt_id := "id-10"; opt_text := "Paris"; opt_isCorrect := true |};
         {| opt_id := "id-11"; opt_text := "paris, france"; opt_isCorrect := true |};
         {| opt_id := "id-12"; opt_text := "Lyon"; opt_isCorrect := false |} ];
     q_createdAt := "t-6" |}.

(** Selections: both primes, the second one twice; the sum; a right and a
    wrong capital. *)
Definition both_primes : list value := [VStr "id-7"; VStr "id-6"; VStr "id-7"].
Definition four : list value := [VStr "id-3"; VStr "id-3"].
Definition paris_and_lyon : list value := [VStr "id-12"; VStr "id-10"].

(** A quiz that holds the first two questions, and a payload that answers
    the first of them twice. *)
Definition primes_quiz : Quiz :=
  {| quiz_id := "id-0"; title := "Math Quiz";
     questions := [sum_question; primes_question];
     createdAt := "t-0"; updatedAt := "t-5" |}.

Definition twice : value :=
  VArr [answer "id-1" ["id-3"]; answer "id-1" ["id-4"]].

(** The world after the quiz is created, and then after the three
    questions are added ([with_questions]). *)
Definition with_quiz : World :=
  run uuids clock (CreateQuiz (VStr "Math Quiz")) initial.

(** The world after the title of the quiz is set to two letters. *)
Definition retitled : World :=
  run uuids clock (UpdateQuizTitle (VStr "id-0") (VStr "ab")) with_quiz.

(** The world after the first question is added. *)
Definition with_sum : World :=
  run uuids clock (AddQuestion (VStr "id-0") sum_data) with_quiz.

Definition with_questions : World :=
  run uuids clock (AddQuestion (VStr "id-0") capital_data)
    (run uuids clock (AddQuestion (VStr "id-0") primes_data)
       (run uuids clock (AddQuestion (VStr "id-0") sum_data) with_quiz)).

(** The quiz stored in [with_questions]. *)
Definition full_quiz : Quiz :=
  {| quiz_id := "id-0"; title := "Math Quiz";
     questions := [sum_question; primes_question; capital_question];
     createdAt := "t-0"; updatedAt := "t-7" |}.

(** A submission that answers two of the three questions, both rightly,
    and what [submitQuizAnswers] makes of it. *)
Definition two_answers : value :=
  VArr [answer "id-1" ["id-3"]; answer "id-5" ["id-6"; "id-7"]].

Definition submission : outcome SubmitResult * World :=
  submitQuizAnswers clock (VStr "id-0") two_answers with_questions.

Definition no_result : SubmitResult :=
  {| stats := {| score := 0; total := 0; percentage := 0; answeredCount := 0;
                 unansweredCount := 0; passed := false; grade := "" |};
     results := []; submittedAt := "" |}.

Definition graded : SubmitResult :=
  match fst submission with
  | Return res => res
  | Throw _ => no_result
  end.

(** A result that is correct: the first question, rightly answered. *)
Definition right_result : QuestionResult :=
  {| questionId := VStr "id-1"; questionText := "What is 2+2?";
     questionType := VStr "single_choice";
     selectedOptionIds := VArr [VStr "id-3"];
     correctOptionIds := ["id-3"]; isCorrect := true;
     selectedOptions := [{| detail_id := "id-3"; detail_text := "4" |}];
     correctOptions := [{| detail_id := "id-3"; detail_text := "4" |}] |}.

(** What a participant reads of the three questions. *)
Definition public_option (id text : string) : value :=
  VObj [("id", VStr id); ("text", VStr text)].

Definition public_questions : list value :=
  [ VObj [("id", VStr "id-1"); ("text", VStr "What is 2+2?");
          ("type", VStr "single_choice");
          ("options", VArr [public_option "id-2" "3"; public_option "id-3" "4";
                            public_option "id-4" "5"])];
    VObj [("id", VStr "id-5"); ("text", VStr "Select primes");
          ("type", VStr "multiple_choice");
          ("options", VArr [public_option "id-6" "2"; public_option "id-7" "3";
                            public_option "id-8" "4"])];
    VObj [("id", VStr "id-9"); ("text", VStr "Capital of France?");
          ("type", VStr "text");
          ("options", VArr [public_option "id-10" "Paris";
                            public_option "id-11" "paris, france";
                            public_option "id-12" "Lyon"])] ].

(** The quiz as [createQuiz] returns it, and after the first question. *)
Definition new_quiz : Quiz :=
  {| quiz_id := "id-0"; title := "Math Quiz"; questions := [];
     createdAt := "t-0"; updatedAt := "t-1" |}.

Definition sum_quiz : Quiz :=
  {| quiz_id := "id-0"; title := "Math Quiz"; questions := [sum_question];
     createdAt := "t-0"; updatedAt := "t-3" |}.

(** The two answers the other way round, and an answer that selects
    something that is no option. *)
Definition two_answers_swapped : list value :=
  [answer "id-5" ["id-6"; "id-7"]; answer "id-1" ["id-3"]].


(** A fourth question, true or false, and the world after it is added. *)
Definition even_data : value :=
  question_data "Is 4 even?" "single_choice"
    [option_data "yes" true; option_data "no" false].

Definition even_question : Question :=
  {| q_id := "id-13"; q_text := "Is 4 even?"; q_type := VStr "single_choice";
     q_options :=
       [ {| opt_id := "id-14"; opt_text := "yes"; opt_isCorrect := true |};
         {| opt_id := "id-15"; opt_text := "no"; opt_isCorrect := false |} ];
     q_createdAt := "t-8" |}.

Definition with_four : World :=
  run uuids clock (AddQuestion (VStr "id-0") even_data) with_questions.

End Scenario.

(** ** The vocabulary of the claims *)

(** *** Answer evaluation *)

Module Evaluation.
Import Js QuestionModel.

(** The ids that remain of a selection once the falsy entries are dropped
    (as a set: duplicates play no role). *)
Definition remains (items : list value) (v : value) : Prop :=
  In v items /\ truthy v = true.

(** [v] is the id of an option of the question. *)
Definition names_option (q : Question) (v : value) : Prop :=
  exists o, In o (q_options q) /\ v = VStr (opt_id o).

(** [s] is in the correct set of the question. *)
Definition correct_id (q : Question) (s : string) : Prop :=
  exists o, In o (q_options q) /\ opt_isCorrect o = true /\ opt_id o = s.

(** [v] is the id of an option that is not marked correct. *)
Definition incorrect_id (q : Question) (v : value) : Prop :=
  exists o, In o (q_options q) /\ opt_isCorrect o = false /\ v = VStr (opt_id o).

(** The evaluation preamble: something remains of the selection, all that
    remains names an option, and the question has a correct option. *)
Record preamble (q : Question) (items : list value) : Prop := {
  some_remains : exists v, remains items v;
  all_exist : forall v, remains items v -> names_option q v;
  has_correct : exists s, correct_id q s
}.

(** The ids of the options are pairwise different (they are fresh uuids). *)
Definition unique_option_ids (q : Question) : Prop :=
  NoDup (map opt_id (q_options q)).

End Evaluation.

(** *** Question validation *)

Module Validation.
Import Js QuestionModel.

Definition correct_count (q : Question) : nat :=
  length (List.filter opt_isCorrect (q_options q)).

Definition incorrect_count (q : Question) : nat :=
  length (List.filter (fun o => negb (opt_isCorrect o)) (q_options q)).

(** The rules common to all types: a text that is not blank, an option,
    a correct option. *)
Definition general_rules (q : Question) : Prop :=
  trim (q_text q) <> "" /\ q_options q <> [] /\ 1 <= correct_count q.

End Validation.

(** *** The answer-free projection *)

Module Projection.
Import Js QuestionModel.

Definition public_option (v : value) : Prop := keys v = ["id"; "text"].

(** A projected question: the four fields, options with two fields, and
    no [isCorrect] key at any depth. *)
Definition public_question (v : value) : Prop :=
  keys v = ["id"; "text"; "type"; "options"]
  /\ (exists opts, get v "options" = VArr opts /\ Forall public_option opts)
  /\ mentions_key "isCorrect" v = false.

Definition valid_type (t : value) : Prop :=
  t = VStr "single_choice" \/ t = VStr "multiple_choice" \/ t = VStr "text".

End Projection.

(** *** The submission envelope *)

Module Envelope.
Import Js QuizService.

(** The violations, in the words of the specification. *)

Definition not_an_object (e : value) : Prop :=
  truthy e = false \/ typeof e <> "object".

Definition lacks_questionId (e : value) : Prop :=
  truthy (get e "questionId") = false.

Definition unknown_question (quiz : Quiz) (e : value) : Prop :=
  ~ exists q, In q (questions quiz) /\ get e "questionId" = VStr (q_id q).

Definition lacks_selection (e : value) : Prop :=
  ~ exists items, get e "selectedOptionIds" = VArr items /\ items <> [].

Definition same_question_twice (entries : list value) : Prop :=
  exists i j e1 e2,
    i < j /\ entries !! i = Some e1 /\ entries !! j = Some e2
    /\ get e1 "questionId" = get e2 "questionId".

Definition envelope_violation (answers : value) (quiz : Quiz) : Prop :=
  isArray answers = false
  \/ exists entries,
       answers = VArr entries
       /\ (entries = []
           \/ length (questions quiz) < length entries
           \/ (exists e, In e entries
                 /\ (not_an_object e \/ lacks_questionId e \/ unknown_question quiz e))
           \/ same_question_twice entries
           \/ (exists e, In e entries /\ lacks_selection e)).

(** The checks of the code on one entry. *)

Definition questionIds (quiz : Quiz) : list value :=
  uniq (map (fun q => VStr (q_id q)) (questions quiz)).

Definition qid (e : value) : value := get e "questionId".

Definition entry_ok (quiz : Quiz) (e : value) : bool :=
  truthy e && (typeof e =? "object")
  && truthy (qid e)
  && includes (questionIds quiz) (qid e)
  && truthy (get e "selectedOptionIds")
  && isArray (get e "selectedOptionIds")
  && negb (array_length (get e "selectedOptionIds") =? 0)%nat.

End Envelope.

(** *** Frame conditions and changes of the repository *)

(** A computation that leaves the map of quizzes as it found it, whether
    it returns or throws (it may draw ids and read the clock). *)
Definition keeps {A} (c : M A) : Prop :=
  forall w, quizzes (snd (c w)) = quizzes w.

(** A computation that reads the world only. *)
Definition pure_read {A} (c : M A) : Prop := forall w, snd (c w) = w.

(** What a call does to the map, in one statement: it is as before, or
    emptied, or one entry is removed, or one entry is set to a quiz that is
    new and empty, or has one more validated question, or another title. *)
Inductive quiz_change (m : gmap string Quiz) : gmap string Quiz -> Prop :=
  | change_none : quiz_change m m
  | change_clear : quiz_change m ∅
  | change_delete k : quiz_change m (delete k m)
  | change_create quiz s :
      3 <= String.length (Js.trim s) <= 200 ->
      title quiz = Js.trim (Js.trim s) ->
      questions quiz = [] ->
      quiz_change m (<[quiz_id quiz := quiz]> m)
  | change_add k quiz q updated :
      m !! k = Some quiz ->
      QuestionModel.validate q = Return true ->
      quiz_change m
        (<[k := {| quiz_id := quiz_id quiz; title := title quiz;
                   questions := questions quiz ++ [q];
                   createdAt := createdAt quiz; updatedAt := updated |}]> m)
  | change_title k quiz s updated :
      m !! k = Some quiz ->
      1 <= String.length (Js.trim s) <= 200 ->
      quiz_change m
        (<[k := {| quiz_id := quiz_id quiz; title := Js.trim s;
                   questions := questions quiz;
                   createdAt := createdAt quiz; updatedAt := updated |}]> m).

(** ** Further methods of the models *)

Module QuizMethods.
Import Js.

(** [arr.findIndex(p)]: [None] is -1. *)
Fixpoint findIndex {A} (p : A -> bool) (arr : list A) : option nat :=
  match arr with
  | [] => None
  | x :: rest =>
      if p x then Some 0
      else match findIndex p rest with
           | Some i => Some (S i)
           | None => None
           end
  end.

(** [arr.splice(index, 1)], for what is left in [arr]. *)
Definition splice1 {A} (index : nat) (arr : list A) : list A :=
  firstn index arr ++ skipn (S index) arr.

End QuizMethods.

Section QuizRemoval.
Import Js QuizMethods.
Variable toISOString : nat -> string.

(** [quiz.removeQuestion(questionId)]: what it returns, and the quiz after
    the call. *)
Definition Quiz_removeQuestion (this : Quiz) (questionId : value) : M (bool * Quiz) :=
  match findIndex (fun q => strict_equal (VStr (q_id q)) questionId) (questions this) with
  | Some index =>
      updated <- read_clock toISOString ;;
      ret (true,
           {| quiz_id := quiz_id this; title := title this;
              questions := splice1 index (questions this);
              createdAt := createdAt this; updatedAt := updated |})
  | None => ret (false, this)
  end.

End QuizRemoval.

(** ** The vocabulary of the further properties *)

Module Payload.
Import Js.

(** The text of an option of a question payload. *)
Definition text_of (optionData : value) : string :=
  match get optionData "text" with
  | VStr t => t
  | _ => ""
  end.

(** The text under which [addOptionsToQuestion] looks for duplicates. *)
Definition lower_text (optionData : value) : string :=
  toLowerCase (trim (text_of optionData)).

(** An option of a payload that [addOptionsToQuestion] accepts on its own:
    an object with a text of 1 to 500 code units once trimmed, and an
    [isCorrect] that is absent or a boolean. *)
Definition option_data_ok (optionData : value) : Prop :=
  truthy optionData = true
  /\ typeof optionData = "object"
  /\ (exists t, get optionData "text" = VStr t
                /\ 1 <= String.length (trim t) <= 500)
  /\ (get optionData "isCorrect" = VUndefined
      \/ exists b, get optionData "isCorrect" = VBool b).

(** The options [addOptionsToQuestion] makes of the payload [items] when
    the ids are drawn from the [n]-th on. *)
Fixpoint built_options (uuidv4 : nat -> string) (n : nat) (items : list value)
  : list AnswerOption :=
  match items with
  | [] => []
  | optionData :: rest =>
      {| opt_id := uuidv4 n;
         opt_text := trim (text_of optionData);
         opt_isCorrect := truthy (get optionData "isCorrect") |}
      :: built_options uuidv4 (S n) rest
  end.

(** A question that reflects the payload it was built from: the text
    trimmed, of 1 to 1000 code units (300 for the type text); the type of
    the payload, one of the three; one option for each option of the
    payload, in order, with the text trimmed, of 1 to 500 code units, and
    the flag of the payload; between 1 and 10 options, no two with the same
    text once in lower case. *)
Record built_from (data : value) (q : Question) : Prop := {
  built_text : get data "text" = VStr (text_of data) /\ q_text q = trim (text_of data);
  built_text_length : 1 <= String.length (q_text q) <= 1000;
  built_text_length_text :
    q_type q = VStr "text" -> String.length (q_text q) <= 300;
  built_type :
    q_type q = get data "type"
    /\ (q_type q = VStr "single_choice" \/ q_type q = VStr "multiple_choice"
        \/ q_type q = VStr "text");
  built_options_of :
    exists items,
      get data "options" = VArr items
      /\ Forall option_data_ok items
      /\ map opt_text (q_options q) = map (fun d => trim (text_of d)) items
      /\ map opt_isCorrect (q_options q)
         = map (fun d => truthy (get d "isCorrect")) items;
  built_option_count : 1 <= length (q_options q) <= 10;
  built_option_texts :
    Forall (fun o => trim (opt_text o) = opt_text o
                     /\ 1 <= String.length (opt_text o) <= 500) (q_options q);
  built_option_texts_differ :
    NoDup (map (fun o => toLowerCase (opt_text o)) (q_options q))
}.

End Payload.

(** *** Grading a submission *)

Module Grading.
Import Js QuizService QuestionModel QuizModel.

(** The entries of a payload that is an array. *)
Definition entries_of (answers : value) : list value :=
  match answers with VArr entries => entries | _ => [] end.

(** The selected ids of an entry. *)
Definition selection (e : value) : list value :=
  match get e "selectedOptionIds" with VArr items => items | _ => [] end.

(** The question an entry names: the first of the quiz with that id. *)
Definition question_of (quiz : Quiz) (e : value) : option Question :=
  findQuestionById quiz (get e "questionId").

(** Every selected id of every entry is the id of an option of the
    question the entry names. *)
Definition selections_valid (quiz : Quiz) (entries : list value) : Prop :=
  forall e question v,
    In e entries -> question_of quiz e = Some question -> In v (selection e) ->
    Evaluation.names_option question v.

(** An entry that selects a value that is no option id of its question. *)
Definition invalid_selection (quiz : Quiz) (entries : list value)
    (question : Question) (v : value) : Prop :=
  exists e, In e entries /\ question_of quiz e = Some question
            /\ In v (selection e) /\ ~ Evaluation.names_option question v.

(** The result for an entry reports the entry and grades it against the
    question: the verdict is that of [isAnswerCorrect], and the details
    list the selected and the correct ids, in order, none dropped. *)
Record reports (question : Question) (e : value) (r : QuestionResult) : Prop := {
  reports_id : questionId r = get e "questionId"
               /\ questionId r = VStr (q_id question);
  reports_text : questionText r = q_text question;
  reports_type : questionType r = q_type question;
  reports_selected : selectedOptionIds r = get e "selectedOptionIds";
  reports_correct : correctOptionIds r = getCorrectOptionIds question;
  reports_verdict :
    isCorrect r = isAnswerCorrect question (get e "selectedOptionIds");
  reports_selected_details :
    map (fun d => VStr (detail_id d)) (selectedOptions r) = selection e;
  reports_correct_details :
    map detail_id (correctOptions r) = getCorrectOptionIds question
}.

(** What [processAnswers] pushes for one entry, taken on its own. *)
Definition graded_alone (quiz : Quiz) (e : value) : list QuestionResult :=
  match processAnswer quiz [] e 0 with
  | Return rs => rs
  | Throw _ => []
  end.

End Grading.

(** *** Identifiers *)

(** A computation that never hands an id out twice: the count of the ids
    drawn does not go down. *)
Definition grows {A} (c : M A) : Prop :=
  forall w, uuids_drawn w <= uuids_drawn (snd (c w)).

Module Identity.

(** The generator returns no id twice. *)
Definition never_repeats (uuidv4 : nat -> string) : Prop :=
  forall i j, uuidv4 i = uuidv4 j -> i = j.

(** An id that the generator has handed out in the world. *)
Definition drawn (uuidv4 : nat -> string) (w : World) (id : string) : Prop :=
  exists i, i < uuids_drawn w /\ id = uuidv4 i.

(** The ids of the stored quizzes and questions come from the generator,
    each quiz is stored under its id, and the questions of a quiz have
    different ids. *)
Record consistent (uuidv4 : nat -> string) (w : World) : Prop := {
  stored_under_id :
    forall k quiz, quizzes w !! k = Some quiz -> quiz_id quiz = k;
  quiz_ids_drawn :
    forall k quiz, quizzes w !! k = Some quiz -> drawn uuidv4 w k;
  question_ids_drawn :
    forall k quiz q, quizzes w !! k = Some quiz -> In q (questions quiz) ->
      drawn uuidv4 w (q_id q);
  question_ids_differ :
    forall k quiz, quizzes w !! k = Some quiz -> NoDup (map q_id (questions quiz))
}.

End Identity.

(** *** The payloads [addQuestion] accepts *)

Module Acceptance.
Import Js Payload.

(** The number of options of a payload that are marked correct. *)
Definition marked_correct (items : list value) : nat :=
  length (List.filter (fun d => truthy (get d "isCorrect")) items).

(** The rule of the type on the numbers of options: a correct option;
    for single_choice exactly one and two options or more; for
    multiple_choice two correct options or more and one that is not. *)
Definition type_rule (type : value) (items : list value) : Prop :=
  1 <= marked_correct items
  /\ (type = VStr "single_choice" ->
      marked_correct items = 1 /\ 2 <= length items)
  /\ (type = VStr "multiple_choice" ->
      2 <= marked_correct items < length items).

(** A payload that passes every check of [addQuestion]. *)
Record acceptable (data : value) : Prop := {
  is_object : truthy data = true /\ typeof data = "object";
  has_text :
    exists t, get data "text" = VStr t
              /\ 1 <= String.length (trim t) <= 1000
              /\ (get data "type" = VStr "text" -> String.length (trim t) <= 300);
  has_type : Projection.valid_type (get data "type");
  has_options :
    exists items, get data "options" = VArr items
                  /\ 1 <= length items <= 10
                  /\ Forall option_data_ok items
                  /\ NoDup (map lower_text items)
                  /\ type_rule (get data "type") items
}.

End Acceptance.

(** *** One answer, one selected option *)

Module OneAnswer.
Import Js.

(** The payload that answers the question [q] with the one option [o]. *)
Definition payload (q : Question) (o : AnswerOption) : value :=
  VArr [VObj [("questionId", VStr (q_id q));
              ("selectedOptionIds", VArr [VStr (opt_id o)])]].

(** The verdict on one selected option: its flag, except on a
    multiple_choice question, where one option is never the whole correct
    set. *)
Definition verdict (q : Question) (o : AnswerOption) : bool :=
  if strict_equal (q_type q) (VStr "multiple_choice") then false
  else opt_isCorrect o.

End OneAnswer.

(** * Proofs *)

(** ** Facts about values, [includes] and [Set] *)

Module JsFacts.
Import Js.

Lemma strict_equal_str s v : strict_equal (VStr s) v = true <-> v = VStr s.
Proof.
  destruct v; simpl; try (split; discriminate).
  rewrite String.eqb_eq. split; congruence.
Qed.

Lemma sameValueZero_str_l s v : sameValueZero (VStr s) v = true <-> v = VStr s.
Proof. apply strict_equal_str. Qed.

Lemma sameValueZero_str_r s v : sameValueZero v (VStr s) = true <-> v = VStr s.
Proof.
  destruct v as [| |b|x|t|l|p]; simpl; try (split; discriminate).
  - destruct x; simpl; split; discriminate.
  - rewrite String.eqb_eq. split; congruence.
Qed.

Lemma includes_str arr s : includes arr (VStr s) = true <-> In (VStr s) arr.
Proof.
  unfold includes. rewrite existsb_exists. split.
  - intros (y & Hy & E). apply sameValueZero_str_r in E. now subst.
  - intros H. exists (VStr s). split; [exact H | now apply sameValueZero_str_l].
Qed.

Lemma includes_strs (l : list string) v :
  includes (map VStr l) v = true <-> exists s, v = VStr s /\ In s l.
Proof.
  unfold includes. rewrite existsb_exists. split.
  - intros (y & Hy & E). apply in_map_iff in Hy as (s & <- & Hs).
    apply sameValueZero_str_l in E. eauto.
  - intros (s & -> & Hs). exists (VStr s). split.
    + now apply in_map.
    + now apply sameValueZero_str_l.
Qed.

Lemma strings_in_app a b : strings_in (a ++ b) = strings_in a ++ strings_in b.
Proof. unfold strings_in. apply omap_app. Qed.

Lemma in_strings_in arr s : In s (strings_in arr) <-> In (VStr s) arr.
Proof.
  induction arr as [|v arr IH]; simpl; [tauto|].
  destruct v; simpl; rewrite IH; split; intros H;
    try (now right); try (destruct H as [H|H]; [discriminate H | exact H]).
  - destruct H as [->|H]; [now left | now right].
  - destruct H as [H|H]; [left; congruence | now right].
Qed.

Lemma all_str_strings_in arr :
  Forall is_str arr -> arr = map VStr (strings_in arr).
Proof.
  induction 1 as [|v arr [s ->] _ IH]; simpl; [reflexivity|].
  now rewrite <- IH.
Qed.

(** [Set] insertion: what the set holds afterwards. *)
Lemma set_add_in acc v x : In x (set_add acc v) -> In x acc \/ x = v.
Proof.
  unfold set_add. destruct (includes acc v); [now left|].
  rewrite in_app_iff. simpl. intuition.
Qed.

Lemma set_add_keeps acc v x : In x acc -> In x (set_add acc v).
Proof.
  unfold set_add. destruct (includes acc v); [easy|].
  rewrite in_app_iff. now left.
Qed.

Lemma set_add_str acc s : In (VStr s) (set_add acc (VStr s)).
Proof.
  unfold set_add. destruct (includes acc (VStr s)) eqn:E.
  - now apply includes_str.
  - rewrite in_app_iff. right. now left.
Qed.

Lemma set_add_nodup acc v :
  NoDup (strings_in acc) -> NoDup (strings_in (set_add acc v)).
Proof.
  intros H. unfold set_add. destruct (includes acc v) eqn:E; [exact H|].
  rewrite strings_in_app. destruct v; simpl; rewrite ?app_nil_r; try exact H.
  apply NoDup_app. repeat split.
  - exact H.
  - intros x Hx Hx'. apply list_elem_of_In in Hx, Hx'.
    destruct Hx' as [->|[]]. apply in_strings_in, includes_str in Hx. congruence.
  - apply NoDup_cons. split; [apply not_elem_of_nil | apply NoDup_nil_2].
Qed.

Lemma fold_set_add_in arr : forall acc x,
  In x (fold_left set_add arr acc) -> In x acc \/ In x arr.
Proof.
  induction arr as [|v arr IH]; simpl; intros acc x H; [now left|].
  apply IH in H as [H|H]; [|now right; right].
  apply set_add_in in H as [H| ->]; [now left | right; now left].
Qed.

Lemma fold_set_add_keeps arr : forall acc x,
  In x acc -> In x (fold_left set_add arr acc).
Proof.
  induction arr as [|v arr IH]; simpl; intros acc x H; [exact H|].
  apply IH. now apply set_add_keeps.
Qed.

Lemma fold_set_add_str arr : forall acc s,
  In (VStr s) arr -> In (VStr s) (fold_left set_add arr acc).
Proof.
  induction arr as [|v arr IH]; simpl; intros acc s H; [easy|].
  destruct H as [->|H]; [|now apply IH].
  apply fold_set_add_keeps, set_add_str.
Qed.

Lemma fold_set_add_nodup arr : forall acc,
  NoDup (strings_in acc) -> NoDup (strings_in (fold_left set_add arr acc)).
Proof.
  induction arr as [|v arr IH]; simpl; intros acc H; [exact H|].
  apply IH. now apply set_add_nodup.
Qed.

(** [[...new Set(arr)]] holds elements of [arr] only, every string of
    [arr], and no string twice. *)
Lemma uniq_in arr x : In x (uniq arr) -> In x arr.
Proof. intros H. apply fold_set_add_in in H as [[]|H]. exact H. Qed.

Lemma uniq_str arr s : In (VStr s) (uniq arr) <-> In (VStr s) arr.
Proof. split; [apply uniq_in | apply fold_set_add_str]. Qed.

Lemma uniq_nodup arr : NoDup (strings_in (uniq arr)).
Proof. apply fold_set_add_nodup. apply NoDup_nil_2. Qed.

Lemma uniq_nil arr : uniq arr = [] <-> arr = [].
Proof.
  split; [|now intros ->].
  destruct arr as [|v arr]; [easy|]. intros H. exfalso.
  assert (Hin : In v (uniq (v :: arr))).
  { unfold uniq. simpl. apply fold_set_add_keeps. now left. }
  rewrite H in Hin. destruct Hin.
Qed.

Lemma trimStart_clean s : starts_clean (trimStart s).
Proof.
  induction s as [|c s IH]; simpl; [exact I|].
  destruct (is_whitespace c) eqn:E; [exact IH | exact E].
Qed.

Lemma trimStart_id s : starts_clean s -> trimStart s = s.
Proof. destruct s as [|c s]; simpl; [reflexivity|]. now intros ->. Qed.

Lemma trimEnd_clean s : starts_clean s -> starts_clean (trimEnd s).
Proof.
  destruct s as [|c s]; simpl; [easy|]. intros Hc.
  destruct (trimEnd s); [now rewrite Hc | exact Hc].
Qed.

Lemma trimEnd_cons c s :
  trimEnd (String c s) =
    match trimEnd s with
    | EmptyString => if is_whitespace c then EmptyString else String c EmptyString
    | t => String c t
    end.
Proof. reflexivity. Qed.

Lemma trimEnd_idempotent s : trimEnd (trimEnd s) = trimEnd s.
Proof.
  induction s as [|c s IH]; [reflexivity|].
  rewrite trimEnd_cons.
  destruct (trimEnd s) as [|d t] eqn:E.
  - destruct (is_whitespace c) eqn:Ec; [reflexivity|].
    rewrite trimEnd_cons. simpl. now rewrite Ec.
  - rewrite trimEnd_cons, IH. reflexivity.
Qed.

Lemma trim_idempotent s : trim (trim s) = trim s.
Proof.
  unfold trim.
  rewrite (trimStart_id (trimEnd (trimStart s))).
  - apply trimEnd_idempotent.
  - apply trimEnd_clean, trimStart_clean.
Qed.

End JsFacts.

(** ** Answer evaluation *)

Module EvaluationFacts.
Import Js JsFacts QuestionModel Evaluation.

Lemma in_correct_ids q s : In s (getCorrectOptionIds q) <-> correct_id q s.
Proof.
  unfold getCorrectOptionIds, correct_id. rewrite in_map_iff. split.
  - intros (o & E & H). apply filter_In in H as [H1 H2]. eauto.
  - intros (o & H1 & H2 & E). exists o. split; [exact E|].
    apply filter_In. now split.
Qed.

Lemma in_uniqueSelected items v :
  In v (uniqueSelected items) -> remains items v.
Proof.
  intros H. apply uniq_in in H. apply filter_In in H. exact H.
Qed.

Lemma in_uniqueSelected_str items s :
  In (VStr s) (uniqueSelected items) <-> remains items (VStr s).
Proof.
  unfold uniqueSelected, remains. rewrite uniq_str. apply filter_In.
Qed.

Lemma allOptionsExist_spec q sel :
  allOptionsExist q sel = true <-> forall v, In v sel -> names_option q v.
Proof.
  unfold allOptionsExist, names_option. rewrite forallb_forall.
  split; intros H v Hv; specialize (H v Hv).
  - apply existsb_exists in H as (o & Ho & E).
    apply strict_equal_str in E. eauto.
  - destruct H as (o & Ho & ->). apply existsb_exists. exists o.
    split; [exact Ho | now apply strict_equal_str].
Qed.

Lemma length_zero_nil {A} (l : list A) : (length l =? 0)%nat = true <-> l = [].
Proof. destruct l; simpl; split; congruence. Qed.

Section Preamble.
Variables (q : Question) (items : list value).
Hypothesis Hpre : preamble q items.

Lemma preamble_all_str : Forall is_str (uniqueSelected items).
Proof.
  apply List.Forall_forall. intros v Hv.
  apply in_uniqueSelected, (all_exist _ _ Hpre) in Hv as (o & _ & ->).
  now exists (opt_id o).
Qed.

Lemma preamble_selected_strings :
  uniqueSelected items = map VStr (strings_in (uniqueSelected items)).
Proof. apply all_str_strings_in, preamble_all_str. Qed.

Lemma preamble_selected_nonempty : uniqueSelected items <> [].
Proof.
  destruct (some_remains _ _ Hpre) as (v & Hv).
  destruct (all_exist _ _ Hpre v Hv) as (o & _ & ->).
  apply in_uniqueSelected_str in Hv. intros E. rewrite E in Hv. destruct Hv.
Qed.

Lemma preamble_correct_nonempty : getCorrectOptionIds q <> [].
Proof.
  destruct (has_correct _ _ Hpre) as (s & Hs).
  apply in_correct_ids in Hs. intros E. rewrite E in Hs. destruct Hs.
Qed.

(** Past the preamble, [isAnswerCorrect] is the dispatch on the type. *)
Lemma isAnswerCorrect_dispatch :
  isAnswerCorrect q (VArr items) =
    if strict_equal (q_type q) (VStr "single_choice")
    then validateSingleChoice (uniqueSelected items) (getCorrectOptionIds q)
    else if strict_equal (q_type q) (VStr "multiple_choice")
    then validateMultipleChoice (uniqueSelected items) (getCorrectOptionIds q)
    else if strict_equal (q_type q) (VStr "text")
    then validateTextChoice (uniqueSelected items) (getCorrectOptionIds q)
    else false.
Proof.
  unfold isAnswerCorrect.
  destruct (length (getCorrectOptionIds q) =? 0)%nat eqn:E1.
  { apply length_zero_nil in E1. now apply preamble_correct_nonempty in E1. }
  destruct (length (uniqueSelected items) =? 0)%nat eqn:E2.
  { apply length_zero_nil in E2. now apply preamble_selected_nonempty in E2. }
  assert (E3 : allOptionsExist q (uniqueSelected items) = true).
  { apply allOptionsExist_spec. intros v Hv.
    apply (all_exist _ _ Hpre). now apply in_uniqueSelected. }
  rewrite E3. reflexivity.
Qed.

End Preamble.

Lemma validateSingleChoice_spec sel correct :
  validateSingleChoice sel correct = true <->
  exists s, sel = [VStr s] /\ In s correct.
Proof.
  unfold validateSingleChoice.
  destruct sel as [|v [|w sel]]; simpl.
  - split; [discriminate | now intros (s & E & _)].
  - change (includes (map VStr correct) v = true <-> (exists s, [v] = [VStr s] /\ In s correct)).
    rewrite includes_strs. split.
    + intros (s & -> & Hs). eauto.
    + intros (s & E & Hs). injection E as ->. eauto.
  - split; [discriminate | now intros (s & E & _)].
Qed.

Lemma validateMultipleChoice_spec sel correct :
  validateMultipleChoice sel correct = true <->
  length sel = length correct
  /\ (forall v, In v sel -> exists s, v = VStr s /\ In s correct)
  /\ (forall s, In s correct -> In (VStr s) sel).
Proof.
  unfold validateMultipleChoice.
  destruct (length sel =? length correct)%nat eqn:E; simpl.
  - apply Nat.eqb_eq in E. rewrite andb_true_iff, !forallb_forall. split.
    + intros [H1 H2]. split; [exact E|]. split.
      * intros v Hv. now apply includes_strs, H1.
      * intros s Hs. apply includes_str, H2. now apply in_map.
    + intros (_ & H1 & H2). split.
      * intros v Hv. now apply includes_strs, H1.
      * intros v Hv. apply in_map_iff in Hv as (s & <- & Hs).
        now apply includes_str, H2.
  - apply Nat.eqb_neq in E. split; [discriminate | intros (E' & _); contradiction].
Qed.

Lemma validateTextChoice_spec sel correct :
  validateTextChoice sel correct = true <->
  exists s, In (VStr s) sel /\ In s correct.
Proof.
  unfold validateTextChoice. rewrite existsb_exists. split.
  - intros (v & Hv & H). apply includes_strs in H as (s & -> & Hs). eauto.
  - intros (s & H1 & H2). exists (VStr s). split; [exact H1|].
    apply includes_strs. eauto.
Qed.

Lemma NoDup_map_filter {A B} (f : A -> B) (p : A -> bool) (l : list A) :
  NoDup (map f l) -> NoDup (map f (List.filter p l)).
Proof.
  induction l as [|a l IH]; simpl; intros H; [exact H|].
  apply NoDup_cons in H as [H1 H2].
  destruct (p a); simpl; [|now apply IH].
  apply NoDup_cons. split; [|now apply IH].
  intros Hin. apply H1. apply list_elem_of_In in Hin. apply list_elem_of_In.
  apply in_map_iff in Hin as (x & E & Hx). apply filter_In in Hx as [Hx _].
  apply in_map_iff. eauto.
Qed.

Lemma NoDup_map_injective {A B} (f : A -> B) (l : list A) a b :
  NoDup (map f l) -> In a l -> In b l -> f a = f b -> a = b.
Proof.
  induction l as [|x l IH]; simpl; intros H Ha Hb E; [destruct Ha|].
  apply NoDup_cons in H as [H1 H2].
  assert (Hf : forall y, In y l -> f x <> f y).
  { intros y Hy E'. apply H1. apply list_elem_of_In, in_map_iff. eauto. }
  destruct Ha as [->|Ha], Hb as [->|Hb].
  - reflexivity.
  - now apply Hf in Hb.
  - symmetry in E. now apply Hf in Ha.
  - now apply IH.
Qed.

Lemma correct_ids_nodup q :
  unique_option_ids q -> NoDup (getCorrectOptionIds q).
Proof. apply NoDup_map_filter. Qed.

Lemma nodup_same_length (l k : list string) :
  NoDup l -> NoDup k -> (forall s, In s l <-> In s k) -> length l = length k.
Proof.
  intros Hl Hk H. apply Permutation_length. apply NoDup_Permutation; try assumption.
  intros s. rewrite !list_elem_of_In. apply H.
Qed.

(** The preamble, from the three tests [isAnswerCorrect] makes. *)
Lemma preamble_of_checks q items :
  List.filter truthy items <> [] ->
  allOptionsExist q (List.filter truthy items) = true ->
  getCorrectOptionIds q <> [] ->
  preamble q items.
Proof.
  intros H1 H2 H3. split.
  - destruct (List.filter truthy items) as [|v l] eqn:E; [contradiction|].
    exists v. apply filter_In. rewrite E. now left.
  - intros v Hv. apply (proj1 (allOptionsExist_spec q _) H2).
    now apply filter_In.
  - destruct (getCorrectOptionIds q) as [|s l] eqn:E; [contradiction|].
    exists s. apply in_correct_ids. rewrite E. now left.
Qed.

(** Whatever the set drops is the same value as something it keeps. *)
Lemma fold_set_add_represents arr : forall acc x,
  In x arr ->
  exists y, In y (fold_left set_add arr acc) /\ (y = x \/ sameValueZero y x = true).
Proof.
  induction arr as [|v arr IH]; simpl; intros acc x H; [destruct H|].
  destruct H as [->|H]; [|now apply IH].
  unfold set_add at 2. destruct (includes acc x) eqn:E.
  - apply existsb_exists in E as (y & Hy & E). exists y.
    split; [now apply fold_set_add_keeps | now right].
  - exists x. split; [|now left].
    apply fold_set_add_keeps, in_app_iff. right. now left.
Qed.

Lemma unknown_id_survives q items x :
  remains items x -> ~ names_option q x ->
  exists y, In y (uniqueSelected items) /\ ~ names_option q y.
Proof.
  intros Hx Hun.
  destruct (fold_set_add_represents (List.filter truthy items) [] x)
    as (y & Hy & Hyx); [now apply filter_In|].
  exists y. split; [exact Hy|].
  destruct Hyx as [->|E]; [exact Hun|].
  intros (o & Ho & ->). apply sameValueZero_str_l in E. subst x.
  apply Hun. now exists o.
Qed.

End EvaluationFacts.

Section AnswerCorrectness.
Import Js JsFacts QuestionModel Evaluation EvaluationFacts.

(** C1.  For a multiple_choice question and a selection that passes the
    evaluation preamble, [isAnswerCorrect] returns true exactly when the
    set of ids that remain equals the correct set; equivalently when the
    deduplicated selection has the size of the correct set, every selected
    id is correct and every correct id is selected. *)
Theorem multiple_choice_iff_exact_set (q : Question) (items : list value) :
  q_type q = VStr "multiple_choice" ->
  unique_option_ids q ->
  preamble q items ->
  (isAnswerCorrect q (VArr items) = true <->
     forall v, remains items v <-> exists s, v = VStr s /\ correct_id q s)
  /\
  (isAnswerCorrect q (VArr items) = true <->
     length (uniqueSelected items) = length (getCorrectOptionIds q)
     /\ (forall v, In v (uniqueSelected items) ->
           exists s, v = VStr s /\ In s (getCorrectOptionIds q))
     /\ (forall s, In s (getCorrectOptionIds q) ->
           In (VStr s) (uniqueSelected items))).
Proof.
  intros Hty Hids Hpre.
  assert (Hval : isAnswerCorrect q (VArr items) =
                 validateMultipleChoice (uniqueSelected items) (getCorrectOptionIds q)).
  { rewrite (isAnswerCorrect_dispatch q items Hpre), Hty. reflexivity. }
  rewrite Hval, validateMultipleChoice_spec.
  split; [|reflexivity].
  split.
  - intros (_ & H1 & H2) v. split.
    + intros Hv. destruct (all_exist _ _ Hpre v Hv) as (o & _ & ->).
      apply in_uniqueSelected_str, H1 in Hv as (s & E & Hs).
      exists s. split; [exact E | now apply in_correct_ids].
    + intros (s & -> & Hs). now apply in_uniqueSelected_str, H2, in_correct_ids.
  - intros H.
    assert (H1 : forall v, In v (uniqueSelected items) ->
                   exists s, v = VStr s /\ In s (getCorrectOptionIds q)).
    { intros v Hv. apply in_uniqueSelected, H in Hv as (s & -> & Hs).
      exists s. split; [reflexivity | now apply in_correct_ids]. }
    assert (H2 : forall s, In s (getCorrectOptionIds q) ->
                   In (VStr s) (uniqueSelected items)).
    { intros s Hs. apply in_uniqueSelected_str, H. exists s.
      split; [reflexivity | now apply in_correct_ids]. }
    split; [|split; assumption].
    rewrite (preamble_selected_strings q items Hpre), length_map.
    apply nodup_same_length.
    + apply uniq_nodup.
    + now apply correct_ids_nodup.
    + intros s. rewrite in_strings_in. split; [|apply H2].
      intros Hs. apply H1 in Hs as (s' & E & Hs'). now injection E as ->.
Qed.

(** C2.  For a single_choice question and a selection that passes the
    evaluation preamble, [isAnswerCorrect] returns true exactly when one id
    remains after deduplication and that id is in the correct set. *)
Theorem single_choice_iff_one_correct (q : Question) (items : list value) :
  q_type q = VStr "single_choice" ->
  preamble q items ->
  (isAnswerCorrect q (VArr items) = true <->
     exists s, uniqueSelected items = [VStr s] /\ correct_id q s)
  /\
  (isAnswerCorrect q (VArr items) = true <->
     exists s, (forall v, remains items v <-> v = VStr s) /\ correct_id q s).
Proof.
  intros Hty Hpre.
  assert (Hval : isAnswerCorrect q (VArr items) =
                 validateSingleChoice (uniqueSelected items) (getCorrectOptionIds q)).
  { rewrite (isAnswerCorrect_dispatch q items Hpre), Hty. reflexivity. }
  rewrite Hval, validateSingleChoice_spec.
  assert (Hone : forall s, uniqueSelected items = [VStr s] <->
                           forall v, remains items v <-> v = VStr s).
  { intros s. split.
    - intros E v. split.
      + intros Hv. destruct (all_exist _ _ Hpre v Hv) as (o & _ & ->).
        apply in_uniqueSelected_str in Hv. rewrite E in Hv.
        destruct Hv as [<-|[]]. reflexivity.
      + intros ->. apply in_uniqueSelected_str. rewrite E. now left.
    - intros H.
      pose proof (uniq_nodup (List.filter truthy items)) as Hnd.
      fold (uniqueSelected items) in Hnd.
      assert (Hin : forall t, In t (strings_in (uniqueSelected items)) <-> t = s).
      { intros t. rewrite in_strings_in, in_uniqueSelected_str, H.
        split; congruence. }
      rewrite (preamble_selected_strings q items Hpre).
      destruct (strings_in (uniqueSelected items)) as [|a [|b l]].
      + exfalso. now apply (Hin s).
      + simpl. f_equal. f_equal. apply Hin. now left.
      + exfalso. apply NoDup_cons in Hnd as [Hab _].
        apply Hab. apply list_elem_of_In. left.
        assert (Ea : a = s) by (apply Hin; now left).
        assert (Eb : b = s) by (apply Hin; right; now left).
        congruence. }
  split.
  - split; intros (s & E & Hs); exists s; (split; [exact E|]);
      now apply in_correct_ids.
  - split; intros (s & E & Hs); exists s; (split; [now apply Hone|]);
      now apply in_correct_ids.
Qed.

(** C3.  For a text question with a correct option and a selection that
    passes the evaluation preamble, [isAnswerCorrect] returns true exactly
    when some id that remains is in the correct set; a selection of
    incorrect ids only gives false, and one that holds a correct id among
    incorrect ones gives true. *)
Theorem text_iff_some_correct (q : Question) (items : list value) :
  q_type q = VStr "text" ->
  unique_option_ids q ->
  preamble q items ->
  (isAnswerCorrect q (VArr items) = true <->
     exists s, remains items (VStr s) /\ correct_id q s)
  /\ ((forall v, remains items v -> incorrect_id q v) ->
      isAnswerCorrect q (VArr items) = false)
  /\ (forall s, remains items (VStr s) -> correct_id q s ->
      isAnswerCorrect q (VArr items) = true).
Proof.
  intros Hty Hids Hpre.
  assert (Hval : isAnswerCorrect q (VArr items) =
                 validateTextChoice (uniqueSelected items) (getCorrectOptionIds q)).
  { rewrite (isAnswerCorrect_dispatch q items Hpre), Hty. reflexivity. }
  assert (Hiff : isAnswerCorrect q (VArr items) = true <->
                 exists s, remains items (VStr s) /\ correct_id q s).
  { rewrite Hval, validateTextChoice_spec.
    split; intros (s & H1 & H2); exists s;
      (split; [now apply in_uniqueSelected_str | now apply in_correct_ids]). }
  split; [exact Hiff|]. split.
  - intros Hall. apply not_true_is_false. intros Ht.
    apply Hiff in Ht as (s & Hs & (o & Ho & Hc & <-)).
    destruct (Hall _ Hs) as (o' & Ho' & Hc' & E). injection E as E.
    assert (o = o') by (eapply NoDup_map_injective; eauto).
    subst o'. congruence.
  - intros s Hs Hc. apply Hiff. eauto.
Qed.

Lemma multiple_choice_iff_exact_set_witness :
  (q_type Scenario.primes_question = VStr "multiple_choice"
   /\ unique_option_ids Scenario.primes_question
   /\ preamble Scenario.primes_question Scenario.both_primes)
  /\ ((isAnswerCorrect Scenario.primes_question (VArr Scenario.both_primes) = true <->
        forall v, remains Scenario.both_primes v <->
                  exists s, v = VStr s /\ correct_id Scenario.primes_question s)
      /\
      (isAnswerCorrect Scenario.primes_question (VArr Scenario.both_primes) = true <->
        length (uniqueSelected Scenario.both_primes)
          = length (getCorrectOptionIds Scenario.primes_question)
        /\ (forall v, In v (uniqueSelected Scenario.both_primes) ->
              exists s, v = VStr s /\ In s (getCorrectOptionIds Scenario.primes_question))
        /\ (forall s, In s (getCorrectOptionIds Scenario.primes_question) ->
              In (VStr s) (uniqueSelected Scenario.both_primes)))).
Proof.
  assert (H1 : q_type Scenario.primes_question = VStr "multiple_choice")
    by reflexivity.
  assert (H2 : unique_option_ids Scenario.primes_question).
  { apply (bool_decide_unpack _). vm_compute. exact I. }
  assert (H3 : preamble Scenario.primes_question Scenario.both_primes).
  { apply preamble_of_checks; [discriminate | reflexivity | discriminate]. }
  split; [auto|].
  exact (multiple_choice_iff_exact_set _ _ H1 H2 H3).
Defined.

Lemma single_choice_iff_one_correct_witness :
  (q_type Scenario.sum_question = VStr "single_choice"
   /\ preamble Scenario.sum_question Scenario.four)
  /\ ((isAnswerCorrect Scenario.sum_question (VArr Scenario.four) = true <->
        exists s, uniqueSelected Scenario.four = [VStr s]
                  /\ correct_id Scenario.sum_question s)
      /\
      (isAnswerCorrect Scenario.sum_question (VArr Scenario.four) = true <->
        exists s, (forall v, remains Scenario.four v <-> v = VStr s)
                  /\ correct_id Scenario.sum_question s)).
Proof.
  assert (H1 : q_type Scenario.sum_question = VStr "single_choice")
    by reflexivity.
  assert (H2 : preamble Scenario.sum_question Scenario.four).
  { apply preamble_of_checks; [discriminate | reflexivity | discriminate]. }
  split; [auto|].
  exact (single_choice_iff_one_correct _ _ H1 H2).
Defined.

Lemma text_iff_some_correct_witness :
  (q_type Scenario.capital_question = VStr "text"
   /\ unique_option_ids Scenario.capital_question
   /\ preamble Scenario.capital_question Scenario.paris_and_lyon)
  /\ ((isAnswerCorrect Scenario.capital_question (VArr Scenario.paris_and_lyon) = true <->
        exists s, remains Scenario.paris_and_lyon (VStr s)
                  /\ correct_id Scenario.capital_question s)
      /\ ((forall v, remains Scenario.paris_and_lyon v ->
              incorrect_id Scenario.capital_question v) ->
          isAnswerCorrect Scenario.capital_question (VArr Scenario.paris_and_lyon) = false)
      /\ (forall s, remains Scenario.paris_and_lyon (VStr s) ->
            correct_id Scenario.capital_question s ->
            isAnswerCorrect Scenario.capital_question (VArr Scenario.paris_and_lyon) = true)).
Proof.
  assert (H1 : q_type Scenario.capital_question = VStr "text") by reflexivity.
  assert (H2 : unique_option_ids Scenario.capital_question).
  { apply (bool_decide_unpack _). vm_compute. exact I. }
  assert (H3 : preamble Scenario.capital_question Scenario.paris_and_lyon).
  { apply preamble_of_checks; [discriminate | reflexivity | discriminate]. }
  split; [auto|].
  exact (text_iff_some_correct _ _ H1 H2 H3).
Defined.

End AnswerCorrectness.

Section Degradation.
Import Js JsFacts QuestionModel Evaluation EvaluationFacts.

(** C7, as amended.  [isAnswerCorrect] is a total function to a boolean,
    and the boolean is false when the value is no array, when nothing
    truthy is in the array (the empty array among them), when a truthy
    entry names no option, when the question has no correct option and when
    its type is none of the three.  Falsy entries are dropped and change
    nothing else. *)
Theorem isAnswerCorrect_degrades_to_false (q : Question) (v : value) :
  (isArray v = false -> isAnswerCorrect q v = false)
  /\ (forall items, v = VArr items ->
        (forall x, In x items -> truthy x = false) ->
        isAnswerCorrect q v = false)
  /\ (forall items x, v = VArr items ->
        remains items x -> ~ names_option q x ->
        isAnswerCorrect q v = false)
  /\ ((forall o, In o (q_options q) -> opt_isCorrect o = false) ->
      isAnswerCorrect q v = false)
  /\ (q_type q <> VStr "single_choice" ->
      q_type q <> VStr "multiple_choice" ->
      q_type q <> VStr "text" ->
      isAnswerCorrect q v = false)
  /\ (forall items, v = VArr items ->
        isAnswerCorrect q v = isAnswerCorrect q (VArr (List.filter truthy items))).
Proof.
  repeat split.
  - destruct v; simpl; try reflexivity. discriminate.
  - intros items -> Hall. unfold isAnswerCorrect.
    assert (E : uniqueSelected items = []).
    { unfold uniqueSelected. apply uniq_nil.
      destruct (List.filter truthy items) as [|x l] eqn:E; [reflexivity|].
      assert (Hx : In x (List.filter truthy items)) by (rewrite E; now left).
      apply filter_In in Hx as [Hx Ht]. rewrite (Hall x Hx) in Ht. discriminate. }
    rewrite E. simpl. now destruct (length (getCorrectOptionIds q) =? 0)%nat.
  - intros items x -> Hx Hun. unfold isAnswerCorrect.
    destruct (unknown_id_survives q items x Hx Hun) as (y & Hy & Hyun).
    assert (E : allOptionsExist q (uniqueSelected items) = false).
    { apply not_true_is_false. intros E. apply Hyun.
      now apply (proj1 (allOptionsExist_spec q _) E). }
    rewrite E. simpl.
    destruct (length (getCorrectOptionIds q) =? 0)%nat; [reflexivity|].
    now destruct (length (uniqueSelected items) =? 0)%nat.
  - intros Hnone.
    assert (E : getCorrectOptionIds q = []).
    { destruct (getCorrectOptionIds q) as [|s l] eqn:E; [reflexivity|].
      assert (Hs : In s (getCorrectOptionIds q)) by (rewrite E; now left).
      apply in_correct_ids in Hs as (o & Ho & Hc & _).
      rewrite (Hnone o Ho) in Hc. discriminate. }
    destruct v; simpl; try reflexivity. now rewrite E.
  - intros H1 H2 H3.
    assert (E : forall s, q_type q <> VStr s -> strict_equal (q_type q) (VStr s) = false).
    { intros s Hs. apply not_true_is_false. intros E. apply Hs.
      destruct (q_type q); simpl in E; try discriminate.
      apply String.eqb_eq in E. now subst. }
    destruct v; simpl; try reflexivity.
    rewrite (E _ H1), (E _ H2), (E _ H3).
    repeat match goal with |- context [if ?c then _ else _] => destruct c end;
      reflexivity.
  - intros items ->. unfold isAnswerCorrect, uniqueSelected.
    assert (E : List.filter truthy (List.filter truthy items) = List.filter truthy items).
    { induction items as [|x l IH]; simpl; [reflexivity|].
      destruct (truthy x) eqn:Ht; simpl; [|exact IH]. now rewrite Ht, IH. }
    now rewrite E.
Qed.

(** C7, as stated, fails: an array that holds a falsy entry next to the
    correct id of the single_choice question is judged correct. *)
Lemma falsy_entry_selection_is_accepted :
  (exists x, In x [VNull; VStr "id-3"] /\ truthy x = false)
  /\ isAnswerCorrect Scenario.sum_question (VArr [VNull; VStr "id-3"]) = true.
Proof.
  split; [|reflexivity].
  exists VNull. split; [now left | reflexivity].
Qed.

End Degradation.

(** ** Question validation *)

Module ValidationFacts.
Import Js QuestionModel Validation.

Lemma count_split q : length (q_options q) = correct_count q + incorrect_count q.
Proof.
  unfold correct_count, incorrect_count.
  induction (q_options q) as [|o l IH]; simpl; [reflexivity|].
  destruct (opt_isCorrect o); simpl; lia.
Qed.

Lemma string_length_zero s : (String.length s =? 0)%nat = true <-> s = "".
Proof. destruct s; simpl; split; congruence. Qed.

Lemma blank_test q :
  (q_text q =? "") || (String.length (trim (q_text q)) =? 0)%nat = false
  <-> trim (q_text q) <> "".
Proof.
  split.
  - intros H E. apply orb_false_iff in H as [_ H].
    rewrite E in H. discriminate.
  - intros H. apply orb_false_iff. split.
    + apply not_true_is_false. intros E. apply String.eqb_eq in E.
      apply H. now rewrite E.
    + apply not_true_is_false. intros E. now apply string_length_zero in E.
Qed.

(** With the general rules met, [validate] is the check by type. *)
Lemma validate_general q :
  general_rules q ->
  validate q =
    (validateByType q (List.filter opt_isCorrect (q_options q)) ;;? Return true).
Proof.
  intros (Ht & Ho & Hc). unfold validate.
  rewrite (proj2 (blank_test q) Ht). simpl.
  destruct (q_options q) as [|o l] eqn:E; [contradiction|]. rewrite <- E. simpl.
  replace (length (q_options q) =? 0)%nat with false
    by (rewrite E; reflexivity).
  simpl. unfold correct_count in Hc.
  destruct (length (List.filter opt_isCorrect (q_options q))) eqn:E'; [lia|].
  reflexivity.
Qed.

(** What [validate] lets through meets the general rules. *)
Lemma validate_returns q b :
  validate q = Return b -> b = true /\ general_rules q.
Proof.
  unfold validate, general_rules, correct_count.
  destruct ((q_text q =? "") || (String.length (trim (q_text q)) =? 0)%nat) eqn:E1;
    [discriminate|]. simpl.
  destruct (length (q_options q) =? 0)%nat eqn:E2; [discriminate|]. simpl.
  destruct (length (List.filter opt_isCorrect (q_options q)) =? 0)%nat eqn:E3;
    [discriminate|]. simpl.
  destruct (validateByType q _); simpl; [|discriminate].
  intros [= <-]. split; [reflexivity|].
  apply blank_test in E1. apply Nat.eqb_neq in E2, E3.
  repeat split; [exact E1 | | lia].
  intros E. rewrite E in E2. now apply E2.
Qed.

Lemma all_correct_incorrect_count q :
  (forall o, In o (q_options q) -> opt_isCorrect o = true) ->
  incorrect_count q = 0.
Proof.
  unfold incorrect_count. induction (q_options q) as [|o l IH]; simpl; intros Hall;
    [reflexivity|].
  rewrite (Hall o) by now left. simpl. apply IH.
  intros o' Ho'. apply Hall. now right.
Qed.

End ValidationFacts.

(** ** The state monad *)

Lemma bind_Return {A B} (c : M A) (k : A -> M B) w b w' :
  bind c k w = (Return b, w') ->
  exists a w1, c w = (Return a, w1) /\ k a w1 = (Return b, w').
Proof.
  unfold bind. destruct (c w) as [[a|msg] w1]; [eauto | discriminate].
Qed.

Lemma lift_Return {A} (o : outcome A) w a w' :
  lift o w = (Return a, w') -> o = Return a /\ w' = w.
Proof. unfold lift. intros [= -> ->]. now split. Qed.

Lemma ret_Return {A} (x : A) w a w' :
  ret x w = (Return a, w') -> a = x /\ w' = w.
Proof. unfold ret. intros [= -> ->]. now split. Qed.

(** Unfolds one [bind], [lift] or [ret] of a run that returned. *)
Ltac step_run H :=
  match type of H with
  | bind _ _ _ = (Return _, _) =>
      let a := fresh "a" in let w := fresh "w" in
      let H1 := fresh "Hrun" in
      apply bind_Return in H as (a & w & H1 & H)
  | lift _ _ = (Return _, _) =>
      let E := fresh "E" in
      apply lift_Return in H as [H E]; subst
  | ret _ _ = (Return _, _) =>
      let E := fresh "E" in
      apply ret_Return in H as [H E]; subst
  end.

Section AddTimeValidation.
Import Js QuestionModel Validation ValidationFacts.

Lemma addQuestion_validated uuidv4 toISOString quizId data w q w' :
  addQuestion uuidv4 toISOString quizId data w = (Return q, w') ->
  validate q = Return true.
Proof.
  unfold addQuestion. intros H.
  do 5 step_run H. step_run Hrun3.
  apply validate_returns in Hrun3 as Hb. destruct Hb as [-> _].
  do 2 step_run H. step_run H. now subst.
Qed.

(** C8.  Validation at add time enforces the rules of the type.  What
    [addQuestion] returns has passed [validate].  A single_choice question
    passes exactly with one correct option and at least two options; a
    multiple_choice question passes exactly with at least two correct
    options and an incorrect one, which makes at least three options.  When
    the rules of the type fail, the error names one that is violated; in
    particular a multiple_choice question whose three options are all
    correct fails with 'Multiple choice questions must have at least one
    incorrect option'. *)
Theorem validation_enforces_type_rules (q : Question) :
  (forall uuidv4 toISOString quizId data w w',
     addQuestion uuidv4 toISOString quizId data w = (Return q, w') ->
     validate q = Return true)
  /\ (q_type q = VStr "single_choice" ->
      (validate q = Return true <->
         general_rules q /\ correct_count q = 1 /\ 2 <= length (q_options q))
      /\ (general_rules q -> correct_count q <> 1 ->
          validate q =
            Throw [Lit "Single choice questions can only have one correct answer"])
      /\ (general_rules q -> correct_count q = 1 -> length (q_options q) < 2 ->
          validate q =
            Throw [Lit "Single choice questions must have at least 2 options"]))
  /\ (q_type q = VStr "multiple_choice" ->
      (validate q = Return true <->
         general_rules q /\ 2 <= correct_count q /\ 1 <= incorrect_count q
         /\ 3 <= length (q_options q))
      /\ (general_rules q -> correct_count q < 2 ->
          validate q =
            Throw [Lit "Multiple choice questions must have at least 2 correct answers"])
      /\ (general_rules q -> 2 <= correct_count q -> incorrect_count q = 0 ->
          validate q =
            Throw [Lit "Multiple choice questions must have at least one incorrect option"])
      /\ (trim (q_text q) <> "" -> length (q_options q) = 3 ->
          (forall o, In o (q_options q) -> opt_isCorrect o = true) ->
          validate q =
            Throw [Lit "Multiple choice questions must have at least one incorrect option"]))
  /\ fst (addQuestion Scenario.uuids Scenario.clock
            (VStr "id-0") Scenario.all_correct_data Scenario.with_quiz)
     = Throw [Lit "Multiple choice questions must have at least one incorrect option"]
  /\ ValidationError
       [Lit "Multiple choice questions must have at least one incorrect option"].
Proof.
  split; [intros; eapply addQuestion_validated; eauto|].
  pose proof (count_split q) as Hsplit.
  assert (Hsingle : q_type q = VStr "single_choice" -> general_rules q ->
    validate q =
      if negb (correct_count q =? 1)%nat
      then Throw [Lit "Single choice questions can only have one correct answer"]
      else if (length (q_options q) <? 2)%nat
      then Throw [Lit "Single choice questions must have at least 2 options"]
      else Return true).
  { intros Hty Hg. rewrite (validate_general q Hg). unfold validateByType.
    rewrite Hty. simpl. fold (correct_count q).
    destruct (correct_count q =? 1)%nat; simpl; [|reflexivity].
    now destruct (length (q_options q) <? 2)%nat. }
  assert (Hmulti : q_type q = VStr "multiple_choice" -> general_rules q ->
    validate q =
      if (correct_count q <? 2)%nat
      then Throw [Lit "Multiple choice questions must have at least 2 correct answers"]
      else if (correct_count q =? length (q_options q))%nat
      then Throw [Lit "Multiple choice questions must have at least one incorrect option"]
      else if (length (q_options q) <? 3)%nat
      then Throw [Lit "Multiple choice questions must have at least 3 options"]
      else Return true).
  { intros Hty Hg. rewrite (validate_general q Hg). unfold validateByType.
    rewrite Hty. simpl. fold (correct_count q).
    destruct (correct_count q <? 2)%nat; simpl; [reflexivity|].
    destruct (correct_count q =? length (q_options q))%nat; simpl; [reflexivity|].
    now destruct (length (q_options q) <? 3)%nat. }
  split; [|split; [|split]].
  - intros Hty. split; [|split].
    + split.
      * intros H. destruct (validate_returns q _ H) as [_ Hg].
        rewrite (Hsingle Hty Hg) in H.
        destruct (correct_count q =? 1)%nat eqn:E1; [|discriminate]. simpl in H.
        destruct (length (q_options q) <? 2)%nat eqn:E2; [discriminate|].
        apply Nat.eqb_eq in E1. apply Nat.ltb_ge in E2. auto.
      * intros (Hg & H1 & H2). rewrite (Hsingle Hty Hg).
        apply Nat.eqb_eq in H1. rewrite H1. simpl.
        apply Nat.ltb_ge in H2. now rewrite H2.
    + intros Hg H1. rewrite (Hsingle Hty Hg).
      apply Nat.eqb_neq in H1. now rewrite H1.
    + intros Hg H1 H2. rewrite (Hsingle Hty Hg).
      apply Nat.eqb_eq in H1. rewrite H1. simpl.
      apply Nat.ltb_lt in H2. now rewrite H2.
  - intros Hty.
    assert (Hnone : general_rules q -> 2 <= correct_count q -> incorrect_count q = 0 ->
      validate q =
        Throw [Lit "Multiple choice questions must have at least one incorrect option"]).
    { intros Hg H1 H2. rewrite (Hmulti Hty Hg).
      apply Nat.ltb_ge in H1. rewrite H1.
      replace (correct_count q =? length (q_options q))%nat with true; [reflexivity|].
      symmetry. apply Nat.eqb_eq. lia. }
    split; [|split; [|split]].
    + split.
      * intros H. destruct (validate_returns q _ H) as [_ Hg].
        rewrite (Hmulti Hty Hg) in H.
        destruct (correct_count q <? 2)%nat eqn:E1; [discriminate|].
        destruct (correct_count q =? length (q_options q))%nat eqn:E2; [discriminate|].
        destruct (length (q_options q) <? 3)%nat eqn:E3; [discriminate|].
        apply Nat.ltb_ge in E1, E3. apply Nat.eqb_neq in E2.
        repeat split; try assumption; try apply Hg; lia.
      * intros (Hg & H1 & H2 & H3). rewrite (Hmulti Hty Hg).
        apply Nat.ltb_ge in H1, H3. rewrite H1, H3.
        replace (correct_count q =? length (q_options q))%nat with false; [reflexivity|].
        symmetry. apply Nat.eqb_neq. lia.
    + intros Hg H1. rewrite (Hmulti Hty Hg).
      apply Nat.ltb_lt in H1. now rewrite H1.
    + exact Hnone.
    + intros Ht Hlen Hall.
      assert (Hinc : incorrect_count q = 0)
        by now apply all_correct_incorrect_count.
      apply Hnone; [|lia|exact Hinc].
      repeat split; [exact Ht | | lia].
      intros E. rewrite E in Hlen. discriminate.
  - vm_compute. reflexivity.
  - discriminate.
Qed.

End AddTimeValidation.

(** ** What the methods do to the map of quizzes *)

Section Frame.
Import Js QuizService.
Variable uuidv4 : nat -> string.
Variable toISOString : nat -> string.

Lemma keeps_ret {A} (a : A) : keeps (ret a).
Proof. now intros w. Qed.

Lemma keeps_throw {A} msg : keeps (@throw A msg).
Proof. now intros w. Qed.

Lemma keeps_lift {A} (o : outcome A) : keeps (lift o).
Proof. now intros w. Qed.

Lemma keeps_bind {A B} (c : M A) (k : A -> M B) :
  keeps c -> (forall a, keeps (k a)) -> keeps (bind c k).
Proof.
  intros Hc Hk w. unfold bind. specialize (Hc w).
  destruct (c w) as [[a|msg] w1]; simpl in *; [|exact Hc].
  now rewrite Hk.
Qed.

Lemma keeps_get_quizzes : keeps get_quizzes.
Proof. now intros w. Qed.

Lemma keeps_draw_uuid : keeps (draw_uuid uuidv4).
Proof. now intros w. Qed.

Lemma keeps_read_clock : keeps (read_clock toISOString).
Proof. now intros w. Qed.

Lemma pure_read_keeps {A} (c : M A) : pure_read c -> keeps c.
Proof. intros H w. now rewrite H. Qed.

Lemma pure_read_bind {A B} (c : M A) (k : A -> M B) :
  pure_read c -> (forall a, pure_read (k a)) -> pure_read (bind c k).
Proof.
  intros Hc Hk w. unfold bind. specialize (Hc w).
  destruct (c w) as [[a|msg] w1]; simpl in *; subst; [|reflexivity].
  apply Hk.
Qed.

(** Solves [keeps c] for a computation made of the primitives above. *)
Ltac frame_step :=
  match goal with
  | |- keeps (bind _ _) => apply keeps_bind; [|intros ?]
  | |- keeps (ret _) => apply keeps_ret
  | |- keeps (throw _) => apply keeps_throw
  | |- keeps (lift _) => apply keeps_lift
  | |- keeps get_quizzes => apply keeps_get_quizzes
  | |- keeps (draw_uuid _) => apply keeps_draw_uuid
  | |- keeps (read_clock _) => apply keeps_read_clock
  | |- keeps (match ?x with _ => _ end) => destruct x
  | |- keeps (if ?b then _ else _) => destruct b
  | |- keeps (let (_, _) := ?p in _) => destruct p
  | |- keeps _ => solve [auto with frame]
  end.

Ltac frame := repeat frame_step.

Create HintDb frame.

Lemma pure_read_getQuiz quizId : pure_read (getQuiz quizId).
Proof.
  intros w. unfold getQuiz, bind, lift, get_quizzes.
  destruct (validateQuizId quizId); simpl; [|reflexivity].
  now destruct (map_get (quizzes w) quizId).
Qed.

Lemma keeps_getQuiz quizId : keeps (getQuiz quizId).
Proof. apply pure_read_keeps, pure_read_getQuiz. Qed.
Hint Resolve keeps_getQuiz | 1 : frame.

Lemma pure_read_getQuizQuestions quizId : pure_read (getQuizQuestions quizId).
Proof.
  apply pure_read_bind; [apply pure_read_getQuiz|].
  intros quiz w. now destruct (length (questions quiz) =? 0)%nat.
Qed.

Lemma keeps_Question_addOption q text isCorrect_ :
  keeps (Question_addOption uuidv4 q text isCorrect_).
Proof. unfold Question_addOption. frame. Qed.
Hint Resolve keeps_Question_addOption | 1 : frame.

Lemma keeps_addOptionData s optionData index :
  keeps (addOptionData uuidv4 s optionData index).
Proof. unfold addOptionData. frame. Qed.

Lemma keeps_forEachM {A S} (f : S -> A -> nat -> M S) arr :
  (forall s x i, keeps (f s x i)) -> forall i s, keeps (forEachM f arr i s).
Proof.
  intros Hf. induction arr as [|x arr IH]; intros i s; simpl.
  - apply keeps_ret.
  - apply keeps_bind; [apply Hf | intros s'; apply IH].
Qed.

Lemma keeps_addOptionsToQuestion q options :
  keeps (addOptionsToQuestion uuidv4 q options).
Proof.
  unfold addOptionsToQuestion. destruct options; try apply keeps_throw.
  destruct (length items =? 0)%nat; [apply keeps_throw|].
  destruct (10 <? length items)%nat; [apply keeps_throw|].
  apply keeps_bind; [|intros ?; apply keeps_ret].
  apply keeps_forEachM. intros. apply keeps_addOptionData.
Qed.

Lemma keeps_Question_new text type :
  keeps (Question_new uuidv4 toISOString text type).
Proof. unfold Question_new. frame. Qed.

Lemma keeps_Quiz_new t : keeps (Quiz_new uuidv4 toISOString t).
Proof. unfold Quiz_new. frame. Qed.

Lemma keeps_Quiz_addQuestion quiz q :
  keeps (Quiz_addQuestion toISOString quiz q).
Proof. unfold Quiz_addQuestion. frame. Qed.

Lemma keeps_getQuizQuestions quizId : keeps (getQuizQuestions quizId).
Proof. apply pure_read_keeps, pure_read_getQuizQuestions. Qed.

Lemma keeps_getQuizCount : keeps getQuizCount.
Proof. unfold getQuizCount. frame. Qed.

Lemma keeps_submitQuizAnswers quizId answers :
  keeps (submitQuizAnswers toISOString quizId answers).
Proof. unfold submitQuizAnswers. frame. Qed.

End Frame.

Section Effects.
Import Js QuizService.
Variable uuidv4 : nat -> string.
Variable toISOString : nat -> string.

Lemma bind_run {A B} (c : M A) (k : A -> M B) w :
  bind c k w =
    match c w with
    | (Return a, w1) => k a w1
    | (Throw msg, w1) => (Throw msg, w1)
    end.
Proof. reflexivity. Qed.

(** [getQuiz] returns the entry under a string key. *)
Lemma getQuiz_Return quizId w quiz w' :
  getQuiz quizId w = (Return quiz, w') ->
  w' = w /\ exists k, quizId = VStr k /\ quizzes w !! k = Some quiz
                      /\ validateQuizId quizId = Return tt.
Proof.
  unfold getQuiz, bind, lift, get_quizzes.
  destruct (validateQuizId quizId) as [[]|] eqn:Ev; simpl; [|discriminate].
  destruct (map_get (quizzes w) quizId) as [quiz'|] eqn:E; simpl; [|discriminate].
  intros [= -> ->]. split; [reflexivity|].
  destruct quizId; simpl in E; try discriminate. eauto.
Qed.

Lemma getQuiz_lookup k w quiz :
  validateQuizId (VStr k) = Return tt ->
  quizzes w !! k = Some quiz ->
  getQuiz (VStr k) w = (Return quiz, w).
Proof.
  intros Hv Hk. unfold getQuiz, bind, lift, get_quizzes.
  rewrite Hv. simpl. now rewrite Hk.
Qed.

(** [createQuiz]: the map is as before, or holds a new quiz with no
    question, whose title is a trimmed string of 3 to 200 code units. *)
Lemma createQuiz_effect t w :
  quizzes (snd (createQuiz uuidv4 toISOString t w)) = quizzes w
  \/ exists s quiz,
       t = VStr s
       /\ 3 <= String.length (trim s) <= 200
       /\ title quiz = trim (trim s)
       /\ questions quiz = []
       /\ fst (createQuiz uuidv4 toISOString t w) = Return quiz
       /\ quizzes (snd (createQuiz uuidv4 toISOString t w))
          = <[quiz_id quiz := quiz]> (quizzes w).
Proof.
  unfold createQuiz. destruct t as [| |b|x|s|l|p]; try (now left).
  destruct (String.length (trim s) =? 0)%nat eqn:E0; [now left|].
  destruct (String.length (trim s) <? 3)%nat eqn:E1; [now left|].
  destruct (200 <? String.length (trim s))%nat eqn:E2; [now left|].
  right. apply Nat.ltb_ge in E1, E2.
  eexists s, _. split; [reflexivity|]. split; [lia|].
  cbn. repeat split; reflexivity.
Qed.

(** [addQuestion]: the map is as before, or the quiz under the key has
    one more question, at the end, and that question passed [validate]. *)
Lemma addQuestion_run quizId data w r w' :
  addQuestion uuidv4 toISOString quizId data w = (r, w') ->
  (is_Throw r = true /\ quizzes w' = quizzes w)
  \/ exists k quiz q updated,
       quizId = VStr k
       /\ quizzes w !! k = Some quiz
       /\ validateQuizId quizId = Return tt
       /\ QuestionModel.validate q = Return true
       /\ r = Return q
       /\ quizzes w'
          = <[k := {| quiz_id := quiz_id quiz; title := title quiz;
                      questions := questions quiz ++ [q];
                      createdAt := createdAt quiz; updatedAt := updated |}]>
              (quizzes w).
Proof.
  unfold addQuestion. rewrite bind_run.
  destruct (getQuiz quizId w) as [[quiz|msg] w1] eqn:E1.
  2:{ intros [= <- <-]. left. split; [reflexivity|].
      pose proof (keeps_getQuiz quizId w) as H. now rewrite E1 in H. }
  apply getQuiz_Return in E1 as (-> & k & -> & Hk & Hv).
  rewrite bind_run. unfold lift at 1.
  destruct (validateQuestionData data) as [[]|msg]; [|intros [= <- <-]; now left].
  rewrite bind_run.
  destruct (Question_new uuidv4 toISOString _ _ w) as [[q0|msg] w2] eqn:E2;
    pose proof (keeps_Question_new uuidv4 toISOString
                  (match get data "text" with VStr t => trim t | _ => "" end)
                  (get data "type") w) as K2;
    rewrite E2 in K2; simpl in K2; [|intros [= <- <-]; now left].
  rewrite bind_run.
  destruct (addOptionsToQuestion uuidv4 q0 (get data "options") w2)
    as [[q|msg] w3] eqn:E3;
    pose proof (keeps_addOptionsToQuestion uuidv4 q0 (get data "options") w2) as K3;
    rewrite E3 in K3; simpl in K3;
    [|intros [= <- <-]; left; split; [reflexivity | congruence]].
  rewrite bind_run. unfold lift at 1.
  destruct (QuestionModel.validate q) as [b|msg] eqn:E4;
    [|intros [= <- <-]; left; split; [reflexivity | congruence]].
  apply ValidationFacts.validate_returns in E4 as E4'. destruct E4' as [-> _].
  cbn. intros [= <- <-].
  right. exists k, quiz, q, (toISOString (clock_reads w3)).
  repeat split; try assumption. cbn. now rewrite K3, K2.
Qed.

Lemma addQuestion_effect quizId data w :
  quizzes (snd (addQuestion uuidv4 toISOString quizId data w)) = quizzes w
  \/ exists k quiz q updated,
       quizId = VStr k
       /\ quizzes w !! k = Some quiz
       /\ validateQuizId quizId = Return tt
       /\ QuestionModel.validate q = Return true
       /\ fst (addQuestion uuidv4 toISOString quizId data w) = Return q
       /\ quizzes (snd (addQuestion uuidv4 toISOString quizId data w))
          = <[k := {| quiz_id := quiz_id quiz; title := title quiz;
                      questions := questions quiz ++ [q];
                      createdAt := createdAt quiz; updatedAt := updated |}]>
              (quizzes w).
Proof.
  destruct (addQuestion uuidv4 toISOString quizId data w) as [r w'] eqn:E.
  apply addQuestion_run in E as [[_ E]|E]; [now left | now right].
Qed.

(** [deleteQuiz]: the map is as before, or without the key. *)
Lemma deleteQuiz_effect quizId w :
  quizzes (snd (deleteQuiz quizId w)) = quizzes w
  \/ exists k, quizId = VStr k
               /\ quizzes (snd (deleteQuiz quizId w)) = delete k (quizzes w).
Proof.
  unfold deleteQuiz. rewrite bind_run.
  destruct (getQuiz quizId w) as [[quiz|msg] w1] eqn:E1.
  2:{ left. pose proof (keeps_getQuiz quizId w) as H. now rewrite E1 in H. }
  apply getQuiz_Return in E1 as (-> & k & -> & Hk & Hv).
  right. exists k. split; reflexivity.
Qed.

(** [updateQuizTitle]: the map is as before, or the quiz under the key has
    a new title, a trimmed string of 1 to 200 code units. *)
Lemma updateQuizTitle_effect quizId newTitle w :
  quizzes (snd (updateQuizTitle toISOString quizId newTitle w)) = quizzes w
  \/ exists k quiz s updated,
       quizId = VStr k
       /\ quizzes w !! k = Some quiz
       /\ newTitle = VStr s
       /\ 1 <= String.length (trim s) <= 200
       /\ quizzes (snd (updateQuizTitle toISOString quizId newTitle w))
          = <[k := {| quiz_id := quiz_id quiz; title := trim s;
                      questions := questions quiz;
                      createdAt := createdAt quiz; updatedAt := updated |}]>
              (quizzes w).
Proof.
  unfold updateQuizTitle. rewrite bind_run.
  destruct (getQuiz quizId w) as [[quiz|msg] w1] eqn:E1.
  2:{ left. pose proof (keeps_getQuiz quizId w) as H. now rewrite E1 in H. }
  apply getQuiz_Return in E1 as (-> & k & -> & Hk & Hv).
  destruct newTitle as [| |b|x|s|l|p]; try (now left).
  destruct (s =? "") eqn:Es; [now left|].
  destruct (String.length (trim s) =? 0)%nat eqn:E0; [now left|].
  destruct (200 <? String.length (trim s))%nat eqn:E2; [now left|].
  right. apply Nat.eqb_neq in E0. apply Nat.ltb_ge in E2.
  exists k, quiz, s, (toISOString (clock_reads w)).
  repeat split; try assumption; try lia.
Qed.

Lemma run_change c w :
  quiz_change (quizzes w) (quizzes (run uuidv4 toISOString c w)).
Proof.
  destruct c; unfold run.
  - destruct (createQuiz_effect title_ w) as [->|(s & quiz & _ & H1 & H2 & H3 & _ & ->)].
    + constructor.
    + now apply change_create with s.
  - rewrite keeps_getQuiz. constructor.
  - destruct (addQuestion_effect quizId questionData w)
      as [->|(k & quiz & q & u & _ & H1 & _ & H2 & _ & ->)].
    + constructor.
    + now apply change_add.
  - rewrite keeps_getQuizQuestions. constructor.
  - rewrite keeps_submitQuizAnswers. constructor.
  - destruct (deleteQuiz_effect quizId w) as [->|(k & _ & ->)]; constructor.
  - exact (change_clear _).
  - rewrite keeps_getQuizCount. constructor.
  - destruct (updateQuizTitle_effect quizId newTitle w)
      as [->|(k & quiz & s & u & _ & H1 & _ & H2 & ->)].
    + constructor.
    + now apply change_title.
Qed.

(** An invariant of the stored quizzes: it holds in every reachable world
    when the three ways to set an entry keep it. *)
Lemma reachable_invariant (P : Quiz -> Prop) :
  (forall quiz s, 3 <= String.length (trim s) <= 200 ->
     title quiz = trim (trim s) -> questions quiz = [] -> P quiz) ->
  (forall quiz q updated, P quiz -> QuestionModel.validate q = Return true ->
     P {| quiz_id := quiz_id quiz; title := title quiz;
          questions := questions quiz ++ [q];
          createdAt := createdAt quiz; updatedAt := updated |}) ->
  (forall quiz s updated, P quiz -> 1 <= String.length (trim s) <= 200 ->
     P {| quiz_id := quiz_id quiz; title := trim s;
          questions := questions quiz;
          createdAt := createdAt quiz; updatedAt := updated |}) ->
  forall w, reachable uuidv4 toISOString w ->
  forall k quiz, quizzes w !! k = Some quiz -> P quiz.
Proof.
  intros Hcreate Hadd Htitle w Hw.
  induction Hw as [|c w Hw IH]; intros k quiz Hk.
  - simpl in Hk. rewrite lookup_empty in Hk. discriminate.
  - pose proof (run_change c w) as Hch.
    destruct Hch as [| |k0|quiz0 s H1 H2 H3|k0 quiz0 q u H1 H2|k0 quiz0 s u H1 H2].
    + now apply (IH k).
    + rewrite lookup_empty in Hk. discriminate.
    + destruct (decide (k0 = k)) as [->|Hne].
      * rewrite lookup_delete_eq in Hk. discriminate.
      * rewrite lookup_delete_ne in Hk by exact Hne. now apply (IH k).
    + destruct (decide (quiz_id quiz0 = k)) as [<-|Hne].
      * rewrite lookup_insert_eq in Hk. injection Hk as <-. now apply (Hcreate _ s).
      * rewrite lookup_insert_ne in Hk by exact Hne. now apply (IH k).
    + destruct (decide (k0 = k)) as [->|Hne].
      * rewrite lookup_insert_eq in Hk. injection Hk as <-.
        apply Hadd; [now apply (IH k) | exact H2].
      * rewrite lookup_insert_ne in Hk by exact Hne. now apply (IH k).
    + destruct (decide (k0 = k)) as [->|Hne].
      * rewrite lookup_insert_eq in Hk. injection Hk as <-.
        apply Htitle; [now apply (IH k) | exact H2].
      * rewrite lookup_insert_ne in Hk by exact Hne. now apply (IH k).
Qed.

End Effects.

(** ** The repository: frame and invariants *)

Section Repository.
Import Js JsFacts QuizService.

(** C10.  [submitQuizAnswers] never changes the repository: whether it
    returns or throws, the map of quizzes after the call is the map before
    it, so every quiz has the title, the questions with their options and
    the timestamps it had. *)
Theorem submitQuizAnswers_never_mutates
    (toISOString : nat -> string) (quizId answers : value) (w : World) :
  quizzes (snd (submitQuizAnswers toISOString quizId answers w)) = quizzes w
  /\ forall k quiz,
       quizzes w !! k = Some quiz ->
       exists quiz',
         quizzes (snd (submitQuizAnswers toISOString quizId answers w)) !! k = Some quiz'
         /\ title quiz' = title quiz
         /\ questions quiz' = questions quiz
         /\ createdAt quiz' = createdAt quiz
         /\ updatedAt quiz' = updatedAt quiz.
Proof.
  pose proof (keeps_submitQuizAnswers toISOString quizId answers w) as H.
  split; [exact H|].
  intros k quiz Hk. exists quiz. rewrite H. auto.
Qed.

(** The titles in a reachable world are trimmed and have 1 to 200 code
    units. *)
Lemma reachable_titles uuidv4 toISOString w :
  reachable uuidv4 toISOString w ->
  forall k quiz, quizzes w !! k = Some quiz ->
    trim (title quiz) = title quiz
    /\ 1 <= String.length (title quiz) <= 200.
Proof.
  apply reachable_invariant.
  - intros quiz s Hlen Ht _. rewrite Ht, !trim_idempotent. split; [reflexivity | lia].
  - intros quiz q u H _. exact H.
  - intros quiz s u _ Hlen. simpl. rewrite trim_idempotent. split; [reflexivity | lia].
Qed.

(** C5 fails on the code.  After [createQuiz('Math Quiz')] and
    [updateQuizTitle(id, 'ab')] the stored title has two code units, while
    [createQuiz('ab')] is refused for being shorter than three. *)
Theorem updateQuizTitle_accepts_short_title :
  reachable Scenario.uuids Scenario.clock Scenario.retitled
  /\ (exists quiz,
        quizzes Scenario.retitled !! "id-0" = Some quiz
        /\ title quiz = "ab"
        /\ String.length (title quiz) < 3)
  /\ fst (createQuiz Scenario.uuids Scenario.clock (VStr "ab") initial)
     = Throw [Lit "Quiz title must be at least 3 characters long"].
Proof.
  split; [|split].
  - unfold Scenario.retitled, Scenario.with_quiz.
    do 2 apply reachable_step. apply reachable_initial.
  - eexists. split; [vm_compute; reflexivity|]. split; [reflexivity | simpl; lia].
  - vm_compute. reflexivity.
Qed.

End Repository.

(** ** The answer-free projection *)

Module ProjectionFacts.
Import Js QuestionModel Projection.

Lemma strict_equal_true t s : strict_equal t (VStr s) = true -> t = VStr s.
Proof.
  destruct t; simpl; try discriminate. intros E.
  apply String.eqb_eq in E. now subst.
Qed.

Lemma validate_valid_type q b : validate q = Return b -> valid_type (q_type q).
Proof.
  unfold validate.
  destruct (throw_if _ _); simpl; [|discriminate].
  destruct (throw_if _ _); simpl; [|discriminate].
  destruct (throw_if _ _); simpl; [|discriminate].
  unfold validateByType, valid_type.
  destruct (strict_equal (q_type q) (VStr "single_choice")) eqn:E1;
    [left; now apply strict_equal_true|].
  destruct (strict_equal (q_type q) (VStr "multiple_choice")) eqn:E2;
    [right; left; now apply strict_equal_true|].
  destruct (strict_equal (q_type q) (VStr "text")) eqn:E3;
    [right; right; now apply strict_equal_true|].
  discriminate.
Qed.

Lemma getPublicView_public q :
  valid_type (q_type q) -> public_question (getPublicView q).
Proof.
  intros Hty. unfold public_question, getPublicView. split; [reflexivity|]. split.
  - eexists. split; [reflexivity|].
    apply List.Forall_forall. intros v Hv.
    apply in_map_iff in Hv as (o & <- & _). reflexivity.
  - cbn -[String.eqb].
    assert (E : mentions_key "isCorrect" (q_type q) = false)
      by (destruct Hty as [-> | [-> | ->]]; reflexivity).
    rewrite E.
    assert (E' : existsb (mentions_key "isCorrect")
                   (map (fun opt => VObj [("id", VStr (opt_id opt));
                                          ("text", VStr (opt_text opt))])
                      (q_options q)) = false).
    { induction (q_options q) as [|o l IH]; [reflexivity|]. simpl in *. exact IH. }
    rewrite E'. reflexivity.
Qed.

End ProjectionFacts.

Section ProjectionOfReachable.
Import Js QuestionModel Projection ProjectionFacts.
Variable uuidv4 : nat -> string.
Variable toISOString : nat -> string.

(** Every stored question passed [validate] when it was added. *)
Lemma reachable_questions_validated w :
  reachable uuidv4 toISOString w ->
  forall k quiz, quizzes w !! k = Some quiz ->
    Forall (fun q => validate q = Return true) (questions quiz).
Proof.
  apply reachable_invariant.
  - intros quiz s _ _ ->. constructor.
  - intros quiz q u H Hq. simpl. apply Forall_app. split; [exact H|].
    constructor; [exact Hq | constructor].
  - intros quiz s u H _. exact H.
Qed.

Lemma getQuizQuestions_public w quizId out w' :
  reachable uuidv4 toISOString w ->
  getQuizQuestions quizId w = (Return out, w') ->
  Forall public_question out.
Proof.
  intros Hw H. unfold getQuizQuestions in H. step_run H.
  apply getQuiz_Return in Hrun as (-> & k & -> & Hk & _).
  destruct (length (questions a) =? 0)%nat; [discriminate|].
  step_run H.
  pose proof (reachable_questions_validated w Hw k a Hk) as Hall.
  unfold QuizModel.getQuestionsWithoutAnswers.
  induction Hall as [|q l Hq _ IH]; simpl; constructor; [|exact IH].
  apply getPublicView_public. eapply validate_valid_type, Hq.
Qed.

(** C9.  In every world the service reaches, what [getQuizQuestions]
    returns are objects with exactly the fields id, text, type and options,
    whose options have exactly the fields id and text, and no [isCorrect]
    key occurs anywhere in them; and a question that [addQuestion] has just
    returned is read back so. *)
Theorem projection_never_exposes_isCorrect (w : World) :
  reachable uuidv4 toISOString w ->
  (forall quizId out w',
     getQuizQuestions quizId w = (Return out, w') ->
     Forall public_question out)
  /\ (forall quizId data q w1,
        addQuestion uuidv4 toISOString quizId data w = (Return q, w1) ->
        exists out,
          getQuizQuestions quizId w1 = (Return out, w1)
          /\ In (getPublicView q) out
          /\ Forall public_question out).
Proof.
  intros Hw. split.
  - intros quizId out w' H. now apply (getQuizQuestions_public w quizId out w').
  - intros quizId data q w1 H.
    assert (Hw1 : reachable uuidv4 toISOString w1).
    { replace w1 with (run uuidv4 toISOString (AddQuestion quizId data) w)
        by (simpl; now rewrite H).
      now apply reachable_step. }
    apply addQuestion_run in H as [[H _]|(k & quiz & q' & u & -> & Hk & Hv & Hq & E & Hm)];
      [discriminate|].
    injection E as <-.
    assert (Hget : getQuizQuestions (VStr k) w1 =
                   (Return (QuizModel.getQuestionsWithoutAnswers
                      {| quiz_id := quiz_id quiz; title := title quiz;
                         questions := questions quiz ++ [q];
                         createdAt := createdAt quiz; updatedAt := u |}), w1)).
    { unfold getQuizQuestions. rewrite bind_run.
      rewrite (getQuiz_lookup k w1 _ Hv) by (rewrite Hm; apply lookup_insert_eq).
      simpl. rewrite length_app. simpl.
      replace (length (questions quiz) + 1 =? 0)%nat with false; [reflexivity|].
      symmetry. apply Nat.eqb_neq. lia. }
    eexists. split; [exact Hget|]. split.
    + unfold QuizModel.getQuestionsWithoutAnswers. simpl.
      apply in_map, in_app_iff. right. now left.
    + eapply getQuizQuestions_public; [exact Hw1 | exact Hget].
Qed.

End ProjectionOfReachable.

(** In the world with the three questions [getQuizQuestions] returns the
    three projections, and the question that [addQuestion] then returns
    is read back among four. *)
Lemma projection_never_exposes_isCorrect_witness :
  (reachable Scenario.uuids Scenario.clock Scenario.with_questions
   /\ getQuizQuestions (Js.VStr "id-0") Scenario.with_questions
      = (Return Scenario.public_questions, Scenario.with_questions)
   /\ addQuestion Scenario.uuids Scenario.clock (Js.VStr "id-0") Scenario.even_data
        Scenario.with_questions
      = (Return Scenario.even_question, Scenario.with_four))
  /\ Forall Projection.public_question Scenario.public_questions
  /\ (exists out,
        getQuizQuestions (Js.VStr "id-0") Scenario.with_four
        = (Return out, Scenario.with_four)
        /\ In (QuestionModel.getPublicView Scenario.even_question) out
        /\ Forall Projection.public_question out).
Proof.
  assert (H : reachable Scenario.uuids Scenario.clock Scenario.with_questions).
  { unfold Scenario.with_questions, Scenario.with_quiz.
    do 4 apply reachable_step. apply reachable_initial. }
  assert (H1 : getQuizQuestions (Js.VStr "id-0") Scenario.with_questions
               = (Return Scenario.public_questions, Scenario.with_questions))
    by (vm_compute; reflexivity).
  assert (H2 : addQuestion Scenario.uuids Scenario.clock (Js.VStr "id-0")
                 Scenario.even_data Scenario.with_questions
               = (Return Scenario.even_question, Scenario.with_four))
    by (vm_compute; reflexivity).
  split; [auto|].
  split.
  - exact (proj1 (projection_never_exposes_isCorrect Scenario.uuids Scenario.clock
                    Scenario.with_questions H) _ _ _ H1).
  - exact (proj2 (projection_never_exposes_isCorrect Scenario.uuids Scenario.clock
                    Scenario.with_questions H) _ _ _ _ H2).
Defined.

(** ** The submission envelope *)

Module EnvelopeFacts.
Import Js JsFacts QuizService Envelope.

Lemma includes_questionIds quiz v :
  includes (questionIds quiz) v = true <->
  exists q, In q (questions quiz) /\ v = VStr (q_id q).
Proof.
  unfold includes, questionIds. rewrite existsb_exists. split.
  - intros (y & Hy & E). apply uniq_in, in_map_iff in Hy as (q & <- & Hq).
    apply sameValueZero_str_l in E. eauto.
  - intros (q & Hq & ->). exists (VStr (q_id q)). split.
    + apply uniq_str, in_map_iff. eauto.
    + now apply sameValueZero_str_l.
Qed.

Lemma entry_ok_str quiz e : entry_ok quiz e = true -> is_str (qid e).
Proof.
  unfold entry_ok. rewrite !andb_true_iff. intros ((((_ & H) & _) & _) & _).
  apply includes_questionIds in H as (q & _ & ->). now exists (q_id q).
Qed.

Lemma entry_ok_true quiz e :
  entry_ok quiz e = true ->
  ~ not_an_object e /\ ~ lacks_questionId e /\ ~ unknown_question quiz e
  /\ ~ lacks_selection e.
Proof.
  unfold entry_ok. rewrite !andb_true_iff, negb_true_iff.
  intros ((((((H1 & H2) & H3) & H4) & H5) & H6) & H7).
  apply String.eqb_eq in H2. apply includes_questionIds in H4.
  repeat split.
  - intros [H|H]; congruence.
  - unfold lacks_questionId. fold (qid e). congruence.
  - intros H. now apply H.
  - intros H. apply H.
    destruct (get e "selectedOptionIds") as [| | | | |items|]; try discriminate.
    exists items. split; [reflexivity|]. intros ->. discriminate.
Qed.

Lemma entry_ok_false quiz e :
  entry_ok quiz e = false ->
  (not_an_object e \/ lacks_questionId e \/ unknown_question quiz e)
  \/ lacks_selection e.
Proof.
  unfold entry_ok. intros H.
  destruct (truthy e) eqn:H1; [|left; left; now left].
  destruct (typeof e =? "object") eqn:H2.
  2:{ left; left; right. intros E. apply String.eqb_neq in H2. contradiction. }
  destruct (truthy (qid e)) eqn:H3; [|left; right; now left].
  destruct (includes (questionIds quiz) (qid e)) eqn:H4.
  2:{ left; right; right. intros Hq. apply includes_questionIds in Hq.
      unfold qid in H4. congruence. }
  right. intros (items & E & Hne). rewrite E in H. simpl in H.
  destruct items; [contradiction | discriminate].
Qed.

(** [validateAnswer] returns exactly on an entry that passes the checks
    and whose question is not yet answered; then it records the id. *)
Lemma validateAnswer_cases quiz answered e index :
  match validateAnswer (questionIds quiz) answered e index with
  | Return answered' =>
      entry_ok quiz e = true /\ includes answered (qid e) = false
      /\ answered' = set_add answered (qid e)
  | Throw msg =>
      ValidationError msg
      /\ (entry_ok quiz e = false \/ includes answered (qid e) = true)
  end.
Proof.
  unfold validateAnswer, entry_ok, qid, throw_if, ValidationError.
  destruct (truthy e); simpl; [|split; [discriminate | now left]].
  destruct (typeof e =? "object"); simpl; [|split; [discriminate | now left]].
  destruct (truthy (get e "questionId")); simpl; [|split; [discriminate | now left]].
  destruct (includes (questionIds quiz) (get e "questionId")); simpl;
    [|split; [discriminate | now left]].
  destruct (includes answered (get e "questionId")); simpl;
    [split; [discriminate | now right]|].
  destruct (truthy (get e "selectedOptionIds")); simpl;
    [|split; [discriminate | now left]].
  destruct (isArray (get e "selectedOptionIds")); simpl;
    [|split; [discriminate | now left]].
  destruct (array_length (get e "selectedOptionIds") =? 0)%nat; simpl;
    [split; [discriminate | now left]|].
  auto.
Qed.

(** The loop over the entries, started after the entries [done]. *)
Lemma forEach_validateAnswer quiz : forall rest done index,
  Forall (fun e => entry_ok quiz e = true) done ->
  NoDup (map qid done) ->
  match forEach (validateAnswer (questionIds quiz)) rest index (map qid done) with
  | Return _ =>
      Forall (fun e => entry_ok quiz e = true) rest
      /\ NoDup (map qid (done ++ rest))
  | Throw msg =>
      ValidationError msg
      /\ ((exists e, In e rest /\ entry_ok quiz e = false)
          \/ same_question_twice (done ++ rest))
  end.
Proof.
  induction rest as [|e rest IH]; intros done index Hdone Hnd; simpl.
  - rewrite app_nil_r. split; [constructor | exact Hnd].
  - pose proof (validateAnswer_cases quiz (map qid done) e index) as Hc.
    destruct (validateAnswer (questionIds quiz) (map qid done) e index)
      as [answered'|msg]; simpl.
    + destruct Hc as (Hok & Hinc & ->).
      destruct (entry_ok_str quiz e Hok) as (s & Hs).
      assert (Hnew : ~ In (qid e) (map qid done)).
      { rewrite Hs. intros Hin. apply includes_str in Hin. congruence. }
      assert (Eadd : set_add (map qid done) (qid e) = map qid (done ++ [e])).
      { unfold set_add. rewrite Hinc, map_app. reflexivity. }
      rewrite Eadd.
      assert (Hdone' : Forall (fun e => entry_ok quiz e = true) (done ++ [e])).
      { apply Forall_app. split; [exact Hdone | now constructor]. }
      assert (Hnd' : NoDup (map qid (done ++ [e]))).
      { rewrite map_app. apply NoDup_app. repeat split; [exact Hnd | |].
        - intros x Hx Hx'. apply list_elem_of_In in Hx, Hx'.
          destruct Hx' as [<-|[]]. contradiction.
        - apply NoDup_cons. split; [apply not_elem_of_nil | apply NoDup_nil_2]. }
      specialize (IH (done ++ [e]) (S index) Hdone' Hnd').
      rewrite <- app_assoc in IH. simpl in IH.
      destruct (forEach _ rest (S index) _) as [a|msg].
      * destruct IH as [H1 H2]. split; [now constructor | exact H2].
      * destruct IH as [H1 [(e' & He' & Hbad)|H2]]; (split; [exact H1|]).
        -- left. exists e'. split; [now right | exact Hbad].
        -- now right.
    + destruct Hc as (Hv & [Hbad|Hdup]); (split; [exact Hv|]).
      * left. exists e. split; [now left | exact Hbad].
      * right. apply existsb_exists in Hdup as (y & Hy & E).
        apply in_map_iff in Hy as (e' & <- & He').
        assert (Hsame : qid e' = qid e).
        { assert (Hok' : entry_ok quiz e' = true)
            by (apply (proj1 (List.Forall_forall _ _) Hdone e' He')).
          destruct (entry_ok_str quiz e' Hok') as (s & Hs).
          rewrite Hs in E |- *. apply sameValueZero_str_l in E. now symmetry. }
        apply list_elem_of_In, list_elem_of_lookup in He' as (i & Hi).
        exists i, (length done), e', e. repeat split.
        -- now apply lookup_lt_Some in Hi.
        -- now apply lookup_app_l_Some.
        -- rewrite lookup_app_r by lia. now rewrite Nat.sub_diag.
        -- exact Hsame.
Qed.

Lemma NoDup_no_repetition (entries : list value) :
  NoDup (map qid entries) -> ~ same_question_twice entries.
Proof.
  intros Hnd (i & j & e1 & e2 & Hlt & H1 & H2 & E).
  assert (Hi : map qid entries !! i = Some (qid e1))
    by (rewrite list_lookup_fmap, H1; reflexivity).
  assert (Hj : map qid entries !! j = Some (qid e1))
    by (rewrite list_lookup_fmap, H2; simpl; unfold qid; now rewrite E).
  pose proof (proj1 (NoDup_alt _) Hnd i j _ Hi Hj). lia.
Qed.

End EnvelopeFacts.

Section EnvelopeCheck.
Import Js JsFacts QuizService Envelope EnvelopeFacts.

(** The outcome of the envelope check against the violations. *)
Lemma validateAnswersFormat_outcome answers quiz :
  match validateAnswersFormat answers quiz with
  | Return _ => ~ envelope_violation answers quiz
  | Throw msg => ValidationError msg /\ envelope_violation answers quiz
  end.
Proof.
  destruct answers as [| |b|x|s|entries|p];
    try (split; [discriminate | now left]).
  unfold validateAnswersFormat, throw_if.
  destruct (length entries =? 0)%nat eqn:E0; simpl.
  { split; [discriminate|]. right. exists entries. split; [reflexivity|]. left.
    now apply EvaluationFacts.length_zero_nil. }
  destruct (length (questions quiz) <? length entries)%nat eqn:E1; simpl.
  { split; [discriminate|]. right. exists entries. split; [reflexivity|].
    right; left. now apply Nat.ltb_lt. }
  pose proof (forEach_validateAnswer quiz entries [] 0
                (List.Forall_nil _) NoDup_nil_2) as H.
  simpl in H. fold (questionIds quiz).
  destruct (forEach (validateAnswer (questionIds quiz)) entries 0 []) as [a|msg]; simpl.
  - destruct H as [Hok Hnd]. intros [Hv|(entries' & [= <-] & Hv)]; [discriminate|].
    destruct Hv as [->|[Hlen|[(e & He & Hbad)|[Hdup|(e & He & Hbad)]]]].
    + discriminate.
    + apply Nat.ltb_ge in E1. lia.
    + pose proof (proj1 (List.Forall_forall _ _) Hok e He) as Hoke.
      apply entry_ok_true in Hoke. tauto.
    + now apply NoDup_no_repetition in Hnd.
    + pose proof (proj1 (List.Forall_forall _ _) Hok e He) as Hoke.
      apply entry_ok_true in Hoke. tauto.
  - destruct H as [Hv H]. split; [exact Hv|].
    right. exists entries. split; [reflexivity|]. right; right.
    destruct H as [(e & He & Hbad)|Hdup].
    + apply entry_ok_false in Hbad as [Hbad|Hbad].
      * left. eauto.
      * right; right. eauto.
    + right; now left.
Qed.

(** C6.  For a quiz with a question, the envelope check throws, a
    ValidationError, exactly when the payload is no sequence, is empty, has
    more entries than the quiz has questions, has an entry that is no
    object, lacks questionId or names no question of the quiz, names a
    question twice, or has an entry without a non-empty sequence of
    selectedOptionIds; otherwise it returns.  The empty sequence is
    answered with 'At least one answer must be provided', and the error of
    the check is the error of [submitQuizAnswers]. *)
Theorem envelope_check_fails_iff_violation (answers : value) (quiz : Quiz) :
  questions quiz <> [] ->
  ((exists msg, validateAnswersFormat answers quiz = Throw msg /\ ValidationError msg)
     <-> envelope_violation answers quiz)
  /\ (validateAnswersFormat answers quiz = Return tt
        <-> ~ envelope_violation answers quiz)
  /\ (answers = VArr [] ->
      validateAnswersFormat answers quiz
        = Throw [Lit "At least one answer must be provided"])
  /\ (forall toISOString w k msg,
        k <> "" -> quizzes w !! k = Some quiz ->
        validateAnswersFormat answers quiz = Throw msg ->
        fst (submitQuizAnswers toISOString (VStr k) answers w) = Throw msg).
Proof.
  intros Hq. pose proof (validateAnswersFormat_outcome answers quiz) as H.
  split; [|split; [|split]].
  - split.
    + intros (msg & E & _). rewrite E in H. apply H.
    + intros Hv. destruct (validateAnswersFormat answers quiz) as [[]|msg].
      * contradiction.
      * exists msg. split; [reflexivity | apply H].
  - split.
    + intros E. now rewrite E in H.
    + intros Hv. destruct (validateAnswersFormat answers quiz) as [[]|msg].
      * reflexivity.
      * destruct H as [_ H]. contradiction.
  - intros ->. reflexivity.
  - intros toISOString w k msg Hk Hlook E.
    unfold submitQuizAnswers. rewrite bind_run.
    assert (Hid : validateQuizId (VStr k) = Return tt).
    { unfold validateQuizId. simpl.
      apply String.eqb_neq in Hk. now rewrite Hk. }
    rewrite (getQuiz_lookup k w quiz Hid Hlook).
    assert (Hlen : (length (questions quiz) =? 0)%nat = false).
    { apply not_true_is_false. intros El.
      now apply EvaluationFacts.length_zero_nil in El. }
    rewrite bind_run. unfold lift at 1, throw_if. rewrite Hlen.
    rewrite bind_run. unfold lift at 1. now rewrite E.
Qed.

Lemma envelope_check_fails_iff_violation_witness :
  questions Scenario.primes_quiz <> []
  /\ (((exists msg,
          validateAnswersFormat Scenario.twice Scenario.primes_quiz = Throw msg
          /\ ValidationError msg)
         <-> envelope_violation Scenario.twice Scenario.primes_quiz)
      /\ (validateAnswersFormat Scenario.twice Scenario.primes_quiz = Return tt
            <-> ~ envelope_violation Scenario.twice Scenario.primes_quiz)
      /\ (Scenario.twice = VArr [] ->
          validateAnswersFormat Scenario.twice Scenario.primes_quiz
            = Throw [Lit "At least one answer must be provided"])
      /\ (forall toISOString w k msg,
            k <> "" -> quizzes w !! k = Some Scenario.primes_quiz ->
            validateAnswersFormat Scenario.twice Scenario.primes_quiz = Throw msg ->
            fst (submitQuizAnswers toISOString (VStr k) Scenario.twice w) = Throw msg)).
Proof.
  assert (H : questions Scenario.primes_quiz <> []) by discriminate.
  split; [exact H|].
  exact (envelope_check_fails_iff_violation Scenario.twice Scenario.primes_quiz H).
Defined.

End EnvelopeCheck.

(** ** Binary64 arithmetic of the percentage *)

Module Binary64Facts.
Import Binary64.
Local Open Scope Z_scope.

(** The number of binary digits. *)
Lemma digits2_pos_size p : digits2_pos p = Pos.size p.
Proof. induction p; simpl; congruence. Qed.

Lemma digits_gt p : Zpos p < 2 ^ Zpos (digits2_pos p).
Proof.
  rewrite digits2_pos_size. pose proof (Pos.size_gt p) as H.
  apply Pos2Z.pos_lt_pos in H. now rewrite Pos2Z.inj_pow in H.
Qed.

Lemma digits_le p : 2 ^ Zpos (digits2_pos p) <= 2 * Zpos p.
Proof.
  rewrite digits2_pos_size. pose proof (Pos.size_le p) as H.
  apply Pos2Z.pos_le_pos in H. now rewrite Pos2Z.inj_pow in H.
Qed.

(** A mantissa below [c * 2^j] has at most [j] digits more than [c]. *)
Lemma digits_bound p c j :
  0 <= j -> Zpos p <= Zpos c * 2 ^ j ->
  Zpos (digits2_pos p) <= Zpos (digits2_pos c) + j.
Proof.
  intros Hj H.
  pose proof (digits_le p) as Hp. pose proof (digits_gt c) as Hc.
  assert (Hlt : 2 ^ Zpos (digits2_pos p) < 2 ^ (Zpos (digits2_pos c) + j + 1)).
  { rewrite !Z.pow_add_r by lia. 
    assert (0 < 2 ^ j) by (apply Z.pow_pos_nonneg; lia). nia. }
  apply Z.pow_lt_mono_r_iff in Hlt; lia.
Qed.

(** *** Rounding never exceeds a representable bound

    The bound is [c * 2^k], with [c] of at most 53 digits and [k] an
    exponent of the format. *)
Section Bound.
Variables (c : positive) (k : Z).
Hypothesis Hc : Zpos (digits2_pos c) <= prec.
Hypothesis Hk : emin prec emax <= k <= emax - prec.

Lemma pow2_step e : e + 1 <= k -> 2 ^ (k - e) = 2 * 2 ^ (k - (e + 1)).
Proof.
  intros H. replace (k - e) with (Z.succ (k - (e + 1))) by lia.
  apply Z.pow_succ_r. lia.
Qed.

Lemma shr_1_under mrs e :
  under c k mrs e -> e + 1 <= k -> under c k (shr_1 mrs) (e + 1).
Proof.
  intros (He & Hm & Hb) H1. rewrite (pow2_step e H1) in Hb.
  assert (Hpos : 0 < 2 ^ (k - (e + 1))) by (apply Z.pow_pos_nonneg; lia).
  destruct mrs as [m r s]. simpl in *.
  destruct m as [|[p|p|]|p]; try lia;
    destruct r, s; unfold under; simpl in *; repeat split; lia.
Qed.

Lemma iter_pos_under p : forall mrs e,
  under c k mrs e -> e + Zpos p <= k ->
  under c k (SpecFloat.iter_pos shr_1 p mrs) (e + Zpos p).
Proof.
  induction p as [p IH|p IH|]; intros mrs e H Hle; simpl.
  - replace (e + Zpos p~1) with (e + 1 + Zpos p + Zpos p) by lia.
    apply IH; [apply IH; [apply shr_1_under|]|]; try assumption; lia.
  - replace (e + Zpos p~0) with (e + Zpos p + Zpos p) by lia.
    apply IH; [apply IH|]; try assumption; lia.
  - now apply shr_1_under.
Qed.

Lemma shr_under mrs e n :
  under c k mrs e -> (0 < n -> e + n <= k) ->
  under c k (fst (shr mrs e n)) (snd (shr mrs e n)).
Proof.
  intros H Hn. destruct n as [|p|p]; simpl; try exact H.
  apply iter_pos_under; [exact H | apply Hn; lia].
Qed.

Lemma shr_fexp_under m e l :
  under c k (shr_record_of_loc m l) e ->
  under c k (fst (shr_fexp prec emax m e l)) (snd (shr_fexp prec emax m e l)).
Proof.
  intros H. unfold shr_fexp. apply shr_under; [exact H|].
  intros _. destruct H as (He & Hm & Hb).
  assert (Hm' : shr_m (shr_record_of_loc m l) = m)
    by (destruct l as [|[]]; reflexivity).
  rewrite Hm' in *.
  assert (Hle : m <= Zpos c * 2 ^ (k - e))
    by (destruct (shr_r _ || shr_s _); lia).
  unfold fexp, emin, prec, emax in *.
  destruct m as [|p|p]; simpl Zdigits2; [lia| |lia].
  pose proof (digits_bound p c (k - e) ltac:(lia) Hle). lia.
Qed.

Lemma round_nearest_even_under mrs e :
  under c k mrs e ->
  under c k (shr_record_of_loc
           (round_nearest_even (shr_m mrs) (loc_of_shr_record mrs)) loc_Exact) e.
Proof.
  intros (He & Hm & Hb). destruct mrs as [m r s]. simpl in *.
  destruct r, s; unfold under; simpl in *; repeat split; try lia;
    destruct (Z.even m); lia.
Qed.

Lemma binary_round_aux_below mx ex lx :
  under c k (shr_record_of_loc mx lx) ex ->
  below c k (binary_round_aux prec emax false mx ex lx).
Proof.
  intros H. unfold binary_round_aux.
  apply shr_fexp_under in H.
  destruct (shr_fexp prec emax mx ex lx) as [mrs1 e1]. simpl in H.
  apply round_nearest_even_under, shr_fexp_under in H.
  destruct (shr_fexp prec emax _ e1 loc_Exact) as [mrs2 e2]. simpl in H.
  destruct H as (He & Hm & Hb).
  destruct (shr_m mrs2) as [|m|m] eqn:E; simpl; [exact I| |lia].
  replace (e2 <=? emax - prec) with true by (symmetry; apply Z.leb_le; lia).
  simpl. split; [exact He|]. destruct (shr_r mrs2 || shr_s mrs2); lia.
Qed.

End Bound.

(** *** The number of an integer below 2^53 *)

Lemma iter_xO_value p n : Zpos (Pos.iter xO p n) = Zpos p * 2 ^ Zpos n.
Proof.
  induction n as [|n IH] using Pos.peano_ind.
  - simpl. lia.
  - rewrite Pos.iter_succ, Pos2Z.inj_xO, IH, Pos2Z.inj_succ, Z.pow_succ_r by lia.
    lia.
Qed.

Lemma iter_xO_digits p n :
  Zpos (digits2_pos (Pos.iter xO p n)) = Zpos (digits2_pos p) + Zpos n.
Proof.
  induction n as [|n IH] using Pos.peano_ind.
  - simpl. lia.
  - rewrite Pos.iter_succ. simpl digits2_pos. lia.
Qed.

Lemma shr_fexp_canonical m e l :
  Zpos (digits2_pos m) = prec -> emin prec emax <= e ->
  shr_fexp prec emax (Zpos m) e l = (shr_record_of_loc (Zpos m) l, e).
Proof.
  intros Hd He. unfold shr_fexp. simpl Zdigits2. rewrite Hd.
  replace (fexp prec emax (prec + e) - e) with 0; [reflexivity|].
  unfold fexp, emin, prec, emax in *. lia.
Qed.

(** A mantissa of 53 digits with an exponent of the format is kept. *)
Lemma binary_round_aux_canonical sx m e :
  Zpos (digits2_pos m) = prec -> emin prec emax <= e <= emax - prec ->
  binary_round_aux prec emax sx (Zpos m) e loc_Exact = S754_finite sx m e.
Proof.
  intros Hd He. unfold binary_round_aux.
  rewrite shr_fexp_canonical by (try assumption; lia). simpl.
  rewrite shr_fexp_canonical by (try assumption; lia). simpl.
  replace (e <=? emax - prec) with true by (symmetry; apply Z.leb_le; lia).
  reflexivity.
Qed.

(** The binary64 number of a positive integer below 2^53: a mantissa of
    53 digits, and no rounding. *)
Lemma of_Z_exact n :
  0 < n < 2 ^ 53 ->
  exists m e,
    of_Z n = S754_finite false m e
    /\ Zpos (digits2_pos m) = prec
    /\ -52 <= e <= 0
    /\ Zpos m = n * 2 ^ (- e).
Proof.
  intros [Hpos Hlt]. destruct n as [|p|p]; try lia.
  pose proof (digits_le p) as Hd. pose proof (digits_gt p) as Hd'.
  assert (Hd53 : Zpos (digits2_pos p) <= 53).
  { assert (H : 2 ^ Zpos (digits2_pos p) < 2 ^ 54) by (change (2 ^ 54) with (2 * 2 ^ 53); lia).
    apply Z.pow_lt_mono_r_iff in H; lia. }
  unfold of_Z, binary_normalize, binary_round, shl_align.
  replace (fexp prec emax (Zpos (digits2_pos p) + 0) - 0)
    with (Zpos (digits2_pos p) - 53)
    by (unfold fexp, emin, prec, emax; lia).
  replace (fexp prec emax (Zpos (digits2_pos p) + 0))
    with (Zpos (digits2_pos p) - 53)
    by (unfold fexp, emin, prec, emax; lia).
  destruct (Zpos (digits2_pos p) - 53) as [|d|d] eqn:Ed; try lia.
  - exists p, 0. rewrite binary_round_aux_canonical;
      unfold emin, prec, emax; try lia.
    repeat split; try lia.
  - assert (Hdig : Zpos (digits2_pos (Pos.iter xO p d)) = prec)
      by (rewrite iter_xO_digits; unfold prec; lia).
    exists (Pos.iter xO p d), (Zneg d).
    rewrite binary_round_aux_canonical; try assumption;
      [|unfold emin, prec, emax; lia].
    repeat split; try lia; try assumption.
    rewrite iter_xO_value. reflexivity.
Qed.

(** *** A quotient of integers, a product with 100, and [Math.round] *)

Lemma new_location_cases nb r :
  (r = 0 /\ new_location nb r = loc_Exact)
  \/ (r <> 0 /\ exists c, new_location nb r = loc_Inexact c).
Proof.
  unfold new_location, new_location_even, new_location_odd.
  destruct r as [|p|p].
  - left. split; [reflexivity|]. now destruct (Z.even nb).
  - right. split; [discriminate|]. destruct (Z.even nb); simpl; eauto.
  - right. split; [discriminate|]. destruct (Z.even nb); simpl; eauto.
Qed.

(** [s / t] for integers [0 < s <= t < 2^53] is at most 1. *)
Lemma div_below s t :
  0 < s <= t -> t < 2 ^ 53 ->
  below 1 0 (div (of_Z s) (of_Z t)).
Proof.
  intros Hs Ht.
  destruct (of_Z_exact s ltac:(lia)) as (ms & es & -> & Hds & Hes & Hms).
  destruct (of_Z_exact t ltac:(lia)) as (mt & et & -> & Hdt & Het & Hmt).
  unfold div, SFdiv, SFdiv_core_binary. simpl Zdigits2. rewrite Hds, Hdt.
  replace (Z.min (fexp prec emax (prec + es - (prec + et))) (es - et))
    with (es - et - 53)
    by (unfold fexp, emin, prec, emax; lia).
  replace (es - et - (es - et - 53)) with 53 by lia.
  rewrite Z.shiftl_mul_pow2 by lia.
  pose proof (Z_div_mod (Zpos ms * 2 ^ 53) (Zpos mt) ltac:(lia)) as Hdiv.
  destruct (Z.div_eucl (Zpos ms * 2 ^ 53) (Zpos mt)) as [q r].
  destruct Hdiv as [Hq Hr].
  apply binary_round_aux_below; unfold emin, prec, emax; simpl; try lia.
  assert (Hpow : 2 ^ (- es) * 2 ^ 53 = 2 ^ (- et) * 2 ^ (0 - (es - et - 53))).
  { rewrite <- !Z.pow_add_r by lia. f_equal. lia. }
  assert (Hb : Zpos ms * 2 ^ 53 <= Zpos mt * 2 ^ (0 - (es - et - 53))).
  { rewrite Hms, Hmt, <- !Z.mul_assoc, Hpow.
    rewrite !Z.mul_assoc. apply Z.mul_le_mono_nonneg_r; [|nia].
    apply Z.pow_nonneg; lia. }
  assert (Hq0 : 0 <= q) by nia.
  unfold under.
  destruct (new_location_cases (Zpos mt) r) as [[-> ->]|[Hne [c ->]]].
  - simpl. repeat split; [lia | exact Hq0 | nia].
  - assert (Hlt : q + 1 <= 2 ^ (0 - (es - et - 53))) by nia.
    destruct c; simpl; repeat split; lia.
Qed.

Lemma of_Z_100 : of_Z 100 = S754_finite false 7036874417766400 (-46).
Proof. reflexivity. Qed.

(** A number of at most 1, times 100, is at most 100 = 25 * 2^2. *)
Lemma mul_100_below x : below 1 0 x -> below 25 2 (mul x (of_Z 100)).
Proof.
  rewrite of_Z_100. destruct x as [sx|sx| |sx m e]; simpl; try easy.
  destruct sx; [easy|]. intros [He Hm].
  unfold mul, SFmul. simpl xorb.
  apply binary_round_aux_below; unfold emin, prec, emax; simpl; try lia.
  unfold under. simpl. split; [lia|]. split; [lia|].
  replace (2 - (e + -46)) with (48 + (0 - e)) by lia.
  rewrite Z.pow_add_r by lia. change (2 ^ 48) with 281474976710656.
  rewrite Pos2Z.inj_mul. nia.
Qed.

(** [Math.round] of a number between 0 and 100 is between 0 and 100. *)
Lemma Math_round_below x : below 25 2 x -> 0 <= Math_round x <= 100.
Proof.
  destruct x as [sx|sx| |sx m e]; simpl; try easy; try lia.
  destruct sx; [easy|]. intros [He Hm]. simpl cond_Zopp.
  destruct (0 <=? e) eqn:E.
  - apply Z.leb_le in E.
    assert (H : 2 ^ (2 - e) * 2 ^ e = 4).
    { rewrite <- Z.pow_add_r by lia. now replace (2 - e + e) with 2 by lia. }
    assert (0 < 2 ^ e) by (apply Z.pow_pos_nonneg; lia). nia.
  - apply Z.leb_gt in E.
    assert (Hp : 0 < 2 ^ (- e)) by (apply Z.pow_pos_nonneg; lia).
    replace (2 ^ (1 - e)) with (2 * 2 ^ (- e))
      by (replace (1 - e) with (Z.succ (- e)) by lia; rewrite Z.pow_succ_r; lia).
    replace (2 ^ (2 - e)) with (4 * 2 ^ (- e)) in Hm
      by (replace (2 - e) with (2 + - e) by lia; rewrite Z.pow_add_r; lia).
    split.
    + apply Z.div_pos; lia.
    + apply Z.lt_succ_r. apply Z.div_lt_upper_bound; lia.
Qed.

Lemma below_finite c k x : below c k x -> is_finite x = true.
Proof. destruct x as [sx|sx| |[] m e]; simpl; easy. Qed.

(** The argument of [Math.round] in [calculateStatistics]. *)
Lemma ratio_times_100_below s t :
  0 <= s <= t -> 0 < t < 2 ^ 53 ->
  below 25 2 (mul (div (of_Z s) (of_Z t)) (of_Z 100)).
Proof.
  intros Hs Ht. apply mul_100_below.
  destruct (Z.eq_dec s 0) as [->|Hne].
  - destruct (of_Z_exact t Ht) as (mt & et & -> & _). exact I.
  - apply div_below; lia.
Qed.

(** Between 0 and the number of questions correct answers, the
    percentage is computed from a finite number and lies in [0, 100]. *)
Lemma percentage_argument_finite s t :
  0 <= s <= t -> 0 < t < 2 ^ 53 ->
  is_finite (mul (div (of_Z s) (of_Z t)) (of_Z 100)) = true.
Proof. intros Hs Ht. eapply below_finite, ratio_times_100_below; eassumption. Qed.

Lemma percentage_range s t :
  0 <= s <= t -> 0 < t < 2 ^ 53 ->
  0 <= Math_round (mul (div (of_Z s) (of_Z t)) (of_Z 100)) <= 100.
Proof. intros Hs Ht. now apply Math_round_below, ratio_times_100_below. Qed.

(** *** Rounding stays within one unit of the last place *)

Section Enclosure.
Variables (A B : Z).
Hypothesis HA : 0 <= A.
Hypothesis HB : 0 < B.

Lemma pow2_neg_step e : e + 1 <= 0 -> 2 ^ (- e) = 2 * 2 ^ (- (e + 1)).
Proof.
  intros H. replace (- e) with (Z.succ (- (e + 1))) by lia.
  apply Z.pow_succ_r. lia.
Qed.

Lemma shr_1_encloses mrs e :
  encloses A B mrs e -> e + 1 <= 0 -> encloses A B (shr_1 mrs) (e + 1).
Proof.
  intros (He & Hm & Hlo & Hhi) H1. rewrite (pow2_neg_step e H1) in Hlo, Hhi.
  set (Y := A * 2 ^ (- (e + 1))) in *.
  assert (HY : A * (2 * 2 ^ (- (e + 1))) = 2 * Y) by (unfold Y; ring).
  rewrite HY in Hlo, Hhi. clear HY.
  destruct mrs as [m r s]. unfold encloses, excess in *. simpl in *.
  fold Y.
  destruct m as [|[p|p|]|p]; try lia;
    destruct r, s; simpl in *; repeat split; try lia.
Qed.

Lemma iter_pos_encloses p : forall mrs e,
  encloses A B mrs e -> e + Zpos p <= 0 ->
  encloses A B (SpecFloat.iter_pos shr_1 p mrs) (e + Zpos p).
Proof.
  induction p as [p IH|p IH|]; intros mrs e H Hle; simpl.
  - replace (e + Zpos p~1) with (e + 1 + Zpos p + Zpos p) by lia.
    apply IH; [apply IH; [apply shr_1_encloses|]|]; try assumption; lia.
  - replace (e + Zpos p~0) with (e + Zpos p + Zpos p) by lia.
    apply IH; [apply IH|]; try assumption; lia.
  - now apply shr_1_encloses.
Qed.

Lemma shr_encloses mrs e n :
  encloses A B mrs e -> snd (shr mrs e n) <= 0 ->
  encloses A B (fst (shr mrs e n)) (snd (shr mrs e n)).
Proof.
  intros H Hn. destruct n as [|p|p]; simpl in *; try exact H.
  now apply iter_pos_encloses.
Qed.

Lemma round_nearest_even_near mrs e :
  encloses A B mrs e ->
  near A B (round_nearest_even (shr_m mrs) (loc_of_shr_record mrs)) e.
Proof.
  intros (He & Hm & Hlo & Hhi). destruct mrs as [m r s].
  unfold near, excess in *. simpl in *.
  destruct r, s; simpl in *; try destruct (Z.even m); repeat split; lia.
Qed.

(** Dropping digits keeps the mantissa within one unit of the last
    place. *)
Lemma shr_1_near mrs e :
  near A B (shr_m mrs) e -> e + 1 <= 0 ->
  near A B (shr_m (shr_1 mrs)) (e + 1).
Proof.
  intros (He & Hm & Hd) H1. rewrite (pow2_neg_step e H1) in Hd.
  set (Y := A * 2 ^ (- (e + 1))) in *.
  assert (HY : A * (2 * 2 ^ (- (e + 1))) = 2 * Y) by (unfold Y; ring).
  rewrite HY in Hd. clear HY.
  destruct mrs as [m r s]. unfold near in *. simpl in *. fold Y.
  destruct m as [|[p|p|]|p]; try lia; simpl; repeat split; lia.
Qed.

Lemma iter_pos_near p : forall mrs e,
  near A B (shr_m mrs) e -> e + Zpos p <= 0 ->
  near A B (shr_m (SpecFloat.iter_pos shr_1 p mrs)) (e + Zpos p).
Proof.
  induction p as [p IH|p IH|]; intros mrs e H Hle; simpl.
  - replace (e + Zpos p~1) with (e + 1 + Zpos p + Zpos p) by lia.
    apply IH; [apply IH; [apply shr_1_near|]|]; try assumption; lia.
  - replace (e + Zpos p~0) with (e + Zpos p + Zpos p) by lia.
    apply IH; [apply IH|]; try assumption; lia.
  - now apply shr_1_near.
Qed.

Lemma shr_near mrs e n :
  near A B (shr_m mrs) e -> snd (shr mrs e n) <= 0 ->
  near A B (shr_m (fst (shr mrs e n))) (snd (shr mrs e n)).
Proof.
  intros H Hn. destruct n as [|p|p]; simpl in *; try exact H.
  now apply iter_pos_near.
Qed.

(** Rounding a number that a record encloses gives a number close to
    it, with an exponent of at most [k] when [c * 2^k] bounds it. *)
Lemma binary_round_aux_close (c : positive) (k : Z) mx ex lx :
  Zpos (digits2_pos c) <= prec ->
  emin prec emax <= k <= 0 ->
  under c k (shr_record_of_loc mx lx) ex ->
  encloses A B (shr_record_of_loc mx lx) ex ->
  close A B k (binary_round_aux prec emax false mx ex lx).
Proof.
  intros Hc Hk Hu He.
  assert (Hk' : emin prec emax <= k <= emax - prec)
    by (unfold emin, emax, prec in *; lia).
  unfold binary_round_aux.
  apply (shr_fexp_under c k Hc Hk') in Hu.
  assert (He1 : encloses A B (fst (shr_fexp prec emax mx ex lx))
                  (snd (shr_fexp prec emax mx ex lx))).
  { unfold shr_fexp in *. apply shr_encloses; [exact He|].
    destruct Hu as (Hle & _). lia. }
  destruct (shr_fexp prec emax mx ex lx) as [mrs1 e1]. simpl in Hu, He1.
  apply round_nearest_even_near in He1.
  apply (round_nearest_even_under c k), (shr_fexp_under c k Hc Hk') in Hu.
  set (m1 := round_nearest_even (shr_m mrs1) (loc_of_shr_record mrs1)) in *.
  assert (He2 : near A B (shr_m (fst (shr_fexp prec emax m1 e1 loc_Exact)))
                  (snd (shr_fexp prec emax m1 e1 loc_Exact))).
  { unfold shr_fexp in *. apply shr_near; [exact He1|].
    destruct Hu as (Hle & _). lia. }
  destruct (shr_fexp prec emax m1 e1 loc_Exact) as [mrs2 e2]. simpl in Hu, He2.
  destruct Hu as (Hle & Hm & Hb). destruct He2 as (He0 & _ & Hd).
  destruct (shr_m mrs2) as [|m|m] eqn:E; simpl; [| |lia].
  - assert (Hpow : 2 ^ (- k) <= 2 ^ (- e2)) by (apply Z.pow_le_mono_r; lia).
    assert (0 <= A * 2 ^ (- e2)) by (apply Z.mul_nonneg_nonneg; [lia|]; apply Z.pow_nonneg; lia).
    assert (A * 2 ^ (- k) <= A * 2 ^ (- e2)) by (apply Z.mul_le_mono_nonneg_l; lia).
    lia.
  - replace (e2 <=? emax - prec) with true
      by (symmetry; apply Z.leb_le; unfold emin, emax, prec in *; lia).
    simpl. split; [exact Hle | exact Hd].
Qed.

End Enclosure.

(** [2^52 * 2^(-52 - e)] is [2^(-e)]. *)
Lemma pow2_52 e : e <= -52 -> 4503599627370496 * 2 ^ (-52 - e) = 2 ^ (- e).
Proof.
  intros H. change 4503599627370496 with (2 ^ 52).
  rewrite <- Z.pow_add_r by lia. f_equal. lia.
Qed.

(** The quotient of two integers [0 < s <= t] is at most 1 and within one
    unit of its last place, which is at most 2^-52, of [s / t]. *)
Lemma div_close s t :
  0 < s <= t -> t < 2 ^ 53 ->
  below 4503599627370496 (-52) (div (of_Z s) (of_Z t))
  /\ close s t (-52) (div (of_Z s) (of_Z t)).
Proof.
  intros Hs Ht.
  destruct (of_Z_exact s ltac:(lia)) as (ms & es & -> & Hds & Hes & Hms).
  destruct (of_Z_exact t ltac:(lia)) as (mt & et & -> & Hdt & Het & Hmt).
  assert (Hst : es <= et).
  { destruct (Z_le_gt_dec es et) as [H|H]; [exact H|]. exfalso.
    pose proof (digits_le ms) as H1. pose proof (digits_gt mt) as H2.
    rewrite Hds in H1. rewrite Hdt in H2. unfold prec in *.
    assert (Hp : 2 ^ (- et) = 2 ^ (- es) * 2 ^ (es - et)).
    { rewrite <- Z.pow_add_r by lia. f_equal. lia. }
    assert (Hq : 2 ^ 1 <= 2 ^ (es - et)) by (apply Z.pow_le_mono_r; lia).
    assert (0 < 2 ^ (- es)) by (apply Z.pow_pos_nonneg; lia).
    change (2 ^ 1) with 2 in Hq.
    assert (2 * 2 ^ (- es) <= 2 ^ (- et)) by nia.
    assert (2 * (s * 2 ^ (- es)) <= t * 2 ^ (- et)) by nia.
    lia. }
  unfold div, SFdiv, SFdiv_core_binary. simpl Zdigits2. rewrite Hds, Hdt.
  replace (Z.min (fexp prec emax (prec + es - (prec + et))) (es - et))
    with (es - et - 53)
    by (unfold fexp, emin, prec, emax; lia).
  replace (es - et - (es - et - 53)) with 53 by lia.
  rewrite Z.shiftl_mul_pow2 by lia.
  pose proof (Z_div_mod (Zpos ms * 2 ^ 53) (Zpos mt) ltac:(lia)) as Hdiv.
  destruct (Z.div_eucl (Zpos ms * 2 ^ 53) (Zpos mt)) as [q r].
  destruct Hdiv as [Hq Hr]. simpl xorb.
  set (e' := es - et - 53) in *.
  assert (Hpe : 0 < 2 ^ (- et)) by (apply Z.pow_pos_nonneg; lia).
  assert (Hpow : 2 ^ (- es) * 2 ^ 53 = 2 ^ (- et) * 2 ^ (- e')).
  { rewrite <- !Z.pow_add_r by (unfold e'; lia). f_equal. unfold e'. lia. }
  assert (Hnum : Zpos ms * 2 ^ 53 = s * 2 ^ (- e') * 2 ^ (- et)).
  { rewrite Hms, <- !Z.mul_assoc, Hpow. ring. }
  assert (Hq0 : 0 <= q) by nia.
  assert (Hp' : 0 < 2 ^ (- e')) by (apply Z.pow_pos_nonneg; unfold e'; lia).
  (* q * t <= s * 2^(-e') < (q + 1) * t, with equality on the left iff r = 0 *)
  assert (Hlo : q * t <= s * 2 ^ (- e')).
  { apply (Z.mul_le_mono_pos_r _ _ (2 ^ (- et)) Hpe).
    rewrite <- Hnum, Hq. rewrite Hmt. nia. }
  assert (Hhi : r = 0 -> s * 2 ^ (- e') <= q * t).
  { intros ->. apply (Z.mul_le_mono_pos_r _ _ (2 ^ (- et)) Hpe).
    rewrite <- Hnum, Hq, Hmt. nia. }
  assert (Hhi' : s * 2 ^ (- e') <= (q + 1) * t).
  { apply (Z.mul_le_mono_pos_r _ _ (2 ^ (- et)) Hpe).
    rewrite <- Hnum, Hq, Hmt. nia. }
  assert (Hsmall : s * 2 ^ (- e') <= t * 2 ^ (- e')) by nia.
  assert (Hq1 : q <= 2 ^ (- e')) by nia.
  assert (Hq2 : r <> 0 -> q + 1 <= 2 ^ (- e')).
  { intros Hne.
    assert (Hlt : q * t < s * 2 ^ (- e')).
    { apply (Z.mul_lt_mono_pos_r (2 ^ (- et)) _ _ Hpe).
      rewrite <- Hnum, Hq, Hmt. nia. }
    nia. }
  assert (He' : e' <= -53) by (unfold e'; lia).
  destruct (new_location_cases (Zpos mt) r) as [[-> ->]|[Hne [c ->]]].
  - split.
    + apply binary_round_aux_below; unfold emin, prec, emax; simpl; try lia.
      unfold under. simpl. rewrite pow2_52 by lia. repeat split; lia.
    + apply (binary_round_aux_close s t ltac:(lia) ltac:(lia) 4503599627370496 (-52));
        unfold emin, prec, emax; simpl; try lia.
      * unfold under. simpl. rewrite pow2_52 by lia. repeat split; lia.
      * unfold encloses, excess. simpl. specialize (Hhi eq_refl). repeat split; lia.
  - split.
    + apply binary_round_aux_below; unfold emin, prec, emax; simpl; try lia.
      unfold under. rewrite pow2_52 by lia.
      destruct c; simpl; repeat split; try lia; now apply Hq2.
    + apply (binary_round_aux_close s t ltac:(lia) ltac:(lia) 4503599627370496 (-52));
        unfold emin, prec, emax; simpl; try lia.
      * unfold under. rewrite pow2_52 by lia.
        destruct c; simpl; repeat split; try lia; now apply Hq2.
      * unfold encloses, excess. destruct c; simpl; repeat split; lia.
Qed.

(** A number of at most 1, times 100, is within one unit of its last
    place, which is at most 2^-45, of the exact product. *)
Lemma mul_100_close m e :
  e <= -52 -> Zpos m <= 2 ^ (- e) ->
  close (100 * Zpos m) (2 ^ (- e)) (-45)
    (mul (S754_finite false m e) (of_Z 100)).
Proof.
  intros He Hm. rewrite of_Z_100. unfold mul, SFmul. simpl xorb.
  assert (Hp : 0 < 2 ^ (- e)) by (apply Z.pow_pos_nonneg; lia).
  assert (Hpow : 2 ^ (- (e + -46)) = 70368744177664 * 2 ^ (- e)).
  { replace (- (e + -46)) with (46 + - e) by lia.
    rewrite Z.pow_add_r by lia. reflexivity. }
  apply (binary_round_aux_close (100 * Zpos m) (2 ^ (- e)) ltac:(lia) Hp
           4503599627370496 (-45));
    unfold emin, prec, emax; simpl; try lia.
  - unfold under. simpl. split; [lia|]. split; [lia|].
    replace (-45 - (e + -46)) with (1 + - e) by lia.
    rewrite Z.pow_add_r by lia. rewrite Pos2Z.inj_mul. lia.
  - unfold encloses, excess. simpl. rewrite Hpow, Pos2Z.inj_mul.
    repeat split; lia.
Qed.

(** [Math.round] of a number with a negative exponent. *)
Lemma Math_round_half m e :
  e < 0 ->
  2 * 2 ^ (- e) * Math_round (S754_finite false m e) <= 2 * Zpos m + 2 ^ (- e)
    < 2 * 2 ^ (- e) * (Math_round (S754_finite false m e) + 1).
Proof.
  intros He. unfold Math_round. simpl cond_Zopp.
  replace (0 <=? e) with false by (symmetry; apply Z.leb_gt; lia).
  assert (Hp : 0 < 2 ^ (- e)) by (apply Z.pow_pos_nonneg; lia).
  replace (2 ^ (1 - e)) with (2 * 2 ^ (- e))
    by (replace (1 - e) with (Z.succ (- e)) by lia; rewrite Z.pow_succ_r; lia).
  pose proof (Z_div_mod_eq_full (2 * Zpos m + 2 ^ (- e)) (2 * 2 ^ (- e))) as Hd.
  pose proof (Z.mod_pos_bound (2 * Zpos m + 2 ^ (- e)) (2 * 2 ^ (- e)) ltac:(lia)) as Hm.
  lia.
Qed.

(** From the three roundings to the nearest integer: [d = md / G] is
    within [1 / G] of [s / t], [x = mx / U] within [1 / U] of [100 * d],
    and [p] is [floor (x + 1/2)]. *)
Lemma nearest_from_roundings s t p md mx G U :
  0 <= s -> 0 < t < 2 ^ 32 ->
  2 ^ 52 <= G -> 2 ^ 45 <= U ->
  Z.abs (md * t - s * G) <= t ->
  Z.abs (mx * G - 100 * md * U) <= G ->
  2 * U * p <= 2 * mx + U < 2 * U * (p + 1) ->
  2 * Z.abs (100 * s - p * t) <= t.
Proof.
  intros Hs Ht HG HU Hd Hx Hp.
  change (2 ^ 52) with 4503599627370496 in HG.
  change (2 ^ 45) with 35184372088832 in HU.
  change (2 ^ 32) with 4294967296 in Ht.
  (* all in units of 1 / (U * G) *)
  assert (H1 : Z.abs (200 * md * t * U - 200 * s * G * U) <= 200 * t * U).
  { replace (200 * md * t * U - 200 * s * G * U)
      with ((md * t - s * G) * (200 * U)) by ring.
    rewrite Z.abs_mul, (Z.abs_eq (200 * U)) by lia.
    replace (200 * t * U) with (t * (200 * U)) by ring.
    apply Z.mul_le_mono_nonneg_r; lia. }
  assert (H2 : Z.abs (2 * mx * G * t - 200 * md * U * t) <= 2 * G * t).
  { replace (2 * mx * G * t - 200 * md * U * t)
      with ((mx * G - 100 * md * U) * (2 * t)) by ring.
    rewrite Z.abs_mul, (Z.abs_eq (2 * t)) by lia.
    replace (2 * G * t) with (G * (2 * t)) by ring.
    apply Z.mul_le_mono_nonneg_r; lia. }
  assert (HGt : 0 < G * t) by (apply Z.mul_pos_pos; lia).
  assert (HUG : 0 < U * G) by (apply Z.mul_pos_pos; lia).
  assert (H3 : 2 * U * p * (G * t) <= (2 * mx + U) * (G * t)).
  { apply Z.mul_le_mono_nonneg_r; lia. }
  assert (H4 : (2 * mx + U) * (G * t) < 2 * U * (p + 1) * (G * t)).
  { apply Z.mul_lt_mono_pos_r; lia. }
  assert (Hsmall : 200 * t * U + 2 * G * t < U * G).
  { assert (Ha : 200 * t * U <= 200 * 4294967296 * U)
      by (apply Z.mul_le_mono_nonneg_r; lia).
    assert (Hb : 2 * G * t <= 2 * G * 4294967296)
      by (apply Z.mul_le_mono_nonneg_l; lia).
    assert (Hc : 4503599627370496 * U <= G * U)
      by (apply Z.mul_le_mono_nonneg_r; lia).
    assert (Hd' : G * 35184372088832 <= G * U)
      by (apply Z.mul_le_mono_nonneg_l; lia).
    lia. }
  apply Z.abs_le in H1, H2.
  (* 2 p t U G is within less than U G of (200 s + t) U G *)
  assert (Hup : 2 * p * t * (U * G) < (200 * s + t + 1) * (U * G)) by lia.
  assert (Hdown : (200 * s - t - 1) * (U * G) < 2 * p * t * (U * G)) by lia.
  apply Zmult_lt_reg_r in Hup, Hdown; try exact HUG.
  clear -Hup Hdown. lia.
Qed.

(** The percentage of [s] out of [t] is an integer nearest to
    [100 * s / t]: it is off by a half at most. *)
Lemma percentage_nearest s t :
  0 <= s <= t -> 0 < t < 2 ^ 32 ->
  2 * Z.abs (100 * s
             - Math_round (mul (div (of_Z s) (of_Z t)) (of_Z 100)) * t) <= t.
Proof.
  intros Hs Ht.
  assert (Ht53 : t < 2 ^ 53).
  { apply Z.lt_trans with (2 ^ 32); [lia | reflexivity]. }
  destruct (Z.eq_dec s 0) as [->|Hne].
  { destruct (of_Z_exact t (conj (proj1 Ht) Ht53)) as (mt & et & -> & _).
    simpl. lia. }
  destruct (div_close s t ltac:(lia) Ht53) as [Hb Hc].
  destruct (div (of_Z s) (of_Z t)) as [sd|sd| |sd md ed]; simpl in Hb; try easy.
  { (* the quotient is 0 *)
    simpl in Hc. change (2 ^ (- -52)) with 4503599627370496 in Hc.
    rewrite of_Z_100. simpl. lia. }
  destruct sd; [easy|]. destruct Hb as [Hed Hmd]. rewrite pow2_52 in Hmd by exact Hed.
  simpl in Hc. destruct Hc as [_ Hd].
  set (G := 2 ^ (- ed)) in *.
  assert (HG : 2 ^ 52 <= G) by (apply Z.pow_le_mono_r; lia).
  pose proof (mul_100_close md ed Hed Hmd) as Hx. fold G in Hx.
  destruct (mul (S754_finite false md ed) (of_Z 100)) as [sx|sx| |sx mx ex];
    simpl in Hx; try easy.
  { (* the product is 0 *)
    exfalso. change (2 ^ (- -45)) with 35184372088832 in Hx.
    change (2 ^ 32) with 4294967296 in Ht.
    apply Z.abs_le in Hd.
    assert (H1 : G <= s * G) by nia.
    assert (H2 : Zpos md * t + t <= 2 * (Zpos md * t)) by nia.
    assert (H3 : 2 * (Zpos md * t) < 2 * (Zpos md * 4294967296)).
    { apply Z.mul_lt_mono_pos_l; [lia|]. apply Z.mul_lt_mono_pos_l; lia. }
    lia. }
  destruct sx; [easy|]. destruct Hx as [Hex Hx].
  pose proof (Math_round_half mx ex ltac:(lia)) as Hp.
  set (U := 2 ^ (- ex)) in *.
  assert (HU : 2 ^ 45 <= U) by (apply Z.pow_le_mono_r; lia).
  apply (nearest_from_roundings s t _ (Zpos md) (Zpos mx) G U);
    try assumption; try lia.
Qed.

End Binary64Facts.

(** ** Scoring *)

Section Scoring.
Import Js QuizService.
Local Open Scope Z_scope.

Lemma processAnswer_pushes quiz acc answer index acc' :
  processAnswer quiz acc answer index = Return acc' ->
  exists r, acc' = acc ++ [r].
Proof.
  unfold processAnswer.
  destruct (QuizModel.findQuestionById quiz _) as [question|]; [|discriminate].
  destruct (get answer "selectedOptionIds"); try discriminate.
  destruct (forEach _ items 0%nat tt); simpl; [|discriminate].
  intros [= <-]. eauto.
Qed.

Lemma forEach_processAnswer_length quiz entries : forall index acc rs,
  forEach (processAnswer quiz) entries index acc = Return rs ->
  length rs = (length acc + length entries)%nat.
Proof.
  induction entries as [|e entries IH]; simpl; intros index acc rs H.
  - injection H as <-. lia.
  - destruct (processAnswer quiz acc e index) as [acc'|] eqn:E; [|discriminate].
    simpl in H. apply IH in H. apply processAnswer_pushes in E as (r & ->).
    rewrite length_app in H. simpl in H. lia.
Qed.

Lemma validateAnswersFormat_Return answers quiz u :
  validateAnswersFormat answers quiz = Return u ->
  exists entries,
    answers = VArr entries
    /\ (0 < length entries <= length (questions quiz))%nat.
Proof.
  destruct answers; try discriminate. unfold validateAnswersFormat, throw_if.
  destruct (length items =? 0)%nat eqn:E0; [discriminate|]. simpl.
  destruct (length (questions quiz) <? length items)%nat eqn:E1; [discriminate|].
  intros _. exists items. split; [reflexivity|].
  apply Nat.eqb_neq in E0. apply Nat.ltb_ge in E1. lia.
Qed.

Lemma calculateGrade_spec p :
  (calculateGrade p = "A" <-> 90 <= p)
  /\ (calculateGrade p = "B" <-> 80 <= p < 90)
  /\ (calculateGrade p = "C" <-> 70 <= p < 80)
  /\ (calculateGrade p = "D" <-> 60 <= p < 70)
  /\ (calculateGrade p = "F" <-> p < 60).
Proof.
  unfold calculateGrade.
  destruct (90 <=? p) eqn:E1; [apply Z.leb_le in E1 | apply Z.leb_gt in E1].
  { repeat split; intros; try discriminate; try lia. }
  destruct (80 <=? p) eqn:E2; [apply Z.leb_le in E2 | apply Z.leb_gt in E2].
  { repeat split; intros; try discriminate; try lia. }
  destruct (70 <=? p) eqn:E3; [apply Z.leb_le in E3 | apply Z.leb_gt in E3].
  { repeat split; intros; try discriminate; try lia. }
  destruct (60 <=? p) eqn:E4; [apply Z.leb_le in E4 | apply Z.leb_gt in E4].
  { repeat split; intros; try discriminate; try lia. }
  repeat split; intros; try discriminate; try lia.
Qed.

(** C4, amended.  When [submitQuizAnswers] returns, the payload has
    passed the envelope check and the result holds: the score, the number
    of results that are correct; the total, the number of questions of the
    quiz; the percentage, [Math.round] of the binary64 product of
    score / total and 100, which is an integer nearest to
    100 * score / total (off by a half at most) and lies between 0 and
    100; the number of submitted entries and what is left of the total;
    passed exactly from 60; and the grade A from 90, B from 80, C from 70,
    D from 60, F below.  (A JavaScript array has fewer than 2^32
    elements.) *)
Theorem submission_statistics
    (toISOString : nat -> string) (k : string) (quiz : Quiz)
    (answers : value) (w w' : World) (res : SubmitResult) :
  quizzes w !! k = Some quiz ->
  Z.of_nat (length (questions quiz)) < 2 ^ 32 ->
  submitQuizAnswers toISOString (VStr k) answers w = (Return res, w') ->
  validateAnswersFormat answers quiz = Return tt
  /\ score (stats res) = Z.of_nat (length (List.filter isCorrect (results res)))
  /\ total (stats res) = Z.of_nat (length (questions quiz))
  /\ percentage (stats res)
     = Binary64.Math_round
         (Binary64.mul
            (Binary64.div (Binary64.of_Z (score (stats res)))
                          (Binary64.of_Z (total (stats res))))
            (Binary64.of_Z 100))
  /\ 2 * Z.abs (100 * score (stats res) - percentage (stats res) * total (stats res))
     <= total (stats res)
  /\ 0 <= percentage (stats res) <= 100
  /\ answeredCount (stats res) = Z.of_nat (array_length answers)
  /\ unansweredCount (stats res) = total (stats res) - answeredCount (stats res)
  /\ (passed (stats res) = true <-> 60 <= percentage (stats res))
  /\ (grade (stats res) = "A" <-> 90 <= percentage (stats res))
  /\ (grade (stats res) = "B" <-> 80 <= percentage (stats res) < 90)
  /\ (grade (stats res) = "C" <-> 70 <= percentage (stats res) < 80)
  /\ (grade (stats res) = "D" <-> 60 <= percentage (stats res) < 70)
  /\ (grade (stats res) = "F" <-> percentage (stats res) < 60).
Proof.
  intros Hk Hlen H. unfold submitQuizAnswers in H.
  assert (Hlen53 : Z.of_nat (length (questions quiz)) < 2 ^ 53).
  { apply Z.lt_trans with (2 ^ 32); [exact Hlen | reflexivity]. }
  step_run H. apply getQuiz_Return in Hrun as (-> & k' & [= <-] & Hk' & _).
  rewrite Hk in Hk'. injection Hk' as <-.
  step_run H. step_run Hrun. clear Hrun.
  step_run H. step_run Hrun.
  step_run H. step_run Hrun0.
  step_run H. step_run H. clear Hrun1.
  match goal with
  | Hv : validateAnswersFormat _ _ = Return ?u |- _ =>
      destruct u;
      destruct (validateAnswersFormat_Return _ _ _ Hv) as (entries & -> & Hentries);
      rename Hv into Hvalid
  end.
  match goal with
  | Hp : processAnswers _ _ = Return ?rs |- _ =>
      assert (Hres : length rs = length entries)
        by (unfold processAnswers in Hp;
            now apply forEach_processAnswer_length in Hp);
      pose proof (filter_length_le isCorrect rs) as Hscore
  end.
  unfold calculateStatistics. simpl.
  replace (0 <? Z.of_nat (length (questions quiz))) with true
    by (symmetry; apply Z.ltb_lt; lia).
  match goal with
  | |- context [Binary64.Math_round
                  (Binary64.mul (Binary64.div (Binary64.of_Z ?s) (Binary64.of_Z ?t)) _)] =>
      pose proof (Binary64Facts.percentage_range s t ltac:(lia) ltac:(lia)) as Hp;
      pose proof (Binary64Facts.percentage_nearest s t ltac:(lia) ltac:(lia)) as Hn
  end.
  set (p := Binary64.Math_round _) in *.
  split; [exact Hvalid|]. split; [reflexivity|]. split; [reflexivity|].
  split; [reflexivity|]. split; [exact Hn|]. split; [exact Hp|].
  split; [now rewrite Hres|]. split; [reflexivity|].
  split; [apply Z.leb_le|]. apply calculateGrade_spec.
Qed.

Lemma submission_statistics_witness :
  (quizzes Scenario.with_questions !! "id-0" = Some Scenario.full_quiz
   /\ Z.of_nat (length (questions Scenario.full_quiz)) < 2 ^ 32
   /\ submitQuizAnswers Scenario.clock (VStr "id-0") Scenario.two_answers
        Scenario.with_questions
      = (Return Scenario.graded, snd Scenario.submission))
  /\ (validateAnswersFormat Scenario.two_answers Scenario.full_quiz = Return tt
      /\ score (stats Scenario.graded)
         = Z.of_nat (length (List.filter isCorrect (results Scenario.graded)))
      /\ total (stats Scenario.graded)
         = Z.of_nat (length (questions Scenario.full_quiz))
      /\ percentage (stats Scenario.graded)
         = Binary64.Math_round
             (Binary64.mul
                (Binary64.div (Binary64.of_Z (score (stats Scenario.graded)))
                              (Binary64.of_Z (total (stats Scenario.graded))))
                (Binary64.of_Z 100))
      /\ 2 * Z.abs (100 * score (stats Scenario.graded)
                    - percentage (stats Scenario.graded)
                      * total (stats Scenario.graded))
         <= total (stats Scenario.graded)
      /\ 0 <= percentage (stats Scenario.graded) <= 100
      /\ answeredCount (stats Scenario.graded)
         = Z.of_nat (array_length Scenario.two_answers)
      /\ unansweredCount (stats Scenario.graded)
         = total (stats Scenario.graded) - answeredCount (stats Scenario.graded)
      /\ (passed (stats Scenario.graded) = true
            <-> 60 <= percentage (stats Scenario.graded))
      /\ (grade (stats Scenario.graded) = "A"
            <-> 90 <= percentage (stats Scenario.graded))
      /\ (grade (stats Scenario.graded) = "B"
            <-> 80 <= percentage (stats Scenario.graded) < 90)
      /\ (grade (stats Scenario.graded) = "C"
            <-> 70 <= percentage (stats Scenario.graded) < 80)
      /\ (grade (stats Scenario.graded) = "D"
            <-> 60 <= percentage (stats Scenario.graded) < 70)
      /\ (grade (stats Scenario.graded) = "F"
            <-> percentage (stats Scenario.graded) < 60)).
Proof.
  assert (H1 : quizzes Scenario.with_questions !! "id-0" = Some Scenario.full_quiz)
    by (vm_compute; reflexivity).
  assert (H2 : Z.of_nat (length (questions Scenario.full_quiz)) < 2 ^ 32)
    by (vm_compute; reflexivity).
  assert (H3 : submitQuizAnswers Scenario.clock (VStr "id-0") Scenario.two_answers
                 Scenario.with_questions
               = (Return Scenario.graded, snd Scenario.submission))
    by (vm_compute; reflexivity).
  split; [auto|].
  exact (submission_statistics Scenario.clock "id-0" Scenario.full_quiz
           Scenario.two_answers Scenario.with_questions
           (snd Scenario.submission) Scenario.graded H1 H2 H3).
Defined.

(** The scenarios of the specification, run. *)
Example scenario_all_correct :
  stats Scenario.graded
  = {| score := 2; total := 3; percentage := 67; answeredCount := 2;
       unansweredCount := 1; passed := true; grade := "D" |}.
Proof. vm_compute. reflexivity. Qed.

Example scenario_wrong_answer :
  match fst (submitQuizAnswers Scenario.clock (VStr "id-0")
               (VArr [Scenario.answer "id-1" ["id-4"]]) Scenario.with_questions) with
  | Return res =>
      map isCorrect (results res) = [false] /\ unansweredCount (stats res) = 2
  | Throw _ => False
  end.
Proof. vm_compute. split; reflexivity. Qed.

Example scenario_duplicate_answer :
  validateAnswersFormat Scenario.twice Scenario.primes_quiz
  = Throw [Lit "Duplicate answer for question "; Interp (VStr "id-1")].
Proof. vm_compute. reflexivity. Qed.

(** The percentage is rounded from the binary64 product: 23 of 40 is
    57.49999999999999 in binary64, and gives 57. *)
Example percentage_23_of_40 :
  Binary64.Math_round
    (Binary64.mul (Binary64.div (Binary64.of_Z 23) (Binary64.of_Z 40))
       (Binary64.of_Z 100)) = 57.
Proof. vm_compute. reflexivity. Qed.

(** C4 as it was stated fails at a tie.  With 23 correct results for a
    quiz of 40 questions the exact percentage is 57.5, which rounds half
    up to 58: floor (100 * 23 / 40 + 1/2) is 58.  The binary64 product is
    below 57.5, and [calculateStatistics] returns 57. *)
Lemma tie_is_not_rounded_up :
  score (calculateStatistics (repeat Scenario.right_result 23) 40) = 23
  /\ total (calculateStatistics (repeat Scenario.right_result 23) 40) = 40
  /\ percentage (calculateStatistics (repeat Scenario.right_result 23) 40) = 57
  /\ (2 * (100 * 23) + 40) / (2 * 40) = 58
  /\ percentage (calculateStatistics (repeat Scenario.right_result 23) 40)
     <> (2 * (100 * score (calculateStatistics (repeat Scenario.right_result 23) 40))
         + total (calculateStatistics (repeat Scenario.right_result 23) 40))
        / (2 * total (calculateStatistics (repeat Scenario.right_result 23) 40)).
Proof. vm_compute. repeat split; try reflexivity. discriminate. Qed.

End Scoring.

(** * Further properties *)

(** ** What [addQuestion] builds *)

Section QuestionBuilding.
Import Js JsFacts QuizService Payload.
Variable uuidv4 : nat -> string.
Variable toISOString : nat -> string.

Lemma built_options_length n items :
  length (built_options uuidv4 n items) = length items.
Proof. revert n. induction items as [|d items IH]; intros n; simpl; auto. Qed.

Lemma built_options_ids n items :
  map opt_id (built_options uuidv4 n items) = map uuidv4 (seq n (length items)).
Proof.
  revert n. induction items as [|d items IH]; intros n; simpl; [reflexivity|].
  now rewrite IH.
Qed.

(** One pass of the loop of [addOptionsToQuestion] that returns. *)
Lemma addOptionData_Return q texts optionData index w q' texts' w' :
  addOptionData uuidv4 (q, texts) optionData index w = (Return (q', texts'), w') ->
  option_data_ok optionData
  /\ (lower_text optionData ∉ texts)
  /\ texts' = {[ lower_text optionData ]} ∪ texts
  /\ q_id q' = q_id q /\ q_text q' = q_text q /\ q_type q' = q_type q
  /\ q_createdAt q' = q_createdAt q
  /\ q_options q' = q_options q ++ built_options uuidv4 (uuids_drawn w) [optionData]
  /\ quizzes w' = quizzes w
  /\ uuids_drawn w' = S (uuids_drawn w)
  /\ clock_reads w' = clock_reads w.
Proof.
  unfold addOptionData, option_data_ok, lower_text, text_of.
  destruct (truthy optionData) eqn:E1; simpl; [|discriminate].
  destruct (typeof optionData =? "object") eqn:E2; simpl; [|discriminate].
  apply String.eqb_eq in E2.
  destruct (get optionData "text") as [| | | |t| |] eqn:Etext; try discriminate.
  destruct (t =? "") eqn:E3; [discriminate|].
  destruct (String.length (trim t) =? 0)%nat eqn:E4; [discriminate|].
  destruct (500 <? String.length (trim t))%nat eqn:E5; [discriminate|].
  apply Nat.eqb_neq in E4. apply Nat.ltb_ge in E5.
  destruct (bool_decide (toLowerCase (trim t) ∈ texts)) eqn:E6; [discriminate|].
  apply bool_decide_eq_false in E6.
  destruct (negb (strict_equal (get optionData "isCorrect") VUndefined)
            && negb (typeof (get optionData "isCorrect") =? "boolean")) eqn:E7;
    [discriminate|].
  unfold Question_addOption.
  assert (Et : (trim t =? "") = false).
  { apply String.eqb_neq. intros E. rewrite E in E4. now apply E4. }
  rewrite Et, trim_idempotent.
  replace (String.length (trim t) =? 0)%nat with false
    by (symmetry; now apply Nat.eqb_neq).
  cbn. intros [= <- <- <-]. simpl.
  repeat split; try reflexivity; try assumption.
  - exists t. split; [reflexivity | lia].
  - apply andb_false_iff in E7 as [E7|E7]; apply negb_false_iff in E7.
    + left. destruct (get optionData "isCorrect"); simpl in E7; try discriminate.
      reflexivity.
    + right. destruct (get optionData "isCorrect"); simpl in E7; try discriminate.
      eauto.
  - unfold text_of. now rewrite Etext.
Qed.

(** The loop of [addOptionsToQuestion], when it returns. *)
Lemma forEachM_addOptionData_Return items : forall index q texts w q' texts' w',
  forEachM (addOptionData uuidv4) items index (q, texts) w
    = (Return (q', texts'), w') ->
  Forall option_data_ok items
  /\ NoDup (map lower_text items)
  /\ (forall d, In d items -> (lower_text d ∉ texts))
  /\ q_id q' = q_id q /\ q_text q' = q_text q /\ q_type q' = q_type q
  /\ q_createdAt q' = q_createdAt q
  /\ q_options q' = q_options q ++ built_options uuidv4 (uuids_drawn w) items
  /\ quizzes w' = quizzes w
  /\ uuids_drawn w' = uuids_drawn w + length items
  /\ clock_reads w' = clock_reads w.
Proof.
  induction items as [|d items IH]; intros index q texts w q' texts' w' H.
  - cbn in H. injection H as <- <- <-. rewrite app_nil_r, Nat.add_0_r.
    repeat split; try reflexivity; try constructor. intros d [].
  - cbn [forEachM] in H. step_run H. destruct a as [q1 texts1].
    apply addOptionData_Return in Hrun
      as (Hok & Hnew & -> & I1 & I2 & I3 & I4 & I5 & W1 & W2 & W3).
    apply IH in H as (Hoks & Hnd & Hfresh & J1 & J2 & J3 & J4 & J5 & V1 & V2 & V3).
    repeat split; try congruence.
    + now constructor.
    + cbn [map]. apply NoDup_cons. split; [|exact Hnd].
      intros Hin. apply list_elem_of_In, in_map_iff in Hin as (d' & E & Hd').
      apply (Hfresh d' Hd'). rewrite E.
      apply elem_of_union. left. now apply elem_of_singleton.
    + intros d' [<-|Hd']; [exact Hnew|].
      intros Hin. apply (Hfresh d' Hd'). apply elem_of_union. now right.
    + rewrite J5, I5, W2. cbn [built_options]. now rewrite <- app_assoc.
    + rewrite V2, W2. simpl. lia.
Qed.

Lemma validateQuestionData_Return data u :
  validateQuestionData data = Return u ->
  truthy data = true /\ typeof data = "object"
  /\ Projection.valid_type (get data "type")
  /\ exists t, get data "text" = VStr t
               /\ 1 <= String.length (trim t) <= 1000
               /\ (get data "type" = VStr "text" -> String.length (trim t) <= 300).
Proof.
  unfold validateQuestionData, throw_if.
  destruct (truthy data) eqn:E1; cbn [obind negb orb]; [|discriminate].
  destruct (typeof data =? "object") eqn:E2; cbn [obind negb orb]; [|discriminate].
  apply String.eqb_eq in E2.
  destruct (get data "text") as [| | | |t| |]; try discriminate.
  destruct (t =? ""); cbn [obind]; [discriminate|].
  destruct (String.length (trim t) =? 0)%nat eqn:E3; cbn [obind]; [discriminate|].
  destruct (strict_equal (get data "type") (VStr "text")
            && (300 <? String.length (trim t))%nat) eqn:E4; cbn [obind];
    [discriminate|].
  destruct (1000 <? String.length (trim t))%nat eqn:E5; cbn [obind]; [discriminate|].
  destruct (truthy (get data "type")); cbn [obind negb]; [|discriminate].
  destruct (includes [VStr "single_choice"; VStr "multiple_choice"; VStr "text"]
              (get data "type")) eqn:E6; cbn [obind negb]; [|discriminate].
  intros _. apply Nat.eqb_neq in E3. apply Nat.ltb_ge in E5.
  repeat split; try assumption.
  - apply (includes_strs ["single_choice"; "multiple_choice"; "text"]) in E6
      as (s & -> & Hs).
    unfold Projection.valid_type. simpl in Hs.
    destruct Hs as [<-|[<-|[<-|[]]]]; auto.
  - exists t. repeat split; try lia.
    intros Et. rewrite Et in E4. simpl in E4. apply Nat.ltb_ge in E4. lia.
Qed.

(** [addQuestion], when it returns: the question is built from the
    payload, with ids and a time stamp from the oracles, and appended to
    the quiz under the key. *)
Lemma addQuestion_built quizId data w q w' :
  addQuestion uuidv4 toISOString quizId data w = (Return q, w') ->
  exists k quiz t items,
    quizId = VStr k /\ quizzes w !! k = Some quiz
    /\ get data "text" = VStr t /\ get data "options" = VArr items
    /\ 1 <= String.length (trim t) <= 1000
    /\ (get data "type" = VStr "text" -> String.length (trim t) <= 300)
    /\ Projection.valid_type (get data "type")
    /\ 1 <= length items <= 10
    /\ Forall option_data_ok items
    /\ NoDup (map lower_text items)
    /\ q = {| q_id := uuidv4 (uuids_drawn w);
              q_text := trim t;
              q_type := get data "type";
              q_options := built_options uuidv4 (S (uuids_drawn w)) items;
              q_createdAt := toISOString (clock_reads w) |}
    /\ QuestionModel.validate q = Return true
    /\ w' = {| quizzes :=
                 <[k := {| quiz_id := quiz_id quiz; title := title quiz;
                           questions := questions quiz ++ [q];
                           createdAt := createdAt quiz;
                           updatedAt := toISOString (S (clock_reads w)) |}]>
                   (quizzes w);
               uuids_drawn := S (uuids_drawn w) + length items;
               clock_reads := S (S (clock_reads w)) |}.
Proof.
  unfold addQuestion. intros H.
  apply bind_Return in H as (quiz & w0 & H0 & H).
  apply getQuiz_Return in H0 as (-> & k & -> & Hk & _).
  apply bind_Return in H as (u & w1 & H1 & H).
  apply lift_Return in H1 as [H1 ->].
  apply validateQuestionData_Return in H1 as (_ & _ & Hty & t & Ht & Hlen & Hlen').
  rewrite Ht in H.
  apply bind_Return in H as (q0 & w2 & H2 & H).
  cbn in H2. injection H2 as <- <-.
  apply bind_Return in H as (q1 & w3 & H3 & H).
  unfold addOptionsToQuestion in H3.
  destruct (get data "options") as [| | | | |items|]; try discriminate.
  destruct (length items =? 0)%nat eqn:E0; [discriminate|].
  destruct (10 <? length items)%nat eqn:E10; [discriminate|].
  apply Nat.eqb_neq in E0. apply Nat.ltb_ge in E10.
  apply bind_Return in H3 as ([q1' texts] & w3' & H3 & H3').
  apply ret_Return in H3' as [-> ->]. simpl fst in *.
  apply forEachM_addOptionData_Return in H3
    as (Hoks & Hnd & _ & I1 & I2 & I3 & I4 & I5 & W1 & W2 & W3).
  simpl in I1, I2, I3, I4, I5, W1, W2, W3.
  apply bind_Return in H as (b & w4 & H4 & H).
  apply lift_Return in H4 as [H4 ->].
  apply ValidationFacts.validate_returns in H4 as Hb. destruct Hb as [-> _].
  cbn in H. injection H as <- <-.
  assert (Eq : q1' = {| q_id := uuidv4 (uuids_drawn w);
                        q_text := trim t;
                        q_type := get data "type";
                        q_options := built_options uuidv4 (S (uuids_drawn w)) items;
                        q_createdAt := toISOString (clock_reads w) |}).
  { destruct q1'. simpl in *. subst. rewrite trim_idempotent. f_equal.
    destruct Hty as [-> | [-> | ->]]; reflexivity. }
  subst q1'. exists k, quiz, t, items.
  repeat split; try assumption; try lia.
  simpl in W1, W2, W3. now rewrite W1, W2, W3.
Qed.

Lemma built_options_texts n items :
  map opt_text (built_options uuidv4 n items) = map (fun d => trim (text_of d)) items.
Proof.
  revert n. induction items as [|d items IH]; intros n; simpl; [reflexivity|].
  now rewrite IH.
Qed.

Lemma built_options_flags n items :
  map opt_isCorrect (built_options uuidv4 n items)
  = map (fun d => truthy (get d "isCorrect")) items.
Proof.
  revert n. induction items as [|d items IH]; intros n; simpl; [reflexivity|].
  now rewrite IH.
Qed.

Lemma built_options_lower n items :
  map (fun o => toLowerCase (opt_text o)) (built_options uuidv4 n items)
  = map lower_text items.
Proof.
  revert n. induction items as [|d items IH]; intros n; simpl; [reflexivity|].
  now rewrite IH.
Qed.

Lemma built_options_trimmed n items :
  Forall option_data_ok items ->
  Forall (fun o => trim (opt_text o) = opt_text o
                   /\ 1 <= String.length (opt_text o) <= 500)
    (built_options uuidv4 n items).
Proof.
  intros H. revert n. induction H as [|d items Hd _ IH]; intros n; simpl;
    constructor; [|apply IH].
  destruct Hd as (_ & _ & (t & Ht & Hlen) & _). simpl.
  unfold text_of. rewrite Ht, trim_idempotent. now split.
Qed.

(** The question [addQuestion] returns, against the payload. *)
Lemma addQuestion_built_from quizId data w q w' :
  addQuestion uuidv4 toISOString quizId data w = (Return q, w') ->
  built_from data q.
Proof.
  intros H.
  apply addQuestion_built in H
    as (k & quiz & t & items & _ & _ & Ht & Hitems & Hlen & Hlen' & Hty & Hn
        & Hoks & Hnd & -> & _ & _).
  assert (Etext : text_of data = t) by (unfold text_of; now rewrite Ht).
  split; simpl.
  - rewrite Etext. now split.
  - exact Hlen.
  - exact Hlen'.
  - split; [reflexivity | exact Hty].
  - exists items. repeat split; try assumption.
    + apply built_options_texts.
    + apply built_options_flags.
  - now rewrite built_options_length.
  - now apply built_options_trimmed.
  - now rewrite built_options_lower.
Qed.

(** X1.  The question [addQuestion] returns reflects the payload: its
    text is the trimmed text, of 1 to 1000 code units (300 for the type
    text); its type is the type of the payload; its options are those of
    the payload, in order, with trimmed texts of 1 to 500 code units and
    the flags of the payload; there are 1 to 10 of them, and no two have
    the same text once in lower case. *)
Theorem addQuestion_builds_from_payload quizId data w q w' :
  addQuestion uuidv4 toISOString quizId data w = (Return q, w') ->
  built_from data q.
Proof. apply addQuestion_built_from. Qed.

(** X2.  [addQuestion] takes the id of the question and then the ids of
    its options from the generator, one after the other, and reads the
    clock twice; when the ids drawn during the call are pairwise
    different, the options of the question have pairwise different ids,
    none of them the id of the question. *)
Theorem addQuestion_draws_fresh_ids quizId data w q w' :
  addQuestion uuidv4 toISOString quizId data w = (Return q, w') ->
  NoDup (map uuidv4 (seq (uuids_drawn w) (uuids_drawn w' - uuids_drawn w))) ->
  q_id q = uuidv4 (uuids_drawn w)
  /\ map opt_id (q_options q)
     = map uuidv4 (seq (S (uuids_drawn w)) (length (q_options q)))
  /\ uuids_drawn w' = uuids_drawn w + 1 + length (q_options q)
  /\ clock_reads w' = clock_reads w + 2
  /\ Evaluation.unique_option_ids q
  /\ ~ In (q_id q) (map opt_id (q_options q)).
Proof.
  intros H Hnd.
  apply addQuestion_built in H
    as (k & quiz & t & items & _ & _ & _ & _ & _ & _ & _ & _ & _ & _ & -> & _ & ->).
  simpl in *. unfold Evaluation.unique_option_ids. simpl.
  rewrite built_options_length, built_options_ids.
  replace (S (uuids_drawn w + length items) - uuids_drawn w) with (S (length items))
    in Hnd by lia.
  simpl in Hnd. apply NoDup_cons in Hnd as [Hfresh Hnd].
  repeat split; try lia; try assumption.
  intros Hin. apply Hfresh. now apply list_elem_of_In.
Qed.

End QuestionBuilding.

Lemma addQuestion_builds_from_payload_witness :
  addQuestion Scenario.uuids Scenario.clock (Js.VStr "id-0") Scenario.sum_data
    Scenario.with_quiz = (Return Scenario.sum_question, Scenario.with_sum)
  /\ Payload.built_from Scenario.sum_data Scenario.sum_question.
Proof.
  assert (H : addQuestion Scenario.uuids Scenario.clock (Js.VStr "id-0")
                Scenario.sum_data Scenario.with_quiz
              = (Return Scenario.sum_question, Scenario.with_sum))
    by (vm_compute; reflexivity).
  split; [exact H|].
  exact (addQuestion_builds_from_payload Scenario.uuids Scenario.clock
           _ _ _ _ _ H).
Defined.

Lemma addQuestion_draws_fresh_ids_witness :
  (addQuestion Scenario.uuids Scenario.clock (Js.VStr "id-0") Scenario.sum_data
     Scenario.with_quiz = (Return Scenario.sum_question, Scenario.with_sum)
   /\ NoDup (map Scenario.uuids
               (seq (uuids_drawn Scenario.with_quiz)
                  (uuids_drawn Scenario.with_sum - uuids_drawn Scenario.with_quiz))))
  /\ (q_id Scenario.sum_question = Scenario.uuids (uuids_drawn Scenario.with_quiz)
      /\ map opt_id (q_options Scenario.sum_question)
         = map Scenario.uuids
             (seq (S (uuids_drawn Scenario.with_quiz))
                (length (q_options Scenario.sum_question)))
      /\ uuids_drawn Scenario.with_sum
         = uuids_drawn Scenario.with_quiz + 1 + length (q_options Scenario.sum_question)
      /\ clock_reads Scenario.with_sum = clock_reads Scenario.with_quiz + 2
      /\ Evaluation.unique_option_ids Scenario.sum_question
      /\ ~ In (q_id Scenario.sum_question)
              (map opt_id (q_options Scenario.sum_question))).
Proof.
  assert (H : addQuestion Scenario.uuids Scenario.clock (Js.VStr "id-0")
                Scenario.sum_data Scenario.with_quiz
              = (Return Scenario.sum_question, Scenario.with_sum))
    by (vm_compute; reflexivity).
  assert (Hnd : NoDup (map Scenario.uuids
                  (seq (uuids_drawn Scenario.with_quiz)
                     (uuids_drawn Scenario.with_sum
                      - uuids_drawn Scenario.with_quiz)))).
  { apply (bool_decide_unpack _). vm_compute. exact I. }
  split; [split; assumption|].
  exact (addQuestion_draws_fresh_ids Scenario.uuids Scenario.clock
           _ _ _ _ _ H Hnd).
Defined.

(** ** The repository: what is stored is read back *)

Section RoundTrips.
Import Js JsFacts QuizService QuizModel.
Variable uuidv4 : nat -> string.
Variable toISOString : nat -> string.

Lemma validateQuizId_str k : k <> "" -> validateQuizId (VStr k) = Return tt.
Proof.
  intros Hk. unfold validateQuizId, throw_if. simpl.
  destruct (k =? "") eqn:E; [apply String.eqb_eq in E; contradiction|].
  reflexivity.
Qed.

Lemma validateQuizId_Return quizId u :
  validateQuizId quizId = Return u -> exists k, quizId = VStr k /\ k <> "".
Proof.
  unfold validateQuizId, throw_if.
  destruct quizId as [| |b|x|s|l|p]; simpl; try discriminate.
  - destruct b; discriminate.
  - destruct x; simpl; discriminate.
  - destruct (s =? "") eqn:E; [discriminate|]. intros _. exists s. split; [reflexivity|].
    intros ->. discriminate.
Qed.

Lemma getQuiz_missing k w :
  quizzes w !! k = None -> k <> "" ->
  getQuiz (VStr k) w = (Throw [Lit "Quiz not found"], w).
Proof.
  intros Hk Hne. unfold getQuiz, bind, lift, get_quizzes.
  rewrite (validateQuizId_str k Hne). simpl. now rewrite Hk.
Qed.

(** X3.  [addQuestion] is all or nothing.  When it throws, the map of
    quizzes is as before.  When it returns a question, the quiz under the
    key has that question as its new last one and a new [updatedAt], its
    id, title, creation time and earlier questions are as before, every
    other entry is untouched, and [getQuiz] returns the quiz so changed. *)
Theorem addQuestion_appends_or_leaves quizId data w :
  match addQuestion uuidv4 toISOString quizId data w with
  | (Throw _, w') => quizzes w' = quizzes w
  | (Return q, w') =>
      exists k quiz quiz',
        quizId = VStr k
        /\ quizzes w !! k = Some quiz
        /\ quizzes w' !! k = Some quiz'
        /\ questions quiz' = questions quiz ++ [q]
        /\ quiz_id quiz' = quiz_id quiz
        /\ title quiz' = title quiz
        /\ createdAt quiz' = createdAt quiz
        /\ updatedAt quiz' = toISOString (S (clock_reads w))
        /\ (forall k', k' <> k -> quizzes w' !! k' = quizzes w !! k')
        /\ getQuiz quizId w' = (Return quiz', w')
  end.
Proof.
  destruct (addQuestion uuidv4 toISOString quizId data w) as [[q|msg] w'] eqn:E.
  - pose proof E as Hrun.
    apply addQuestion_run in Hrun
      as [[Hthrow _]|(k0 & quiz0 & q0 & u0 & -> & _ & Hv & _)]; [discriminate|].
    apply addQuestion_built in E
      as (k & quiz & t & items & [= ->] & Hk & _ & _ & _ & _ & _ & _ & _ & _ & Hq & _ & ->).
    eexists k, quiz, _. split; [reflexivity|]. split; [exact Hk|].
    split; [simpl; apply lookup_insert_eq|].
    repeat split.
    + intros k' Hne. simpl. now apply lookup_insert_ne.
    + apply getQuiz_lookup; [exact Hv|]. simpl. apply lookup_insert_eq.
  - apply addQuestion_run in E as [[_ H]|(k & quiz & q & u & _ & _ & _ & _ & [=] & _)].
    exact H.
Qed.

Lemma find_app_l {A} (p : A -> bool) l l' x :
  List.find p l = Some x -> List.find p (l ++ l') = Some x.
Proof.
  induction l as [|a l IH]; simpl; [discriminate|].
  destruct (p a); [trivial | exact IH].
Qed.

Lemma find_app_fresh {A} (p : A -> bool) l x :
  (forall a, In a l -> p a = false) -> p x = true ->
  List.find p (l ++ [x]) = Some x.
Proof.
  intros Hl Hx. induction l as [|a l IH]; simpl.
  - now rewrite Hx.
  - rewrite (Hl a) by now left. apply IH. intros b Hb. apply Hl. now right.
Qed.

(** X4.  After [addQuestion] returns a question, [findQuestionById] on
    the stored quiz still finds, for every id, the question it found
    before, and finds the new question under its id when no earlier
    question of the quiz has that id. *)
Theorem added_question_is_found quizId data w q w' :
  addQuestion uuidv4 toISOString quizId data w = (Return q, w') ->
  exists quiz quiz',
    getQuiz quizId w = (Return quiz, w)
    /\ getQuiz quizId w' = (Return quiz', w')
    /\ (forall id q0, findQuestionById quiz id = Some q0 ->
                      findQuestionById quiz' id = Some q0)
    /\ ((forall q0, In q0 (questions quiz) -> q_id q0 <> q_id q) ->
        findQuestionById quiz' (VStr (q_id q)) = Some q).
Proof.
  intros E. pose proof E as Hrun.
  apply addQuestion_run in Hrun
    as [[Hthrow _]|(k0 & quiz0 & q0 & u0 & -> & _ & Hv & _)]; [discriminate|].
  apply addQuestion_built in E
    as (k & quiz & t & items & [= ->] & Hk & _ & _ & _ & _ & _ & _ & _ & _ & Hq & _ & ->).
  eexists quiz, _. split; [now apply getQuiz_lookup|].
  split; [apply getQuiz_lookup; [exact Hv | simpl; apply lookup_insert_eq]|].
  unfold findQuestionById. simpl. split.
  - intros id q1 H. now apply find_app_l.
  - intros Hfresh. apply find_app_fresh.
    + intros a Ha. simpl. apply String.eqb_neq. now apply Hfresh.
    + simpl. apply String.eqb_refl.
Qed.

(** The two outcomes of [createQuiz]. *)
Lemma createQuiz_outcome t w :
  match createQuiz uuidv4 toISOString t w with
  | (Return quiz, w') =>
      exists s,
        t = VStr s
        /\ 3 <= String.length (trim s) <= 200
        /\ quiz = {| quiz_id := uuidv4 (uuids_drawn w); title := trim s;
                     questions := [];
                     createdAt := toISOString (clock_reads w);
                     updatedAt := toISOString (S (clock_reads w)) |}
        /\ w' = {| quizzes := <[quiz_id quiz := quiz]> (quizzes w);
                   uuids_drawn := S (uuids_drawn w);
                   clock_reads := S (S (clock_reads w)) |}
  | (Throw msg, w') =>
      w' = w
      /\ ValidationError msg
      /\ ~ (exists s, t = VStr s /\ 3 <= String.length (trim s) <= 200)
  end.
Proof.
  unfold createQuiz.
  destruct t as [| |b|x|s|l|p];
    try (split; [reflexivity|]; split; [discriminate|]; intros (s' & [=] & _)).
  destruct (String.length (trim s) =? 0)%nat eqn:E0.
  { apply Nat.eqb_eq in E0. split; [reflexivity|]. split; [discriminate|].
    intros (s' & [= <-] & H). lia. }
  destruct (String.length (trim s) <? 3)%nat eqn:E1.
  { apply Nat.ltb_lt in E1. split; [reflexivity|]. split; [discriminate|].
    intros (s' & [= <-] & H). lia. }
  destruct (200 <? String.length (trim s))%nat eqn:E2.
  { apply Nat.ltb_lt in E2. split; [reflexivity|]. split; [discriminate|].
    intros (s' & [= <-] & H). lia. }
  apply Nat.ltb_ge in E1, E2. cbn. rewrite trim_idempotent.
  exists s. repeat split; lia.
Qed.

(** X5.  [createQuiz] accepts exactly the strings that have 3 to 200 code
    units once trimmed.  It then returns a quiz with the next id, the
    trimmed title, no question and the next two readings of the clock, and
    stores it under its id.  Otherwise it throws a validation error and
    leaves the world as it was. *)
Theorem createQuiz_accepts_exactly t w :
  match createQuiz uuidv4 toISOString t w with
  | (Return quiz, w') =>
      exists s,
        t = VStr s
        /\ 3 <= String.length (trim s) <= 200
        /\ quiz = {| quiz_id := uuidv4 (uuids_drawn w); title := trim s;
                     questions := [];
                     createdAt := toISOString (clock_reads w);
                     updatedAt := toISOString (S (clock_reads w)) |}
        /\ w' = {| quizzes := <[quiz_id quiz := quiz]> (quizzes w);
                   uuids_drawn := S (uuids_drawn w);
                   clock_reads := S (S (clock_reads w)) |}
  | (Throw msg, w') =>
      w' = w
      /\ ValidationError msg
      /\ ~ (exists s, t = VStr s /\ 3 <= String.length (trim s) <= 200)
  end.
Proof. apply createQuiz_outcome. Qed.

(** X6.  A quiz that [createQuiz] returned is read back: when its id is
    not the empty string, [getQuiz] with that id returns the same quiz and
    leaves the world alone; every other id gives what it gave before; and
    the count is one more when the id was not in use. *)
Theorem createQuiz_then_getQuiz t w quiz w' :
  createQuiz uuidv4 toISOString t w = (Return quiz, w') ->
  quiz_id quiz <> "" ->
  getQuiz (VStr (quiz_id quiz)) w' = (Return quiz, w')
  /\ (forall k, k <> quiz_id quiz ->
        fst (getQuiz (VStr k) w') = fst (getQuiz (VStr k) w))
  /\ (quizzes w !! quiz_id quiz = None ->
        fst (getQuizCount w') = Return (S (size (quizzes w)))).
Proof.
  intros E Hne.
  pose proof (createQuiz_outcome t w) as H. rewrite E in H.
  destruct H as (s & -> & Hlen & Hq & ->).
  split; [|split].
  - apply getQuiz_lookup; [now apply validateQuizId_str|].
    simpl. apply lookup_insert_eq.
  - intros k Hk. unfold getQuiz, bind, lift, get_quizzes. simpl.
    destruct (validateQuizId (VStr k)); [|reflexivity]. simpl.
    rewrite lookup_insert_ne by congruence.
    now destruct (quizzes w !! k).
  - intros Hfresh. unfold getQuizCount, bind, get_quizzes, ret. simpl.
    now rewrite map_size_insert_None.
Qed.

Lemma deleteQuiz_lookup k w quiz :
  validateQuizId (VStr k) = Return tt ->
  quizzes w !! k = Some quiz ->
  deleteQuiz (VStr k) w
  = (Return true, {| quizzes := delete k (quizzes w);
                     uuids_drawn := uuids_drawn w;
                     clock_reads := clock_reads w |}).
Proof.
  intros Hv Hk. unfold deleteQuiz.
  now rewrite bind_run, (getQuiz_lookup k w quiz Hv Hk).
Qed.

(** X7.  [deleteQuiz] removes one entry or nothing.  When it returns, it
    returns [true], the entry under the key is gone and the others are
    untouched, the count is one less, and [getQuiz] and a second
    [deleteQuiz] with that id throw 'Quiz not found'.  When it throws, the
    error is the one [getQuiz] gives and the world is as it was. *)
Theorem deleteQuiz_removes_entry quizId w :
  match deleteQuiz quizId w with
  | (Return b, w') =>
      b = true
      /\ exists k quiz,
           quizId = VStr k
           /\ quizzes w !! k = Some quiz
           /\ w' = {| quizzes := delete k (quizzes w);
                      uuids_drawn := uuids_drawn w;
                      clock_reads := clock_reads w |}
           /\ (forall k', k' <> k -> quizzes w' !! k' = quizzes w !! k')
           /\ S (size (quizzes w')) = size (quizzes w)
           /\ getQuiz quizId w' = (Throw [Lit "Quiz not found"], w')
           /\ deleteQuiz quizId w' = (Throw [Lit "Quiz not found"], w')
  | (Throw msg, w') => w' = w /\ getQuiz quizId w = (Throw msg, w)
  end.
Proof.
  destruct (getQuiz quizId w) as [[quiz|msg] w1] eqn:E1.
  2:{ unfold deleteQuiz. rewrite bind_run, E1.
      pose proof (pure_read_getQuiz quizId w) as H. rewrite E1 in H. simpl in H.
      subst w1. split; reflexivity. }
  apply getQuiz_Return in E1 as (-> & k & -> & Hk & Hv).
  rewrite (deleteQuiz_lookup k w quiz Hv Hk).
  apply validateQuizId_Return in Hv as (k' & [= <-] & Hne).
  set (w' := {| quizzes := delete k (quizzes w); uuids_drawn := uuids_drawn w;
                clock_reads := clock_reads w |}).
  assert (Hget : getQuiz (VStr k) w' = (Throw [Lit "Quiz not found"], w')).
  { apply getQuiz_missing; [|exact Hne]. apply lookup_delete_eq. }
  split; [reflexivity|]. exists k, quiz.
  repeat split; try assumption.
  - intros k' Hk'. now apply lookup_delete_ne.
  - change (quizzes w') with (delete k (quizzes w)).
    rewrite map_size_delete, Hk.
    assert (size (quizzes w) <> 0); [|lia].
    intros H0. apply map_size_empty_inv in H0. rewrite H0 in Hk.
    rewrite lookup_empty in Hk. discriminate.
  - unfold deleteQuiz. now rewrite bind_run, Hget.
Qed.

(** X8.  [updateQuizTitle] accepts exactly a known quiz and a string that
    has 1 to 200 code units once trimmed.  It then returns the quiz with
    the trimmed title and a new [updatedAt], the id, questions and
    creation time as before; the other entries are untouched and [getQuiz]
    returns the quiz so changed.  When it throws, the map of quizzes is as
    it was. *)
Theorem updateQuizTitle_changes_title_only quizId newTitle w :
  match updateQuizTitle toISOString quizId newTitle w with
  | (Return quiz', w') =>
      exists k quiz s,
        quizId = VStr k
        /\ quizzes w !! k = Some quiz
        /\ newTitle = VStr s
        /\ 1 <= String.length (trim s) <= 200
        /\ quiz' = {| quiz_id := quiz_id quiz; title := trim s;
                      questions := questions quiz;
                      createdAt := createdAt quiz;
                      updatedAt := toISOString (clock_reads w) |}
        /\ (forall k', k' <> k -> quizzes w' !! k' = quizzes w !! k')
        /\ getQuiz quizId w' = (Return quiz', w')
  | (Throw msg, w') =>
      w' = w
      /\ ~ (exists k quiz s,
              quizId = VStr k /\ k <> "" /\ quizzes w !! k = Some quiz
              /\ newTitle = VStr s /\ 1 <= String.length (trim s) <= 200)
  end.
Proof.
  unfold updateQuizTitle. rewrite bind_run.
  destruct (getQuiz quizId w) as [[quiz|msg] w1] eqn:E1.
  2:{ pose proof (pure_read_getQuiz quizId w) as H. rewrite E1 in H. simpl in H.
      subst w1. split; [reflexivity|].
      intros (k & quiz & s & -> & Hne & Hk & _).
      rewrite (getQuiz_lookup k w quiz) in E1;
        [discriminate | now apply validateQuizId_str | exact Hk]. }
  apply getQuiz_Return in E1 as (-> & k & -> & Hk & Hv).
  destruct newTitle as [| |b|x|s|l|p];
    try (split; [reflexivity|]; intros (k' & quiz' & s' & _ & _ & _ & [=] & _)).
  destruct (s =? "") eqn:Es.
  { apply String.eqb_eq in Es. subst s. split; [reflexivity|].
    intros (k' & quiz' & s' & _ & _ & _ & [= <-] & H). simpl in H. lia. }
  destruct (String.length (trim s) =? 0)%nat eqn:E0.
  { apply Nat.eqb_eq in E0. split; [reflexivity|].
    intros (k' & quiz' & s' & _ & _ & _ & [= <-] & H). lia. }
  destruct (200 <? String.length (trim s))%nat eqn:E2.
  { apply Nat.ltb_lt in E2. split; [reflexivity|].
    intros (k' & quiz' & s' & _ & _ & _ & [= <-] & H). lia. }
  apply Nat.eqb_neq in E0. apply Nat.ltb_ge in E2. cbn.
  exists k, quiz, s. repeat split; try assumption; try lia.
  - intros k' Hk'. now apply lookup_insert_ne.
  - rewrite Hv. simpl. now rewrite lookup_insert_eq.
Qed.

(** X9.  [getQuiz] reads only, and tells three failures apart: a falsy id
    ('Quiz ID is required'), a truthy id that is not a string ('Quiz ID
    must be a string'), and a non-empty string under which nothing is
    stored ('Quiz not found', the one error that is not a validation
    error).  It returns what is stored under a non-empty string. *)
Theorem getQuiz_outcomes quizId w :
  snd (getQuiz quizId w) = w
  /\ match fst (getQuiz quizId w) with
     | Return quiz =>
         exists k, quizId = VStr k /\ k <> "" /\ quizzes w !! k = Some quiz
     | Throw msg =>
         (msg = [Lit "Quiz ID is required"] /\ truthy quizId = false
          /\ ValidationError msg)
         \/ (msg = [Lit "Quiz ID must be a string"] /\ truthy quizId = true
             /\ typeof quizId <> "string" /\ ValidationError msg)
         \/ (msg = [Lit "Quiz not found"] /\ NotFoundError msg
             /\ exists k, quizId = VStr k /\ k <> "" /\ quizzes w !! k = None)
     end.
Proof.
  split; [apply pure_read_getQuiz|].
  unfold getQuiz, bind, lift, get_quizzes, validateQuizId, throw_if.
  destruct (truthy quizId) eqn:Et; simpl.
  2:{ left. repeat split. discriminate. }
  destruct (typeof quizId =? "string") eqn:Es; simpl.
  2:{ right. left. repeat split; [|discriminate].
      intros H. rewrite H in Es. discriminate. }
  destruct quizId as [| |b|x|k|l|p]; try discriminate.
  assert (Hne : k <> "") by (intros ->; discriminate).
  simpl. destruct (quizzes w !! k) as [quiz|] eqn:Hk; simpl.
  - eauto.
  - right. right. repeat split. eauto.
Qed.

End RoundTrips.

(** ** Grading a submission *)

Module GradingFacts.
Import Js JsFacts QuizService QuestionModel QuizModel Envelope EnvelopeFacts Grading.

Lemma includes_option_ids question v :
  includes (uniq (map (fun opt => VStr (opt_id opt)) (q_options question))) v = true
  <-> Evaluation.names_option question v.
Proof.
  unfold includes, Evaluation.names_option. rewrite existsb_exists. split.
  - intros (y & Hy & E). apply uniq_in, in_map_iff in Hy as (o & <- & Ho).
    apply sameValueZero_str_l in E. eauto.
  - intros (o & Ho & ->). exists (VStr (opt_id o)). split.
    + apply uniq_str, in_map_iff. eauto.
    + now apply sameValueZero_str_l.
Qed.

(** The loop over the selected ids of one entry. *)
Lemma forEach_option_ids question (items : list value) : forall index,
  match forEach (fun (_ : unit) optionId (_ : nat) =>
          throw_if (negb (includes
                      (uniq (map (fun opt => VStr (opt_id opt)) (q_options question)))
                      optionId))
            [Lit "Invalid option ID: "; Interp optionId;
             Lit " for question "; Interp (VStr (q_id question))])
          items index tt with
  | Return _ => forall v, In v items -> Evaluation.names_option question v
  | Throw msg =>
      exists v, In v items /\ ~ Evaluation.names_option question v
                /\ msg = [Lit "Invalid option ID: "; Interp v;
                          Lit " for question "; Interp (VStr (q_id question))]
  end.
Proof.
  induction items as [|x items IH]; intros index; simpl; [now intros v []|].
  unfold throw_if at 1.
  destruct (includes _ x) eqn:E; simpl.
  - apply includes_option_ids in E. specialize (IH (S index)).
    destruct (forEach _ items (S index) tt) as [u|msg].
    + intros v [<-|Hv]; [exact E | now apply IH].
    + destruct IH as (v & Hv & Hbad & ->). exists v. split; [now right | now split].
  - exists x. split; [now left|]. split; [|reflexivity].
    intros H. apply includes_option_ids in H. congruence.
Qed.

Lemma getOptionDetails_ids question items :
  (forall v, In v items -> Evaluation.names_option question v) ->
  map (fun d => VStr (detail_id d)) (getOptionDetails question items) = items.
Proof.
  unfold getOptionDetails. induction items as [|v items IH]; intros H; [reflexivity|].
  destruct (H v (or_introl eq_refl)) as (o & Ho & ->).
  cbn [omap list_omap].
  destruct (List.find _ (q_options question)) as [o'|] eqn:E.
  - apply find_some in E as [_ E]. simpl in E. apply String.eqb_eq in E.
    simpl. rewrite E. f_equal. apply IH. intros v Hv. apply H. now right.
  - exfalso. apply (find_none _ _ E o) in Ho. simpl in Ho.
    now rewrite String.eqb_refl in Ho.
Qed.

Lemma getOptionDetails_correct question :
  map detail_id
    (getOptionDetails question (ids (getCorrectOptionIds question)))
  = getCorrectOptionIds question.
Proof.
  assert (H : forall l, (forall s, In s l -> exists o, In o (q_options question)
                                                  /\ opt_id o = s) ->
            map detail_id (getOptionDetails question (ids l)) = l).
  { unfold getOptionDetails, ids. induction l as [|s l IH]; intros H; [reflexivity|].
    destruct (H s (or_introl eq_refl)) as (o & Ho & <-).
    cbn [map omap list_omap].
    destruct (List.find _ (q_options question)) as [o'|] eqn:E.
    - apply find_some in E as [_ E]. simpl in E. apply String.eqb_eq in E.
      simpl. rewrite E. f_equal. apply IH. intros s Hs. apply H. now right.
    - exfalso. apply (find_none _ _ E o) in Ho. simpl in Ho.
      now rewrite String.eqb_refl in Ho. }
  apply H. intros s Hs. unfold getCorrectOptionIds in Hs.
  apply in_map_iff in Hs as (o & <- & Ho). apply filter_In in Ho as [Ho _]. eauto.
Qed.

(** One entry that passed the envelope check: it is graded, or one of its
    selected ids is no option of its question. *)
Lemma processAnswer_cases quiz acc e index :
  entry_ok quiz e = true ->
  exists question,
    question_of quiz e = Some question
    /\ match processAnswer quiz acc e index with
       | Return acc' =>
           (forall v, In v (selection e) -> Evaluation.names_option question v)
           /\ exists r, acc' = acc ++ [r] /\ reports question e r
       | Throw msg =>
           exists v, In v (selection e) /\ ~ Evaluation.names_option question v
                     /\ msg = [Lit "Invalid option ID: "; Interp v;
                               Lit " for question "; Interp (VStr (q_id question))]
       end.
Proof.
  intros Hok. pose proof Hok as Hok'.
  unfold entry_ok in Hok'. rewrite !andb_true_iff in Hok'.
  destruct Hok' as ((((((_ & _) & _) & Hinc) & _) & Harr) & _).
  apply includes_questionIds in Hinc as (q0 & Hq0 & Eq0).
  unfold processAnswer, question_of, selection. unfold qid in Eq0.
  destruct (findQuestionById quiz (get e "questionId")) as [question|] eqn:Ef.
  2:{ exfalso. unfold findQuestionById in Ef.
      apply (find_none _ _ Ef q0) in Hq0. rewrite Eq0 in Hq0. simpl in Hq0.
      now rewrite String.eqb_refl in Hq0. }
  exists question. split; [reflexivity|].
  destruct (get e "selectedOptionIds") as [| | | | |items|] eqn:Es; try discriminate.
  pose proof (forEach_option_ids question items 0) as Hloop.
  destruct (forEach _ items 0 tt) as [u|msg]; simpl.
  - split; [exact Hloop|]. eexists. split; [reflexivity|].
    unfold findQuestionById in Ef. apply find_some in Ef as [_ Ef].
    apply strict_equal_str in Ef.
    split; simpl.
    + split; [reflexivity | exact Ef].
    + reflexivity.
    + reflexivity.
    + now rewrite Es.
    + reflexivity.
    + now rewrite Es.
    + unfold selection. rewrite Es. now apply getOptionDetails_ids.
    + apply getOptionDetails_correct.
  - exact Hloop.
Qed.

(** The loop of [processAnswers] over entries that passed the envelope
    check. *)
Lemma forEach_processAnswer quiz : forall entries index acc,
  Forall (fun e => entry_ok quiz e = true) entries ->
  match forEach (processAnswer quiz) entries index acc with
  | Return rs =>
      selections_valid quiz entries
      /\ exists new,
           rs = acc ++ new
           /\ Forall2 (fun e r => exists question,
                         question_of quiz e = Some question /\ reports question e r)
                entries new
  | Throw msg =>
      exists question v,
        invalid_selection quiz entries question v
        /\ msg = [Lit "Invalid option ID: "; Interp v;
                  Lit " for question "; Interp (VStr (q_id question))]
  end.
Proof.
  induction entries as [|e entries IH]; intros index acc Hok; simpl.
  - split; [now intros e q v []|]. exists []. split; [now rewrite app_nil_r | constructor].
  - apply Forall_cons in Hok as [Hoke Hok].
    destruct (processAnswer_cases quiz acc e index Hoke) as (question & Hq & Hc).
    destruct (processAnswer quiz acc e index) as [acc'|msg]; simpl.
    + destruct Hc as (Hvalid & r & -> & Hr).
      specialize (IH (S index) (acc ++ [r]) Hok).
      destruct (forEach _ entries (S index) (acc ++ [r])) as [rs|msg].
      * destruct IH as (Hvalids & new & -> & Hnew). split.
        -- intros e' q' v [<-|He'] Hq' Hv.
           ++ rewrite Hq in Hq'. injection Hq' as <-. now apply Hvalid.
           ++ now apply (Hvalids e').
        -- exists (r :: new). split; [now rewrite <- app_assoc|].
           constructor; [eauto | exact Hnew].
      * destruct IH as (q' & v & (e' & He' & Hbad) & ->).
        exists q', v. split; [|reflexivity]. exists e'. split; [now right | exact Hbad].
    + destruct Hc as (v & Hv & Hbad & ->).
      exists question, v. split; [|reflexivity]. exists e. split; [now left | easy].
Qed.

(** The envelope check returns exactly on a non-empty array of at most as
    many entries as the quiz has questions, each passing the checks, no
    two for the same question. *)
Lemma validateAnswersFormat_Return_iff answers quiz :
  validateAnswersFormat answers quiz = Return tt <->
  exists entries,
    answers = VArr entries
    /\ 1 <= length entries <= length (questions quiz)
    /\ Forall (fun e => entry_ok quiz e = true) entries
    /\ NoDup (map qid entries).
Proof.
  destruct answers as [| |b|x|s|entries|p];
    try (split; [discriminate | now intros (entries & [=] & _)]).
  unfold validateAnswersFormat, throw_if.
  destruct (length entries =? 0)%nat eqn:E0; simpl.
  { apply Nat.eqb_eq in E0. split; [discriminate|]. intros (? & [= <-] & H & _). lia. }
  destruct (length (questions quiz) <? length entries)%nat eqn:E1; simpl.
  { apply Nat.ltb_lt in E1. split; [discriminate|]. intros (? & [= <-] & H & _). lia. }
  apply Nat.eqb_neq in E0. apply Nat.ltb_ge in E1.
  pose proof (forEach_validateAnswer quiz entries [] 0
                (List.Forall_nil _) NoDup_nil_2) as H.
  simpl in H. fold (questionIds quiz).
  destruct (forEach (validateAnswer (questionIds quiz)) entries 0 []) as [a|msg]; simpl.
  - destruct H as [Hok Hnd]. split; [|reflexivity]. intros _.
    exists entries. repeat split; try assumption; lia.
  - split; [discriminate|]. intros (? & [= <-] & _ & Hok & Hnd). exfalso.
    destruct H as [_ [(e & He & Hbad)|Hdup]].
    + pose proof (proj1 (List.Forall_forall _ _) Hok e He). congruence.
    + now apply NoDup_no_repetition in Hnd.
Qed.

(** [processAnswer] treats an entry the same way wherever it stands. *)
Lemma processAnswer_alone quiz acc e index :
  processAnswer quiz acc e index
  = match processAnswer quiz [] e 0 with
    | Return rs => Return (acc ++ rs)
    | Throw msg => Throw msg
    end.
Proof.
  unfold processAnswer.
  destruct (findQuestionById quiz (get e "questionId")); [|reflexivity].
  destruct (get e "selectedOptionIds"); try reflexivity.
  destruct (forEach _ items 0 tt); reflexivity.
Qed.

Lemma forEach_processAnswer_alone quiz : forall entries index acc rs,
  forEach (processAnswer quiz) entries index acc = Return rs <->
  Forall (fun e => is_Throw (processAnswer quiz [] e 0) = false) entries
  /\ rs = acc ++ flat_map (graded_alone quiz) entries.
Proof.
  induction entries as [|e entries IH]; intros index acc rs; simpl.
  - rewrite app_nil_r. split.
    + intros [= <-]. split; [constructor | reflexivity].
    + now intros [_ ->].
  - rewrite processAnswer_alone. unfold graded_alone.
    destruct (processAnswer quiz [] e 0) as [r|msg] eqn:E; simpl.
    + rewrite IH, app_assoc. split.
      * intros [H ->]. split; [|reflexivity].
        constructor; [now rewrite E | exact H].
      * intros [H ->]. apply Forall_cons in H as [_ H]. now split.
    + split; [discriminate|]. intros [H _]. apply Forall_cons in H as [H _].
      rewrite E in H. discriminate.
Qed.

Lemma filter_length_Permutation {A} (p : A -> bool) (l l' : list A) :
  Permutation l l' -> length (List.filter p l) = length (List.filter p l').
Proof.
  induction 1 as [|x l l' _ IH|x y l|l l' l'' _ IH1 _ IH2]; simpl.
  - reflexivity.
  - destruct (p x); simpl; now rewrite IH.
  - destruct (p x), (p y); reflexivity.
  - now rewrite IH1.
Qed.

Lemma flat_map_Permutation {A B} (f : A -> list B) (l l' : list A) :
  Permutation l l' -> Permutation (flat_map f l) (flat_map f l').
Proof.
  induction 1 as [|x l l' _ IH|x y l|l l' l'' _ IH1 _ IH2]; simpl.
  - reflexivity.
  - now apply Permutation_app_head.
  - rewrite !app_assoc. apply Permutation_app_tail, Permutation_app_comm.
  - now transitivity (flat_map f l').
Qed.

End GradingFacts.

Section Submission.
Import Js JsFacts QuizService QuestionModel QuizModel Envelope EnvelopeFacts.
Import Grading GradingFacts.
Variable toISOString : nat -> string.

(** [submitQuizAnswers] on a stored quiz, as one step. *)
Lemma submitQuizAnswers_run k quiz answers w :
  quizzes w !! k = Some quiz -> k <> "" ->
  submitQuizAnswers toISOString (VStr k) answers w
  = match (throw_if (length (questions quiz) =? 0)%nat [Lit "Quiz has no questions"] ;;?
           validateAnswersFormat answers quiz ;;?
           processAnswers answers quiz) with
    | Return rs =>
        (Return {| stats := calculateStatistics rs (Z.of_nat (length (questions quiz)));
                   results := rs;
                   submittedAt := toISOString (clock_reads w) |},
         {| quizzes := quizzes w; uuids_drawn := uuids_drawn w;
            clock_reads := S (clock_reads w) |})
    | Throw msg => (Throw msg, w)
    end.
Proof.
  intros Hk Hne. unfold submitQuizAnswers.
  rewrite bind_run, (getQuiz_lookup k w quiz (validateQuizId_str k Hne) Hk).
  unfold bind, lift, throw_if.
  destruct (length (questions quiz) =? 0)%nat; simpl; [reflexivity|].
  destruct (validateAnswersFormat answers quiz); simpl; [|reflexivity].
  destruct (processAnswers answers quiz); reflexivity.
Qed.

Lemma submitQuizAnswers_key quizId answers w res w' :
  submitQuizAnswers toISOString quizId answers w = (Return res, w') ->
  exists k quiz, quizId = VStr k /\ k <> "" /\ quizzes w !! k = Some quiz.
Proof.
  unfold submitQuizAnswers. rewrite bind_run.
  destruct (getQuiz quizId w) as [[quiz|msg] w1] eqn:E; [|discriminate].
  intros _. apply getQuiz_Return in E as (_ & k & -> & Hk & Hv).
  apply validateQuizId_Return in Hv as (k' & [= <-] & Hne). eauto.
Qed.

(** X10.  On a stored quiz, [submitQuizAnswers] returns exactly when the
    quiz has a question, the payload has no envelope violation, and every
    selected id of every entry is the id of an option of the question the
    entry names. *)
Theorem submitQuizAnswers_returns_iff k quiz answers w :
  quizzes w !! k = Some quiz -> k <> "" ->
  ((exists res w',
      submitQuizAnswers toISOString (VStr k) answers w = (Return res, w'))
   <-> questions quiz <> []
       /\ ~ envelope_violation answers quiz
       /\ selections_valid quiz (entries_of answers)).
Proof.
  intros Hk Hne. rewrite (submitQuizAnswers_run k quiz answers w Hk Hne).
  unfold throw_if.
  destruct (length (questions quiz) =? 0)%nat eqn:E0; simpl.
  { apply EvaluationFacts.length_zero_nil in E0. split.
    - intros (res & w' & [=]).
    - now intros [H _]. }
  assert (Hq : questions quiz <> []).
  { intros H. rewrite H in E0. discriminate. }
  pose proof (validateAnswersFormat_outcome answers quiz) as Hv.
  destruct (validateAnswersFormat answers quiz) as [[]|msg] eqn:Ev; simpl.
  2:{ split; [intros (res & w' & [=]) | intros (_ & H & _); now destruct Hv]. }
  apply validateAnswersFormat_Return_iff in Ev as (entries & -> & _ & Hok & _).
  pose proof (forEach_processAnswer quiz entries 0 [] Hok) as Hp.
  unfold processAnswers. simpl.
  destruct (forEach (processAnswer quiz) entries 0 []) as [rs|msg].
  - destruct Hp as [Hvalid _]. split; [now intros _ | intros _; eauto].
  - destruct Hp as (question & v & (e & He & Hqe & Hin & Hbad) & _).
    split; [intros (res & w' & [=])|]. intros (_ & _ & Hvalid).
    exfalso. apply Hbad. now apply (Hvalid e).
Qed.



(** X13.  The order of the entries of a payload plays no role: when
    [submitQuizAnswers] returns for a payload, it returns for every
    reordering of its entries, with the same score, total, percentage,
    counts, grade and pass mark, and the same results in the new order. *)
Theorem submission_order_is_irrelevant quizId entries entries' w res w' :
  Permutation entries entries' ->
  submitQuizAnswers toISOString quizId (VArr entries) w = (Return res, w') ->
  exists res',
    submitQuizAnswers toISOString quizId (VArr entries') w = (Return res', w')
    /\ stats res' = stats res
    /\ Permutation (results res) (results res')
    /\ submittedAt res' = submittedAt res.
Proof.
  intros Hperm H.
  destruct (submitQuizAnswers_key _ _ _ _ _ H) as (k & quiz & -> & Hne & Hk).
  rewrite (submitQuizAnswers_run k quiz (VArr entries) w Hk Hne) in H.
  rewrite (submitQuizAnswers_run k quiz (VArr entries') w Hk Hne).
  destruct (throw_if _ _) as [[]|msg]; cbn [obind] in H |- *; [|discriminate].
  destruct (validateAnswersFormat (VArr entries) quiz) as [[]|msg] eqn:Ev;
    cbn [obind] in H; [|discriminate].
  apply validateAnswersFormat_Return_iff in Ev
    as (entries0 & [= <-] & Hlen & Hok & Hnd).
  assert (Ev' : validateAnswersFormat (VArr entries') quiz = Return tt).
  { apply validateAnswersFormat_Return_iff. exists entries'.
    split; [reflexivity|]. split; [|split].
    - now rewrite <- (Permutation_length Hperm).
    - apply List.Forall_forall. intros e He.
      apply (proj1 (List.Forall_forall _ _) Hok).
      now apply (Permutation_in _ (Permutation_sym Hperm)).
    - assert (Hp : Permutation (map qid entries) (map qid entries'))
        by now apply Permutation_map.
      now rewrite <- Hp. }
  rewrite Ev'. cbn [obind].
  unfold processAnswers in H |- *.
  destruct (forEach (processAnswer quiz) entries 0 []) as [rs|msg] eqn:Ep;
    [|discriminate].
  apply forEach_processAnswer_alone in Ep as [Hall ->].
  assert (Ep' : forEach (processAnswer quiz) entries' 0 []
                = Return ([] ++ flat_map (graded_alone quiz) entries')).
  { apply forEach_processAnswer_alone. split; [|reflexivity].
    apply List.Forall_forall. intros e He.
    apply (proj1 (List.Forall_forall _ _) Hall).
    now apply (Permutation_in _ (Permutation_sym Hperm)). }
  rewrite Ep'. injection H as <- <-. simpl.
  pose proof (flat_map_Permutation (graded_alone quiz) _ _ Hperm) as Hrs.
  eexists. split; [reflexivity|]. simpl. split; [|split; [exact Hrs | reflexivity]].
  unfold calculateStatistics.
  rewrite (filter_length_Permutation isCorrect _ _ Hrs),
          (Permutation_length Hrs).
  reflexivity.
Qed.

End Submission.

(** ** The verdict depends on the set of selected ids only *)

Section SelectionAsSet.
Import Js JsFacts QuestionModel Evaluation EvaluationFacts.

Lemma allOptionsExist_remains q items :
  allOptionsExist q (uniqueSelected items) = true <->
  forall v, remains items v -> names_option q v.
Proof.
  rewrite allOptionsExist_spec. split.
  - intros H v Hv.
    destruct (fold_set_add_represents (List.filter truthy items) [] v)
      as (y & Hy & Hyv); [now apply filter_In|].
    destruct Hyv as [->|E]; [now apply H|].
    destruct (H y Hy) as (o & Ho & ->).
    apply sameValueZero_str_l in E. subst v. now exists o.
  - intros H v Hv. now apply H, in_uniqueSelected.
Qed.

Lemma uniqueSelected_nil items :
  uniqueSelected items = [] <-> forall v, ~ remains items v.
Proof.
  unfold uniqueSelected. rewrite uniq_nil. split.
  - intros E v Hv. apply filter_In in Hv. now rewrite E in Hv.
  - intros H. destruct (List.filter truthy items) as [|v l] eqn:E; [reflexivity|].
    exfalso. apply (H v), filter_In. rewrite E. now left.
Qed.

Lemma uniqueSelected_Permutation q items items' :
  preamble q items -> preamble q items' ->
  (forall v, remains items v <-> remains items' v) ->
  Permutation (uniqueSelected items) (uniqueSelected items').
Proof.
  intros Hpre Hpre' H.
  rewrite (preamble_selected_strings q items Hpre),
          (preamble_selected_strings q items' Hpre').
  apply Permutation_map, NoDup_Permutation; try apply uniq_nodup.
  assert (Hin : forall its, preamble q its ->
            forall s, s ∈ strings_in (uniqueSelected its) <-> remains its (VStr s)).
  { intros its Hp s. rewrite <- in_uniqueSelected_str, list_elem_of_In.
    rewrite (preamble_selected_strings q its Hp) at 2.
    rewrite in_map_iff. split.
    - intros Hs. now exists s.
    - now intros (s' & [= ->] & Hs). }
  intros s. now rewrite (Hin items Hpre), (Hin items' Hpre'), H.
Qed.

Lemma validators_Permutation sel sel' correct :
  Permutation sel sel' ->
  validateSingleChoice sel correct = validateSingleChoice sel' correct
  /\ validateMultipleChoice sel correct = validateMultipleChoice sel' correct
  /\ validateTextChoice sel correct = validateTextChoice sel' correct.
Proof.
  intros Hp.
  assert (Hin : forall v, In v sel <-> In v sel').
  { intros v. split; apply Permutation_in; [exact Hp | now symmetry]. }
  split; [|split]; apply eq_true_iff_eq.
  - rewrite !validateSingleChoice_spec.
    split; intros (s & -> & Hs); exists s; (split; [|exact Hs]).
    + now apply Permutation_length_1_inv.
    + symmetry in Hp. now apply Permutation_length_1_inv.
  - rewrite !validateMultipleChoice_spec, (Permutation_length Hp).
    split; intros (H1 & H2 & H3); (split; [exact H1|]; split).
    + intros v Hv. now apply H2, Hin.
    + intros s Hs. now apply Hin, H3.
    + intros v Hv. now apply H2, Hin.
    + intros s Hs. now apply Hin, H3.
  - rewrite !validateTextChoice_spec.
    split; intros (s & H1 & H2); exists s; (split; [now apply Hin | exact H2]).
Qed.

(** X14.  The verdict of [isAnswerCorrect] depends only on which truthy
    values the selection contains: two selections with the same truthy
    members get the same verdict, so the order of the selected ids and
    their repetition play no role. *)
Theorem isAnswerCorrect_ignores_order_and_repetition
    (q : Question) (items items' : list value) :
  (forall v, remains items v <-> remains items' v) ->
  isAnswerCorrect q (VArr items) = isAnswerCorrect q (VArr items').
Proof.
  intros H. unfold isAnswerCorrect.
  destruct (length (getCorrectOptionIds q) =? 0)%nat eqn:E1; [reflexivity|].
  assert (E2 : (length (uniqueSelected items) =? 0)%nat
               = (length (uniqueSelected items') =? 0)%nat).
  { apply eq_true_iff_eq. rewrite !length_zero_nil, !uniqueSelected_nil.
    split; intros H0 v Hv; apply (H0 v), H, Hv. }
  rewrite <- E2.
  destruct (length (uniqueSelected items) =? 0)%nat eqn:E3; [reflexivity|].
  assert (E4 : allOptionsExist q (uniqueSelected items)
               = allOptionsExist q (uniqueSelected items')).
  { apply eq_true_iff_eq. rewrite !allOptionsExist_remains.
    split; intros H0 v Hv; apply H0, H, Hv. }
  rewrite <- E4.
  destruct (allOptionsExist q (uniqueSelected items)) eqn:E5; [|reflexivity].
  simpl.
  assert (Hpre : preamble q items).
  { split.
    - destruct (uniqueSelected items) as [|v l] eqn:E; [discriminate|].
      exists v. apply in_uniqueSelected. rewrite E. now left.
    - now apply allOptionsExist_remains.
    - destruct (getCorrectOptionIds q) as [|s l] eqn:E; [discriminate|].
      exists s. apply in_correct_ids. rewrite E. now left. }
  assert (Hpre' : preamble q items').
  { destruct Hpre as [(v & Hv) Hall Hc]. split; [|intros v' Hv'|exact Hc].
    - exists v. now apply H.
    - now apply Hall, H. }
  destruct (validators_Permutation _ _ (getCorrectOptionIds q)
              (uniqueSelected_Permutation q items items' Hpre Hpre' H))
    as (-> & -> & ->).
  reflexivity.
Qed.

End SelectionAsSet.

Lemma isAnswerCorrect_ignores_order_and_repetition_witness :
  (forall v, Evaluation.remains [Js.VStr "id-7"; Js.VNull; Js.VStr "id-6"; Js.VStr "id-7"] v
             <-> Evaluation.remains [Js.VStr "id-6"; Js.VStr "id-7"] v)
  /\ QuestionModel.isAnswerCorrect Scenario.primes_question
       (Js.VArr [Js.VStr "id-7"; Js.VNull; Js.VStr "id-6"; Js.VStr "id-7"])
     = QuestionModel.isAnswerCorrect Scenario.primes_question
         (Js.VArr [Js.VStr "id-6"; Js.VStr "id-7"]).
Proof.
  assert (H : forall v,
            Evaluation.remains [Js.VStr "id-7"; Js.VNull; Js.VStr "id-6"; Js.VStr "id-7"] v
            <-> Evaluation.remains [Js.VStr "id-6"; Js.VStr "id-7"] v).
  { intros v. unfold Evaluation.remains. simpl. split.
    - intros [[<-|[<-|[<-|[<-|[]]]]] Ht]; try discriminate; tauto.
    - intros [[<-|[<-|[]]] Ht]; tauto. }
  split; [exact H|].
  exact (isAnswerCorrect_ignores_order_and_repetition Scenario.primes_question _ _ H).
Defined.

(** ** The two ends of the scale *)

Section ScaleEnds.
Import Js QuizService Binary64 Binary64Facts.
Local Open Scope Z_scope.

(** [n / n] is 1. *)
Lemma div_self n :
  0 < n < 2 ^ 53 ->
  div (of_Z n) (of_Z n) = S754_finite false 4503599627370496 (-52).
Proof.
  intros Hn. destruct (of_Z_exact n Hn) as (m & e & -> & Hd & He & Hm).
  unfold div, SFdiv, SFdiv_core_binary. simpl Zdigits2. rewrite Hd.
  replace (Z.min (fexp prec emax (prec + e - (prec + e))) (e - e)) with (-53)
    by (unfold fexp, emin, prec, emax; lia).
  replace (e - e - -53) with 53 by lia.
  rewrite Z.shiftl_mul_pow2 by lia.
  assert (E : Z.div_eucl (Zpos m * 2 ^ 53) (Zpos m) = (2 ^ 53, 0)).
  { pose proof (Z_div_mod (Zpos m * 2 ^ 53) (Zpos m) ltac:(lia)) as H.
    destruct (Z.div_eucl (Zpos m * 2 ^ 53) (Zpos m)) as [q r].
    destruct H as [Hq Hr].
    assert (q = 2 ^ 53) by nia. subst q. f_equal. lia. }
  rewrite E.
  destruct (new_location_cases (Zpos m) 0) as [[_ ->]|[Hne _]]; [|now destruct Hne].
  reflexivity.
Qed.

(** [0 / n] is 0. *)
Lemma div_zero n :
  0 < n < 2 ^ 53 -> div (of_Z 0) (of_Z n) = S754_zero false.
Proof.
  intros Hn. destruct (of_Z_exact n Hn) as (m & e & -> & _). reflexivity.
Qed.

(** X15.  A full score.  For a quiz of fewer than 2^53 questions, when
    the number of correct results is the number of questions, the
    percentage is 100, the grade is A and the submission has passed. *)
Theorem full_score_is_100 (results : list QuestionResult) (totalQuestions : Z) :
  0 < totalQuestions < 2 ^ 53 ->
  score (calculateStatistics results totalQuestions) = totalQuestions ->
  percentage (calculateStatistics results totalQuestions) = 100
  /\ grade (calculateStatistics results totalQuestions) = "A"%string
  /\ passed (calculateStatistics results totalQuestions) = true.
Proof.
  intros Ht. unfold calculateStatistics. simpl.
  replace (0 <? totalQuestions) with true by (symmetry; apply Z.ltb_lt; lia).
  intros ->. rewrite (div_self _ Ht). repeat split.
Qed.

(** X16.  No score.  For a quiz of fewer than 2^53 questions, when no
    result is correct, the percentage is 0, the grade is F and the
    submission has not passed. *)
Theorem no_score_is_0 (results : list QuestionResult) (totalQuestions : Z) :
  0 < totalQuestions < 2 ^ 53 ->
  score (calculateStatistics results totalQuestions) = 0 ->
  percentage (calculateStatistics results totalQuestions) = 0
  /\ grade (calculateStatistics results totalQuestions) = "F"%string
  /\ passed (calculateStatistics results totalQuestions) = false.
Proof.
  intros Ht. unfold calculateStatistics. simpl.
  replace (0 <? totalQuestions) with true by (symmetry; apply Z.ltb_lt; lia).
  intros ->. rewrite (div_zero _ Ht). repeat split.
Qed.

End ScaleEnds.

Lemma full_score_is_100_witness :
  ((0 < 2 < 2 ^ 53)%Z
   /\ score (QuizService.calculateStatistics (results Scenario.graded) 2) = 2%Z)
  /\ percentage (QuizService.calculateStatistics (results Scenario.graded) 2) = 100%Z
  /\ grade (QuizService.calculateStatistics (results Scenario.graded) 2) = "A"
  /\ passed (QuizService.calculateStatistics (results Scenario.graded) 2) = true.
Proof.
  assert (H1 : (0 < 2 < 2 ^ 53)%Z) by (split; reflexivity).
  assert (H2 : score (QuizService.calculateStatistics (results Scenario.graded) 2)
               = 2%Z) by (vm_compute; reflexivity).
  split; [split; assumption|].
  exact (full_score_is_100 (results Scenario.graded) 2 H1 H2).
Defined.

Lemma no_score_is_0_witness :
  ((0 < 3 < 2 ^ 53)%Z
   /\ score (QuizService.calculateStatistics [] 3) = 0%Z)
  /\ percentage (QuizService.calculateStatistics [] 3) = 0%Z
  /\ grade (QuizService.calculateStatistics [] 3) = "F"
  /\ passed (QuizService.calculateStatistics [] 3) = false.
Proof.
  assert (H1 : (0 < 3 < 2 ^ 53)%Z) by (split; reflexivity).
  assert (H2 : score (QuizService.calculateStatistics [] 3) = 0%Z)
    by (vm_compute; reflexivity).
  split; [split; assumption|].
  exact (no_score_is_0 [] 3 H1 H2).
Defined.

(** ** Identifiers in the reachable worlds *)

Section Growth.
Import Js QuizService.
Variable uuidv4 : nat -> string.
Variable toISOString : nat -> string.

Lemma grows_ret {A} (a : A) : grows (ret a).
Proof. intros w. simpl. lia. Qed.

Lemma grows_throw {A} msg : grows (@throw A msg).
Proof. intros w. simpl. lia. Qed.

Lemma grows_lift {A} (o : outcome A) : grows (lift o).
Proof. intros w. simpl. lia. Qed.

Lemma grows_bind {A B} (c : M A) (k : A -> M B) :
  grows c -> (forall a, grows (k a)) -> grows (bind c k).
Proof.
  intros Hc Hk w. unfold bind. specialize (Hc w).
  destruct (c w) as [[a|msg] w1]; simpl in *; [|exact Hc].
  specialize (Hk a w1). lia.
Qed.

Lemma grows_get_quizzes : grows get_quizzes.
Proof. intros w. simpl. lia. Qed.

Lemma grows_modify_quizzes f : grows (modify_quizzes f).
Proof. intros w. simpl. lia. Qed.

Lemma grows_draw_uuid : grows (draw_uuid uuidv4).
Proof. intros w. simpl. lia. Qed.

Lemma grows_read_clock : grows (read_clock toISOString).
Proof. intros w. simpl. lia. Qed.

Lemma grows_forEachM {A S} (f : S -> A -> nat -> M S) arr :
  (forall s x i, grows (f s x i)) -> forall i s, grows (forEachM f arr i s).
Proof.
  intros Hf. induction arr as [|x arr IH]; intros i s; simpl.
  - apply grows_ret.
  - apply grows_bind; [apply Hf | intros s'; apply IH].
Qed.

(** Solves [grows c] for a computation made of the primitives above. *)
Ltac growth_step :=
  match goal with
  | |- grows (bind _ _) => apply grows_bind; [|intros ?]
  | |- grows (ret _) => apply grows_ret
  | |- grows (throw _) => apply grows_throw
  | |- grows (lift _) => apply grows_lift
  | |- grows get_quizzes => apply grows_get_quizzes
  | |- grows (modify_quizzes _) => apply grows_modify_quizzes
  | |- grows (map_update _ _) => apply grows_modify_quizzes
  | |- grows (draw_uuid _) => apply grows_draw_uuid
  | |- grows (read_clock _) => apply grows_read_clock
  | |- grows (forEachM _ _ _ _) => apply grows_forEachM; intros ? ? ?
  | |- grows (match ?x with _ => _ end) => destruct x
  | |- grows (if ?b then _ else _) => destruct b
  | |- grows (let (_, _) := ?p in _) => destruct p
  end.

Ltac growth := repeat growth_step.

Lemma grows_getQuiz quizId : grows (getQuiz quizId).
Proof. intros w. rewrite pure_read_getQuiz. lia. Qed.

Lemma grows_addQuestion quizId data :
  grows (addQuestion uuidv4 toISOString quizId data).
Proof.
  unfold addQuestion. apply grows_bind; [apply grows_getQuiz|]. intros quiz.
  unfold Question_new, addOptionsToQuestion, addOptionData, Question_addOption,
    Quiz_addQuestion.
  growth.
Qed.

Lemma grows_createQuiz t : grows (createQuiz uuidv4 toISOString t).
Proof. unfold createQuiz, Quiz_new. growth. Qed.

Lemma grows_submitQuizAnswers quizId answers :
  grows (submitQuizAnswers toISOString quizId answers).
Proof.
  unfold submitQuizAnswers. apply grows_bind; [apply grows_getQuiz|]. intros quiz.
  growth.
Qed.

Lemma grows_deleteQuiz quizId : grows (deleteQuiz quizId).
Proof.
  unfold deleteQuiz. apply grows_bind; [apply grows_getQuiz|]. intros quiz.
  growth.
Qed.

Lemma grows_updateQuizTitle quizId newTitle :
  grows (updateQuizTitle toISOString quizId newTitle).
Proof.
  unfold updateQuizTitle. apply grows_bind; [apply grows_getQuiz|]. intros quiz.
  growth.
Qed.

Lemma run_grows c w : uuids_drawn w <= uuids_drawn (run uuidv4 toISOString c w).
Proof.
  destruct c; unfold run.
  - apply grows_createQuiz.
  - apply grows_getQuiz.
  - apply grows_addQuestion.
  - rewrite pure_read_getQuizQuestions. lia.
  - apply grows_submitQuizAnswers.
  - apply grows_deleteQuiz.
  - simpl. lia.
  - simpl. lia.
  - apply grows_updateQuizTitle.
Qed.

End Growth.

Section Identifiers.
Import Js JsFacts QuizService QuestionModel QuizModel Identity Payload.
Variable uuidv4 : nat -> string.
Variable toISOString : nat -> string.

Ltac unchanged H :=
  let quiz0 := fresh "quiz" in
  right; destruct H as (quiz0 & ? & ? & ? & ?); exists quiz0; auto.

(** What a call does to one entry of the map: the entry is new, made by
    [createQuiz] under the id just drawn, or it was there, with the same
    id, creation time and questions, or with one more question that
    [addQuestion] returned. *)
Lemma run_entry c w k quiz' :
  quizzes (run uuidv4 toISOString c w) !! k = Some quiz' ->
  (exists t, c = CreateQuiz t /\ k = uuidv4 (uuids_drawn w)
             /\ quiz_id quiz' = k /\ questions quiz' = []
             /\ uuids_drawn w < uuids_drawn (run uuidv4 toISOString c w))
  \/ exists quiz,
       quizzes w !! k = Some quiz
       /\ quiz_id quiz' = quiz_id quiz
       /\ createdAt quiz' = createdAt quiz
       /\ (questions quiz' = questions quiz
           \/ exists quizId data q,
                c = AddQuestion quizId data
                /\ addQuestion uuidv4 toISOString quizId data w
                   = (Return q, run uuidv4 toISOString c w)
                /\ questions quiz' = questions quiz ++ [q]).
Proof.
  assert (Hsame : forall w', quizzes w' = quizzes w ->
            quizzes w' !! k = Some quiz' ->
            exists quiz, quizzes w !! k = Some quiz
              /\ quiz_id quiz' = quiz_id quiz /\ createdAt quiz' = createdAt quiz
              /\ questions quiz' = questions quiz).
  { intros w' E H. rewrite E in H. exists quiz'. auto. }
  destruct c; unfold run.
  - pose proof (createQuiz_outcome uuidv4 toISOString title_ w) as H.
    destruct (createQuiz uuidv4 toISOString title_ w) as [[quiz|msg] w'] eqn:E.
    + destruct H as (s & -> & Hlen & Hq & ->). simpl. intros Hk.
      destruct (decide (quiz_id quiz = k)) as [<-|Hne].
      * rewrite lookup_insert_eq in Hk. injection Hk as <-. left.
        exists (VStr s). subst quiz. simpl. repeat split. lia.
      * rewrite lookup_insert_ne in Hk by exact Hne. right. exists quiz'. auto.
    + destruct H as (-> & _). intros Hk. right. exists quiz'. auto.
  - intros Hk. unchanged (Hsame _ (keeps_getQuiz quizId w) Hk).
  - destruct (addQuestion uuidv4 toISOString quizId questionData w)
      as [r w'] eqn:E.
    pose proof E as Hrun.
    apply addQuestion_run in Hrun
      as [[_ Hq]|(k0 & quiz & q & u & -> & Hk0 & _ & _ & -> & Hq)].
    + intros Hk. unchanged (Hsame _ Hq Hk).
    + simpl. rewrite Hq. intros Hk. right.
      destruct (decide (k0 = k)) as [->|Hne].
      * rewrite lookup_insert_eq in Hk. injection Hk as <-.
        exists quiz. repeat split; try assumption. right.
        exists (VStr k), questionData, q. repeat split. simpl. now rewrite E.
      * rewrite lookup_insert_ne in Hk by exact Hne. exists quiz'. auto.
  - intros Hk. unchanged (Hsame _ (keeps_getQuizQuestions quizId w) Hk).
  - intros Hk.
    unchanged (Hsame _ (keeps_submitQuizAnswers toISOString quizId answers w) Hk).
  - destruct (deleteQuiz_effect quizId w) as [Hq|(k0 & _ & Hq)].
    + intros Hk. unchanged (Hsame _ Hq Hk).
    + rewrite Hq. intros Hk. right.
      destruct (decide (k0 = k)) as [->|Hne].
      * rewrite lookup_delete_eq in Hk. discriminate.
      * rewrite lookup_delete_ne in Hk by exact Hne. exists quiz'. auto.
  - simpl. rewrite lookup_empty. discriminate.
  - intros Hk. unchanged (Hsame _ (keeps_getQuizCount w) Hk).
  - destruct (updateQuizTitle_effect toISOString quizId newTitle w)
      as [Hq|(k0 & quiz & s & u & _ & Hk0 & _ & _ & Hq)].
    + intros Hk. unchanged (Hsame _ Hq Hk).
    + rewrite Hq. intros Hk. right.
      destruct (decide (k0 = k)) as [->|Hne].
      * rewrite lookup_insert_eq in Hk. injection Hk as <-.
        exists quiz. repeat split; try assumption. now left.
      * rewrite lookup_insert_ne in Hk by exact Hne. exists quiz'. auto.
Qed.

(** Every stored question was returned by a call of [addQuestion]. *)
Lemma reachable_questions_added (P : Question -> Prop) :
  (forall quizId data w q w',
     addQuestion uuidv4 toISOString quizId data w = (Return q, w') -> P q) ->
  forall w, reachable uuidv4 toISOString w ->
  forall k quiz q, quizzes w !! k = Some quiz -> In q (questions quiz) -> P q.
Proof.
  intros HP w Hw. induction Hw as [|c w Hw IH]; intros k quiz' q Hk Hq.
  - simpl in Hk. rewrite lookup_empty in Hk. discriminate.
  - apply run_entry in Hk
      as [(t & _ & _ & _ & Hnil & _)|(quiz & Hk & _ & _ & [E|(i & d & q' & _ & Hadd & E)])].
    + rewrite Hnil in Hq. destruct Hq.
    + rewrite E in Hq. now apply (IH k quiz).
    + rewrite E in Hq. apply in_app_iff in Hq as [Hq|[<-|[]]].
      * now apply (IH k quiz).
      * now apply HP in Hadd.
Qed.

Lemma reachable_stored_under_id w :
  reachable uuidv4 toISOString w ->
  forall k quiz, quizzes w !! k = Some quiz -> quiz_id quiz = k.
Proof.
  intros Hw. induction Hw as [|c w Hw IH]; intros k quiz' Hk.
  - simpl in Hk. rewrite lookup_empty in Hk. discriminate.
  - apply run_entry in Hk as [(t & _ & _ & E & _)|(quiz & Hk & E & _)].
    + exact E.
    + rewrite E. now apply IH.
Qed.

Lemma drawn_mono w w' id :
  uuids_drawn w <= uuids_drawn w' -> drawn uuidv4 w id -> drawn uuidv4 w' id.
Proof. intros Hle (i & Hi & ->). exists i. split; [lia | reflexivity]. Qed.

(** The ids in the store have been handed out by the generator. *)
Lemma reachable_ids_drawn w :
  reachable uuidv4 toISOString w ->
  (forall k quiz, quizzes w !! k = Some quiz -> drawn uuidv4 w k)
  /\ (forall k quiz q, quizzes w !! k = Some quiz -> In q (questions quiz) ->
        drawn uuidv4 w (q_id q)).
Proof.
  intros Hw. induction Hw as [|c w Hw [IH2 IH3]].
  - split; [intros k quiz Hk|intros k quiz q Hk _];
      simpl in Hk; rewrite lookup_empty in Hk; discriminate.
  - pose proof (run_grows uuidv4 toISOString c w) as Hle. split.
    + intros k quiz' Hk.
      apply run_entry in Hk as [(t & _ & -> & _ & _ & Hlt)|(quiz & Hk & _)].
      * now exists (uuids_drawn w).
      * apply (drawn_mono w); [exact Hle | now apply (IH2 k quiz)].
    + intros k quiz' q Hk Hq.
      apply run_entry in Hk
        as [(t & _ & _ & _ & Hnil & _)|(quiz & Hk & _ & _ & [E|(i & d & q' & _ & Hadd & E)])].
      * rewrite Hnil in Hq. destruct Hq.
      * rewrite E in Hq. apply (drawn_mono w); [exact Hle | now apply (IH3 k quiz)].
      * rewrite E in Hq. apply in_app_iff in Hq as [Hq|[<-|[]]].
        -- apply (drawn_mono w); [exact Hle | now apply (IH3 k quiz)].
        -- apply addQuestion_built in Hadd
             as (k1 & quiz1 & t1 & items & _ & _ & _ & _ & _ & _ & _ & _ & _ & _ & -> & _ & Hw').
           exists (uuids_drawn w). rewrite Hw'. simpl. split; [lia | reflexivity].
Qed.

Lemma reachable_consistent w :
  never_repeats uuidv4 ->
  reachable uuidv4 toISOString w -> consistent uuidv4 w.
Proof.
  intros Hinj Hw. induction Hw as [|c w Hw IH].
  - split;
      [intros k quiz Hk|intros k quiz Hk|intros k quiz q Hk _|intros k quiz Hk];
      simpl in Hk; rewrite lookup_empty in Hk; discriminate.
  - pose proof (reachable_ids_drawn _ (reachable_step _ _ c w Hw)) as [H2 H3].
    destruct IH as [IH1 IH2 IH3 IH4]. split.
    + now apply reachable_stored_under_id, reachable_step.
    + exact H2.
    + exact H3.
    + intros k quiz' Hk.
      apply run_entry in Hk
        as [(t & _ & _ & _ & Hnil & _)|(quiz & Hk & _ & _ & [E|(i & d & q' & _ & Hadd & E)])].
      * rewrite Hnil. apply NoDup_nil_2.
      * rewrite E. now apply (IH4 k).
      * rewrite E, map_app. apply NoDup_app. split; [now apply (IH4 k)|]. split.
        -- intros id Hid Hid'. apply list_elem_of_In in Hid, Hid'.
           destruct Hid' as [<-|[]].
           apply in_map_iff in Hid as (q0 & E0 & Hq0).
           destruct (IH3 k quiz q0 Hk Hq0) as (j & Hj & Ej).
           apply addQuestion_built in Hadd
             as (k1 & quiz1 & t1 & items & _ & _ & _ & _ & _ & _ & _ & _ & _ & _ & -> & _).
           simpl in E0. rewrite Ej in E0. apply Hinj in E0. lia.
        -- apply NoDup_cons. split; [apply not_elem_of_nil | apply NoDup_nil_2].
Qed.

Lemma find_unique_id (qs : list Question) q :
  NoDup (map q_id qs) -> In q qs ->
  List.find (fun q0 => strict_equal (VStr (q_id q0)) (VStr (q_id q))) qs = Some q.
Proof.
  induction qs as [|a qs IH]; simpl; intros Hnd Hq; [destruct Hq|].
  apply NoDup_cons in Hnd as [Ha Hnd].
  destruct Hq as [->|Hq]; [now rewrite String.eqb_refl|].
  destruct (q_id a =? q_id q) eqn:E; [|now apply IH].
  apply String.eqb_eq in E. exfalso. apply Ha. rewrite E.
  apply list_elem_of_In, in_map. exact Hq.
Qed.

Lemma built_options_nodup n items :
  never_repeats uuidv4 ->
  NoDup (uuidv4 n :: map opt_id (built_options uuidv4 (S n) items)).
Proof.
  intros Hinj. rewrite built_options_ids.
  change (NoDup (map uuidv4 (seq n (S (length items))))).
  apply NoDup_fmap_2; [exact Hinj | apply NoDup_seq].
Qed.

(** X17.  In a reachable world every quiz is stored under its own id,
    and when the generator never returns the empty string, [getQuiz] with
    the id of a stored quiz returns that quiz. *)
Theorem stored_quiz_is_read_back w k quiz :
  (forall n, uuidv4 n <> "") ->
  reachable uuidv4 toISOString w ->
  quizzes w !! k = Some quiz ->
  quiz_id quiz = k
  /\ getQuiz (VStr (quiz_id quiz)) w = (Return quiz, w).
Proof.
  intros Hne Hw Hk.
  pose proof (reachable_stored_under_id w Hw k quiz Hk) as E.
  split; [exact E|]. rewrite E.
  destruct (proj1 (reachable_ids_drawn w Hw) k quiz Hk) as (i & _ & ->).
  apply getQuiz_lookup; [|exact Hk].
  apply validateQuizId_str, Hne.
Qed.

(** X18.  In a reachable world every stored question was built by
    [addQuestion] from a payload it accepted: there is a payload that the
    question reflects (texts trimmed and within bounds, 1 to 10 options
    with different texts), and the question passes [validate]. *)
Theorem stored_questions_reflect_a_payload w k quiz q :
  reachable uuidv4 toISOString w ->
  quizzes w !! k = Some quiz ->
  In q (questions quiz) ->
  (exists data, built_from data q) /\ validate q = Return true.
Proof.
  intros Hw Hk Hq.
  apply (reachable_questions_added
           (fun q => (exists data, built_from data q) /\ validate q = Return true))
    with w k quiz; try assumption.
  clear. intros quizId data w q w' H. split.
  - exists data. now apply (addQuestion_built_from uuidv4 toISOString quizId data w q w').
  - apply addQuestion_built in H
      as (k1 & quiz1 & t1 & items & _ & _ & _ & _ & _ & _ & _ & _ & _ & _ & _ & Hv & _).
    exact Hv.
Qed.

(** X19.  With a generator that never returns an id twice, every question
    stored in a reachable world has options with pairwise different ids,
    none of them the id of the question. *)
Theorem stored_option_ids_differ w k quiz q :
  never_repeats uuidv4 ->
  reachable uuidv4 toISOString w ->
  quizzes w !! k = Some quiz ->
  In q (questions quiz) ->
  Evaluation.unique_option_ids q
  /\ ~ In (q_id q) (map opt_id (q_options q)).
Proof.
  intros Hinj Hw Hk Hq.
  apply (reachable_questions_added
           (fun q => Evaluation.unique_option_ids q
                     /\ ~ In (q_id q) (map opt_id (q_options q))))
    with w k quiz; try assumption.
  clear -Hinj. intros quizId data w q w' H.
  apply addQuestion_built in H
    as (k1 & quiz1 & t1 & items & _ & _ & _ & _ & _ & _ & _ & _ & _ & _ & -> & _).
  unfold Evaluation.unique_option_ids. simpl.
  pose proof (built_options_nodup (uuids_drawn w) items Hinj) as Hnd.
  apply NoDup_cons in Hnd as [Hfresh Hnd]. split; [exact Hnd|].
  intros Hin. apply Hfresh. now apply list_elem_of_In.
Qed.

(** X20.  With a generator that never returns an id twice, the questions
    of a quiz stored in a reachable world have pairwise different ids, and
    [findQuestionById] with the id of a stored question returns that
    question. *)
Theorem stored_question_is_found_by_id w k quiz q :
  never_repeats uuidv4 ->
  reachable uuidv4 toISOString w ->
  quizzes w !! k = Some quiz ->
  In q (questions quiz) ->
  NoDup (map q_id (questions quiz))
  /\ findQuestionById quiz (VStr (q_id q)) = Some q.
Proof.
  intros Hinj Hw Hk Hq.
  pose proof (question_ids_differ _ _ (reachable_consistent w Hinj Hw) k quiz Hk) as Hnd.
  split; [exact Hnd|]. now apply find_unique_id.
Qed.

(** X21.  With a generator that never returns an id twice, no call of the
    service alters or removes a question of a stored quiz: a quiz that is
    in a reachable world and still there after a call has the same id and
    creation time, and the same questions, or these and one more at the
    end. *)
Theorem calls_keep_stored_questions c w k quiz quiz' :
  never_repeats uuidv4 ->
  reachable uuidv4 toISOString w ->
  quizzes w !! k = Some quiz ->
  quizzes (run uuidv4 toISOString c w) !! k = Some quiz' ->
  quiz_id quiz' = quiz_id quiz
  /\ createdAt quiz' = createdAt quiz
  /\ (questions quiz' = questions quiz
      \/ exists q, questions quiz' = questions quiz ++ [q]).
Proof.
  intros Hinj Hw Hk Hk'.
  apply run_entry in Hk'
    as [(t & _ & -> & _ & _ & _)|(quiz0 & Hk0 & E1 & E2 & [E|(i & d & q & _ & _ & E)])].
  - exfalso. destruct (proj1 (reachable_ids_drawn w Hw) _ quiz Hk) as (i & Hi & E).
    apply Hinj in E. lia.
  - rewrite Hk in Hk0. injection Hk0 as <-. auto.
  - rewrite Hk in Hk0. injection Hk0 as <-. eauto.
Qed.

End Identifiers.

Lemma uuids_never_repeat : Identity.never_repeats Scenario.uuids.
Proof.
  intros i j E. unfold Scenario.uuids, Scenario.decimal in E.
  simpl in E. injection E as E.
  change (NilZero.string_of_uint (Nat.to_uint i)
          = NilZero.string_of_uint (Nat.to_uint j)) in E.
  assert (H : forall n, NilZero.uint_of_string (NilZero.string_of_uint (Nat.to_uint n))
                        = Some (Nat.to_uint n)).
  { intros n. apply NilZero.usu.
    rewrite <- (DecimalNat.Unsigned.of_to n), DecimalNat.Unsigned.to_of.
    apply DecimalFacts.unorm_nonnil. }
  apply DecimalNat.Unsigned.to_uint_inj.
  pose proof (H i) as Hi. rewrite E, H in Hi. now injection Hi.
Qed.

Lemma uuids_not_empty n : Scenario.uuids n <> "".
Proof. discriminate. Qed.

Lemma with_questions_reachable :
  reachable Scenario.uuids Scenario.clock Scenario.with_questions.
Proof.
  unfold Scenario.with_questions, Scenario.with_quiz.
  do 4 apply reachable_step. apply reachable_initial.
Qed.

Lemma with_questions_full_quiz :
  quizzes Scenario.with_questions !! "id-0" = Some Scenario.full_quiz.
Proof. vm_compute. reflexivity. Qed.

Lemma primes_in_full_quiz :
  In Scenario.primes_question (questions Scenario.full_quiz).
Proof. right. left. reflexivity. Qed.

Lemma stored_quiz_is_read_back_witness :
  ((forall n, Scenario.uuids n <> "")
   /\ reachable Scenario.uuids Scenario.clock Scenario.with_questions
   /\ quizzes Scenario.with_questions !! "id-0" = Some Scenario.full_quiz)
  /\ quiz_id Scenario.full_quiz = "id-0"
  /\ getQuiz (Js.VStr (quiz_id Scenario.full_quiz)) Scenario.with_questions
     = (Return Scenario.full_quiz, Scenario.with_questions).
Proof.
  split.
  - split; [exact uuids_not_empty|].
    split; [exact with_questions_reachable | exact with_questions_full_quiz].
  - exact (stored_quiz_is_read_back Scenario.uuids Scenario.clock _ _ _
             uuids_not_empty with_questions_reachable with_questions_full_quiz).
Defined.

Lemma stored_questions_reflect_a_payload_witness :
  (reachable Scenario.uuids Scenario.clock Scenario.with_questions
   /\ quizzes Scenario.with_questions !! "id-0" = Some Scenario.full_quiz
   /\ In Scenario.primes_question (questions Scenario.full_quiz))
  /\ (exists data, Payload.built_from data Scenario.primes_question)
  /\ QuestionModel.validate Scenario.primes_question = Return true.
Proof.
  split.
  - split; [exact with_questions_reachable|].
    split; [exact with_questions_full_quiz | exact primes_in_full_quiz].
  - exact (stored_questions_reflect_a_payload Scenario.uuids Scenario.clock _ _ _ _
             with_questions_reachable with_questions_full_quiz primes_in_full_quiz).
Defined.

Lemma stored_option_ids_differ_witness :
  (Identity.never_repeats Scenario.uuids
   /\ reachable Scenario.uuids Scenario.clock Scenario.with_questions
   /\ quizzes Scenario.with_questions !! "id-0" = Some Scenario.full_quiz
   /\ In Scenario.primes_question (questions Scenario.full_quiz))
  /\ Evaluation.unique_option_ids Scenario.primes_question
  /\ ~ In (q_id Scenario.primes_question)
          (map opt_id (q_options Scenario.primes_question)).
Proof.
  split.
  - split; [exact uuids_never_repeat|]. split; [exact with_questions_reachable|].
    split; [exact with_questions_full_quiz | exact primes_in_full_quiz].
  - exact (stored_option_ids_differ Scenario.uuids Scenario.clock _ _ _ _
             uuids_never_repeat with_questions_reachable with_questions_full_quiz
             primes_in_full_quiz).
Defined.

Lemma stored_question_is_found_by_id_witness :
  (Identity.never_repeats Scenario.uuids
   /\ reachable Scenario.uuids Scenario.clock Scenario.with_questions
   /\ quizzes Scenario.with_questions !! "id-0" = Some Scenario.full_quiz
   /\ In Scenario.primes_question (questions Scenario.full_quiz))
  /\ NoDup (map q_id (questions Scenario.full_quiz))
  /\ QuizModel.findQuestionById Scenario.full_quiz
       (Js.VStr (q_id Scenario.primes_question))
     = Some Scenario.primes_question.
Proof.
  split.
  - split; [exact uuids_never_repeat|]. split; [exact with_questions_reachable|].
    split; [exact with_questions_full_quiz | exact primes_in_full_quiz].
  - exact (stored_question_is_found_by_id Scenario.uuids Scenario.clock _ _ _ _
             uuids_never_repeat with_questions_reachable with_questions_full_quiz
             primes_in_full_quiz).
Defined.

(** ** Removing a question *)

Section Removal.
Import Js JsFacts QuizModel QuizMethods.
Variable toISOString : nat -> string.

Lemma findIndex_Some {A} (p : A -> bool) l i :
  findIndex p l = Some i ->
  exists before x after,
    l = before ++ x :: after /\ length before = i /\ p x = true
    /\ (forall y, In y before -> p y = false).
Proof.
  revert i. induction l as [|a l IH]; simpl; intros i; [discriminate|].
  destruct (p a) eqn:Ea.
  - intros [= <-]. exists [], a, l. repeat split; [exact Ea | now intros y []].
  - destruct (findIndex p l) as [j|]; [|discriminate]. intros [= <-].
    destruct (IH j eq_refl) as (before & x & after & -> & Hlen & Hx & Hb).
    exists (a :: before), x, after. simpl. repeat split; try congruence.
    intros y [<-|Hy]; [exact Ea | now apply Hb].
Qed.

Lemma findIndex_None {A} (p : A -> bool) l :
  findIndex p l = None -> forall y, In y l -> p y = false.
Proof.
  induction l as [|a l IH]; simpl; [now intros _ y []|].
  destruct (p a) eqn:Ea; [discriminate|].
  destruct (findIndex p l); [discriminate|].
  intros _ y [<-|Hy]; [exact Ea | now apply IH].
Qed.

Lemma splice1_middle {A} (before : list A) x after :
  splice1 (length before) (before ++ x :: after) = before ++ after.
Proof.
  unfold splice1. rewrite firstn_app, firstn_all, Nat.sub_diag. simpl.
  rewrite app_nil_r. f_equal.
  change (S (length before)) with (1 + length before).
  rewrite <- (length_app [x] before) at 1.
  induction before as [|b before IH]; [reflexivity|]. exact IH.
Qed.

(** X22.  [removeQuestion] removes the first question that has the id and
    nothing else.  When it returns [true], the questions before and after
    that question are left in their order, the id, title and creation time
    of the quiz are as before, and the clock is read once for [updatedAt];
    if the ids of the questions were pairwise different, the id is then
    found no more.  When no question has the id it returns [false] and
    changes neither the quiz nor the world.  It never throws. *)
Theorem removeQuestion_removes_first_match (this : Quiz) (questionId : value) (w : World) :
  match Quiz_removeQuestion toISOString this questionId w with
  | (Return (true, quiz'), w') =>
      exists before q after,
        questions this = before ++ q :: after
        /\ questionId = VStr (q_id q)
        /\ (forall q0, In q0 before -> q_id q0 <> q_id q)
        /\ quiz' = {| quiz_id := quiz_id this; title := title this;
                      questions := before ++ after;
                      createdAt := createdAt this;
                      updatedAt := toISOString (clock_reads w) |}
        /\ w' = {| quizzes := quizzes w; uuids_drawn := uuids_drawn w;
                   clock_reads := S (clock_reads w) |}
        /\ (NoDup (map q_id (questions this)) ->
            findQuestionById quiz' questionId = None)
  | (Return (false, quiz'), w') =>
      quiz' = this /\ w' = w
      /\ (forall q, In q (questions this) -> questionId <> VStr (q_id q))
      /\ findQuestionById this questionId = None
  | (Throw _, _) => False
  end.
Proof.
  unfold Quiz_removeQuestion.
  destruct (findIndex _ (questions this)) as [index|] eqn:E.
  - apply findIndex_Some in E as (before & q & after & Eq & <- & Hq & Hb).
    apply strict_equal_str in Hq. cbn. exists before, q, after.
    rewrite Eq, splice1_middle. repeat split; try assumption.
    + intros q0 Hq0 E0. apply Hb in Hq0. rewrite Hq, E0 in Hq0. simpl in Hq0.
      now rewrite String.eqb_refl in Hq0.
    + intros Hnd. unfold findQuestionById. simpl.
      destruct (List.find _ (before ++ after)) as [q1|] eqn:Ef; [|reflexivity].
      exfalso. apply find_some in Ef as [Hin Hid].
      rewrite Hq in Hid. simpl in Hid. apply String.eqb_eq in Hid.
      rewrite map_app in Hnd. simpl in Hnd.
      apply NoDup_app in Hnd as (_ & Hdisj & Hnd).
      apply NoDup_cons in Hnd as [Hq1 _].
      apply in_app_iff in Hin as [Hin|Hin].
      * apply (Hdisj (q_id q)).
        -- rewrite <- Hid. now apply list_elem_of_In, in_map.
        -- apply list_elem_of_In. now left.
      * apply Hq1. rewrite <- Hid. now apply list_elem_of_In, in_map.
  - cbn. pose proof (findIndex_None _ _ E) as Hnone.
    repeat split.
    + intros q Hq ->. apply Hnone in Hq. simpl in Hq.
      now rewrite String.eqb_refl in Hq.
    + unfold findQuestionById.
      destruct (List.find _ (questions this)) as [q|] eqn:Ef; [|reflexivity].
      apply find_some in Ef as [Hin Hid]. apply Hnone in Hin. congruence.
Qed.

End Removal.

(** ** The questions a participant reads *)

Section PublicQuestions.
Import Js JsFacts QuizService QuestionModel QuizModel.


End PublicQuestions.

(** ** The payloads [addQuestion] accepts *)

Section PayloadAcceptance.
Import Js JsFacts QuizService QuestionModel Payload Acceptance.
Import Validation ValidationFacts.
Variable uuidv4 : nat -> string.
Variable toISOString : nat -> string.

Lemma trim_nonempty t : 1 <= String.length (trim t) -> (t =? "") = false.
Proof.
  intros H. apply String.eqb_neq. intros ->. simpl in H. lia.
Qed.

Lemma length_nonzero s : 1 <= String.length s -> (String.length s =? 0)%nat = false.
Proof. intros H. apply Nat.eqb_neq. lia. Qed.

Lemma validateQuestionData_accepts data :
  truthy data = true -> typeof data = "object" ->
  Projection.valid_type (get data "type") ->
  (exists t, get data "text" = VStr t
             /\ 1 <= String.length (trim t) <= 1000
             /\ (get data "type" = VStr "text" -> String.length (trim t) <= 300)) ->
  validateQuestionData data = Return tt.
Proof.
  intros H1 H2 Hty (t & Ht & Hlen & Hlen').
  unfold validateQuestionData, throw_if.
  rewrite H1, H2, Ht, String.eqb_refl. cbn [negb orb obind].
  rewrite (trim_nonempty t) by lia. cbn [obind].
  rewrite (length_nonzero (trim t)) by lia. cbn [obind].
  replace (1000 <? String.length (trim t))%nat with false
    by (symmetry; apply Nat.ltb_ge; lia).
  destruct Hty as [E | [E | E]]; rewrite E in *.
  - reflexivity.
  - reflexivity.
  - replace (300 <? String.length (trim t))%nat with false
      by (symmetry; apply Nat.ltb_ge; specialize (Hlen' eq_refl); lia).
    reflexivity.
Qed.

Lemma addOptionData_run q texts optionData index w :
  option_data_ok optionData ->
  lower_text optionData ∉ texts ->
  addOptionData uuidv4 (q, texts) optionData index w
  = (Return ({| q_id := q_id q; q_text := q_text q; q_type := q_type q;
                q_options := q_options q
                             ++ built_options uuidv4 (uuids_drawn w) [optionData];
                q_createdAt := q_createdAt q |},
             {[ lower_text optionData ]} ∪ texts),
     {| quizzes := quizzes w; uuids_drawn := S (uuids_drawn w);
        clock_reads := clock_reads w |}).
Proof.
  intros (H1 & H2 & (t & Ht & Hlen) & Hc) Hnew.
  unfold addOptionData, lower_text, text_of in *. rewrite Ht in *.
  rewrite H1, H2, String.eqb_refl. cbn [negb orb].
  rewrite (trim_nonempty t) by lia.
  rewrite (length_nonzero (trim t)) by lia.
  replace (500 <? String.length (trim t))%nat with false
    by (symmetry; apply Nat.ltb_ge; lia).
  rewrite (bool_decide_eq_false_2 _ Hnew).
  replace (negb (strict_equal (get optionData "isCorrect") VUndefined)
           && negb (typeof (get optionData "isCorrect") =? "boolean")) with false
    by (destruct Hc as [-> | [b ->]]; reflexivity).
  unfold Question_addOption.
  assert (Et : (trim t =? "") = false).
  { apply String.eqb_neq. intros E. rewrite E in Hlen. simpl in Hlen. lia. }
  rewrite Et, trim_idempotent, (length_nonzero (trim t)) by lia.
  cbn. unfold text_of. rewrite Ht. reflexivity.
Qed.

Lemma forEachM_addOptionData_run items : forall index q texts w,
  Forall option_data_ok items ->
  NoDup (map lower_text items) ->
  (forall d, In d items -> lower_text d ∉ texts) ->
  exists texts',
    forEachM (addOptionData uuidv4) items index (q, texts) w
    = (Return ({| q_id := q_id q; q_text := q_text q; q_type := q_type q;
                  q_options := q_options q
                               ++ built_options uuidv4 (uuids_drawn w) items;
                  q_createdAt := q_createdAt q |},
               texts'),
       {| quizzes := quizzes w; uuids_drawn := uuids_drawn w + length items;
          clock_reads := clock_reads w |}).
Proof.
  induction items as [|d items IH]; intros index q texts w Hok Hnd Hnew.
  - exists texts. simpl. rewrite app_nil_r, Nat.add_0_r.
    destruct q, w; reflexivity.
  - apply Forall_cons in Hok as [Hd Hok].
    simpl in Hnd. apply NoDup_cons in Hnd as [Hd' Hnd].
    cbn [forEachM]. unfold bind.
    rewrite (addOptionData_run q texts d index w Hd (Hnew d (or_introl eq_refl))).
    edestruct (IH (S index)) as (texts' & ->); [exact Hok | exact Hnd | |].
    + intros d' Hd'' Hin. apply elem_of_union in Hin as [Hin|Hin].
      * apply elem_of_singleton in Hin. apply Hd'. rewrite <- Hin.
        now apply list_elem_of_In, in_map.
      * apply (Hnew d'); [now right | exact Hin].
    + exists texts'. simpl. rewrite <- app_assoc. simpl.
      do 3 f_equal. lia.
Qed.

Lemma built_options_correct n items :
  length (List.filter opt_isCorrect (built_options uuidv4 n items))
  = marked_correct items.
Proof.
  unfold marked_correct. revert n.
  induction items as [|d items IH]; intros n; simpl; [reflexivity|].
  destruct (truthy (get d "isCorrect")); simpl; now rewrite IH.
Qed.

(** [validate] on a question of a valid type, by the numbers. *)
Lemma validate_by_counts q :
  Projection.valid_type (q_type q) ->
  (validate q = Return true <->
   trim (q_text q) <> ""
   /\ 1 <= correct_count q
   /\ (q_type q = VStr "single_choice" ->
       correct_count q = 1 /\ 2 <= length (q_options q))
   /\ (q_type q = VStr "multiple_choice" ->
       2 <= correct_count q < length (q_options q))
   /\ (q_type q = VStr "text" -> String.length (q_text q) <= 300)).
Proof.
  intros Hty. pose proof (filter_length_le opt_isCorrect (q_options q)) as Hle.
  split.
  - intros H. pose proof H as Hg. apply validate_returns in Hg as (_ & Ht & Ho & Hc).
    rewrite (validate_general q) in H by (repeat split; assumption).
    split; [exact Ht|]. split; [exact Hc|].
    unfold validateByType, throw_if, correct_count in *.
    destruct Hty as [E | [E | E]]; rewrite E in *; cbn [strict_equal] in H;
      (split; [intros HE|split; intros HE]); try discriminate HE; clear HE.
    + change ("single_choice" =? "single_choice") with true in H. cbn iota in H.
      destruct (length (List.filter opt_isCorrect (q_options q)) =? 1)%nat eqn:E1;
        [|discriminate].
      destruct (length (q_options q) <? 2)%nat eqn:E2; [discriminate|].
      apply Nat.eqb_eq in E1. apply Nat.ltb_ge in E2. lia.
    + change ("multiple_choice" =? "single_choice") with false in H.
      change ("multiple_choice" =? "multiple_choice") with true in H. cbn iota in H.
      destruct (length (List.filter opt_isCorrect (q_options q)) <? 2)%nat eqn:E1;
        [discriminate|].
      destruct (length (List.filter opt_isCorrect (q_options q))
                =? length (q_options q))%nat eqn:E2; [discriminate|].
      apply Nat.ltb_ge in E1. apply Nat.eqb_neq in E2. lia.
    + change ("text" =? "single_choice") with false in H.
      change ("text" =? "multiple_choice") with false in H.
      change ("text" =? "text") with true in H. cbn iota in H.
      destruct (300 <? String.length (q_text q))%nat eqn:E1; [discriminate|].
      apply Nat.ltb_ge in E1. lia.
  - intros (Ht & Hc & Hs & Hm & Hx).
    assert (Ho : q_options q <> []).
    { intros E. unfold correct_count in Hc. rewrite E in Hc. simpl in Hc. lia. }
    rewrite (validate_general q) by (repeat split; assumption).
    unfold validateByType, throw_if, correct_count in *.
    destruct Hty as [E | [E | E]]; rewrite E in *; cbn [strict_equal].
    + change ("single_choice" =? "single_choice") with true. cbn iota.
      destruct (Hs eq_refl) as [H1 H2]. rewrite H1. simpl.
      replace (length (q_options q) <? 2)%nat with false
        by (symmetry; apply Nat.ltb_ge; lia).
      reflexivity.
    + change ("multiple_choice" =? "single_choice") with false.
      change ("multiple_choice" =? "multiple_choice") with true. cbn iota.
      specialize (Hm eq_refl).
      replace (length (List.filter opt_isCorrect (q_options q)) <? 2)%nat with false
        by (symmetry; apply Nat.ltb_ge; lia).
      replace (length (List.filter opt_isCorrect (q_options q))
               =? length (q_options q))%nat with false
        by (symmetry; apply Nat.eqb_neq; lia).
      replace (length (q_options q) <? 3)%nat with false
        by (symmetry; apply Nat.ltb_ge; lia).
      reflexivity.
    + change ("text" =? "single_choice") with false.
      change ("text" =? "multiple_choice") with false.
      change ("text" =? "text") with true. cbn iota.
      replace (300 <? String.length (q_text q))%nat with false
        by (symmetry; apply Nat.ltb_ge; specialize (Hx eq_refl); lia).
      reflexivity.
Qed.

Lemma addQuestion_checked quizId data w q w' :
  addQuestion uuidv4 toISOString quizId data w = (Return q, w') ->
  validateQuizId quizId = Return tt /\ validateQuestionData data = Return tt.
Proof.
  unfold addQuestion. rewrite bind_run.
  destruct (getQuiz quizId w) as [[quiz|msg] w1] eqn:E1; [|discriminate].
  apply getQuiz_Return in E1 as (-> & k & -> & Hk & Hv).
  rewrite bind_run. unfold lift at 1.
  destruct (validateQuestionData data) as [[]|msg]; [|discriminate].
  now intros _.
Qed.

(** [addQuestion] on a stored quiz and an acceptable payload. *)
Lemma addQuestion_accepts k quiz data w :
  k <> "" -> quizzes w !! k = Some quiz -> acceptable data ->
  exists q w', addQuestion uuidv4 toISOString (VStr k) data w = (Return q, w').
Proof.
  intros Hne Hk [[H1 H2] (t & Ht & Hlen & Hlen') Hty
                 (items & Hitems & Hn & Hoks & Hnd & Hc & Hs & Hm)].
  unfold addQuestion.
  rewrite bind_run, (getQuiz_lookup k w quiz (validateQuizId_str k Hne) Hk).
  rewrite bind_run. unfold lift at 1.
  rewrite (validateQuestionData_accepts data H1 H2 Hty) by eauto.
  rewrite bind_run. rewrite Ht, Hitems.
  unfold Question_new at 1. cbn [bind draw_uuid read_clock ret].
  rewrite bind_run. unfold addOptionsToQuestion.
  replace (length items =? 0)%nat with false by (symmetry; apply Nat.eqb_neq; lia).
  replace (10 <? length items)%nat with false by (symmetry; apply Nat.ltb_ge; lia).
  rewrite bind_run.
  edestruct (forEachM_addOptionData_run items 0) as (texts' & ->);
    [exact Hoks | exact Hnd | intros d _; apply not_elem_of_empty |].
  cbn [ret fst]. rewrite bind_run. unfold lift at 1.
  match goal with
  | |- context [validate ?q0] =>
      assert (Hv : validate q0 = Return true); [|rewrite Hv]
  end.
  { apply validate_by_counts; cbn [q_type q_text q_options app].
    - destruct (get data "type"); try assumption.
      destruct Hty as [E | [E | E]]; discriminate E.
    - assert (Ety : match get data "type" with
                    | VUndefined => VStr "single_choice"
                    | _ => get data "type"
                    end = get data "type").
      { destruct (get data "type"); try reflexivity.
        destruct Hty as [E | [E | E]]; discriminate E. }
      rewrite Ety, !trim_idempotent.
      unfold correct_count. cbn [q_options app].
      rewrite built_options_correct, built_options_length.
      split; [|split; [|split; [|split]]].
      + intros E. rewrite E in Hlen. simpl in Hlen. lia.
      + exact Hc.
      + exact Hs.
      + exact Hm.
      + intros E. specialize (Hlen' E). lia. }
  cbn. eauto.
Qed.

(** X23.  [addQuestion] accepts exactly this: a quiz stored under the id,
    a non-empty string, and a payload that is an object with a text of 1 to
    1000 code units once trimmed (300 for the type text), one of the three
    types, and an array of 1 to 10 options, each an object with a text of
    1 to 500 code units once trimmed and an [isCorrect] that is absent or
    a boolean, no two texts the same once trimmed and in lower case, with
    the numbers of correct options the type asks for. *)
Theorem addQuestion_accepts_exactly quizId data w :
  (exists q w', addQuestion uuidv4 toISOString quizId data w = (Return q, w'))
  <-> (exists k quiz, quizId = VStr k /\ k <> "" /\ quizzes w !! k = Some quiz)
      /\ acceptable data.
Proof.
  split.
  - intros (q & w' & H).
    destruct (addQuestion_checked _ _ _ _ _ H) as [Hv Hd].
    apply validateQuizId_Return in Hv as (k0 & -> & Hne).
    apply validateQuestionData_Return in Hd as (H1 & H2 & _).
    apply addQuestion_built in H
      as (k & quiz & t & items & [= <-] & Hk & Ht & Hitems & Hlen & Hlen' & Hty
          & Hn & Hoks & Hnd & Hq & Hval & _).
    split; [eauto|]. split; eauto.
    exists items.
    apply validate_by_counts in Hval; [|subst q; exact Hty].
    destruct Hval as (_ & Hc & Hs & Hm & _). subst q.
    unfold correct_count in *. cbn [q_options q_type] in *.
    rewrite built_options_correct, ?built_options_length in *.
    split; [exact Hitems|]. split; [exact Hn|]. split; [exact Hoks|].
    split; [exact Hnd|]. split; [exact Hc|]. split; [exact Hs | exact Hm].
  - intros ((k & quiz & -> & Hne & Hk) & Hacc). now apply addQuestion_accepts with quiz.
Qed.

End PayloadAcceptance.

(** ** The properties on the quiz of the scenarios *)

Lemma with_quiz_reachable :
  reachable Scenario.uuids Scenario.clock Scenario.with_quiz.
Proof. unfold Scenario.with_quiz. apply reachable_step, reachable_initial. Qed.

Lemma with_quiz_getQuiz :
  getQuiz (Js.VStr "id-0") Scenario.with_quiz
  = (Return Scenario.new_quiz, Scenario.with_quiz).
Proof. vm_compute. reflexivity. Qed.

Lemma with_sum_getQuiz :
  getQuiz (Js.VStr "id-0") Scenario.with_sum
  = (Return Scenario.sum_quiz, Scenario.with_sum).
Proof. vm_compute. reflexivity. Qed.

Lemma added_question_is_found_witness :
  addQuestion Scenario.uuids Scenario.clock (Js.VStr "id-0") Scenario.sum_data
    Scenario.with_quiz = (Return Scenario.sum_question, Scenario.with_sum)
  /\ getQuiz (Js.VStr "id-0") Scenario.with_sum
     = (Return Scenario.sum_quiz, Scenario.with_sum)
  /\ QuizModel.findQuestionById Scenario.sum_quiz
       (Js.VStr (q_id Scenario.sum_question))
     = Some Scenario.sum_question.
Proof.
  assert (H : addQuestion Scenario.uuids Scenario.clock (Js.VStr "id-0")
                Scenario.sum_data Scenario.with_quiz
              = (Return Scenario.sum_question, Scenario.with_sum))
    by (vm_compute; reflexivity).
  split; [exact H|]. split; [exact with_sum_getQuiz|].
  destruct (added_question_is_found Scenario.uuids Scenario.clock _ _ _ _ _ H)
    as (quiz & quiz' & H1 & H2 & _ & Hnew).
  rewrite with_quiz_getQuiz in H1. injection H1 as <-.
  rewrite with_sum_getQuiz in H2. injection H2 as <-.
  apply Hnew. intros q0 [].
Defined.

Lemma createQuiz_then_getQuiz_witness :
  (createQuiz Scenario.uuids Scenario.clock (Js.VStr "Math Quiz") initial
   = (Return Scenario.new_quiz, Scenario.with_quiz)
   /\ quiz_id Scenario.new_quiz <> "")
  /\ getQuiz (Js.VStr (quiz_id Scenario.new_quiz)) Scenario.with_quiz
     = (Return Scenario.new_quiz, Scenario.with_quiz)
  /\ fst (getQuiz (Js.VStr "id-1") Scenario.with_quiz)
     = fst (getQuiz (Js.VStr "id-1") initial)
  /\ fst (getQuizCount Scenario.with_quiz) = Return 1.
Proof.
  assert (H1 : createQuiz Scenario.uuids Scenario.clock (Js.VStr "Math Quiz") initial
               = (Return Scenario.new_quiz, Scenario.with_quiz))
    by (vm_compute; reflexivity).
  assert (H2 : quiz_id Scenario.new_quiz <> "") by discriminate.
  split; [split; assumption|].
  destruct (createQuiz_then_getQuiz Scenario.uuids Scenario.clock _ _ _ _ H1 H2)
    as (Hget & Hother & Hcount).
  split; [exact Hget|]. split.
  - apply Hother. discriminate.
  - apply Hcount. reflexivity.
Defined.

Lemma id_0_not_empty : "id-0" <> "".
Proof. discriminate. Qed.

Lemma submitQuizAnswers_returns_iff_witness :
  (quizzes Scenario.with_questions !! "id-0" = Some Scenario.full_quiz
   /\ "id-0" <> "")
  /\ ((exists res w',
         submitQuizAnswers Scenario.clock (Js.VStr "id-0") Scenario.two_answers
           Scenario.with_questions = (Return res, w'))
      <-> questions Scenario.full_quiz <> []
          /\ ~ Envelope.envelope_violation Scenario.two_answers Scenario.full_quiz
          /\ Grading.selections_valid Scenario.full_quiz
               (Grading.entries_of Scenario.two_answers)).
Proof.
  split; [split; [exact with_questions_full_quiz | exact id_0_not_empty]|].
  exact (submitQuizAnswers_returns_iff Scenario.clock "id-0" Scenario.full_quiz
           Scenario.two_answers Scenario.with_questions
           with_questions_full_quiz id_0_not_empty).
Defined.

Lemma two_answers_graded :
  submitQuizAnswers Scenario.clock (Js.VStr "id-0") Scenario.two_answers
    Scenario.with_questions = (Return Scenario.graded, snd Scenario.submission).
Proof. vm_compute. reflexivity. Qed.






Lemma two_answers_swap :
  Permutation (Grading.entries_of Scenario.two_answers) Scenario.two_answers_swapped.
Proof. apply perm_swap. Qed.

Lemma submission_order_is_irrelevant_witness :
  (Permutation (Grading.entries_of Scenario.two_answers) Scenario.two_answers_swapped
   /\ submitQuizAnswers Scenario.clock (Js.VStr "id-0")
        (Js.VArr (Grading.entries_of Scenario.two_answers)) Scenario.with_questions
      = (Return Scenario.graded, snd Scenario.submission))
  /\ exists res',
       submitQuizAnswers Scenario.clock (Js.VStr "id-0")
         (Js.VArr Scenario.two_answers_swapped) Scenario.with_questions
       = (Return res', snd Scenario.submission)
       /\ stats res' = stats Scenario.graded
       /\ Permutation (results Scenario.graded) (results res')
       /\ submittedAt res' = submittedAt Scenario.graded.
Proof.
  split; [split; [exact two_answers_swap | exact two_answers_graded]|].
  exact (submission_order_is_irrelevant Scenario.clock _ _ _ _ _ _
           two_answers_swap two_answers_graded).
Defined.

Lemma with_quiz_new_quiz :
  quizzes Scenario.with_quiz !! "id-0" = Some Scenario.new_quiz.
Proof. vm_compute. reflexivity. Qed.

Lemma with_sum_sum_quiz :
  quizzes (run Scenario.uuids Scenario.clock
             (AddQuestion (Js.VStr "id-0") Scenario.sum_data) Scenario.with_quiz)
    !! "id-0" = Some Scenario.sum_quiz.
Proof. vm_compute. reflexivity. Qed.

Lemma calls_keep_stored_questions_witness :
  (Identity.never_repeats Scenario.uuids
   /\ reachable Scenario.uuids Scenario.clock Scenario.with_quiz
   /\ quizzes Scenario.with_quiz !! "id-0" = Some Scenario.new_quiz
   /\ quizzes (run Scenario.uuids Scenario.clock
                 (AddQuestion (Js.VStr "id-0") Scenario.sum_data) Scenario.with_quiz)
        !! "id-0" = Some Scenario.sum_quiz)
  /\ quiz_id Scenario.sum_quiz = quiz_id Scenario.new_quiz
  /\ createdAt Scenario.sum_quiz = createdAt Scenario.new_quiz
  /\ (questions Scenario.sum_quiz = questions Scenario.new_quiz
      \/ exists q, questions Scenario.sum_quiz = questions Scenario.new_quiz ++ [q]).
Proof.
  split.
  - split; [exact uuids_never_repeat|]. split; [exact with_quiz_reachable|].
    split; [exact with_quiz_new_quiz | exact with_sum_sum_quiz].
  - exact (calls_keep_stored_questions Scenario.uuids Scenario.clock _ _ _ _ _
             uuids_never_repeat with_quiz_reachable with_quiz_new_quiz
             with_sum_sum_quiz).
Defined.

(** ** From the stored quiz to the verdict *)

Section EndToEnd.
Import Js JsFacts QuizService QuestionModel QuizModel.
Import Evaluation EvaluationFacts Validation ValidationFacts.
Import Envelope EnvelopeFacts Grading GradingFacts Identity OneAnswer.
Variable uuidv4 : nat -> string.
Variable toISOString : nat -> string.

Lemma stored_option_ids_drawn w k quiz q o :
  reachable uuidv4 toISOString w ->
  quizzes w !! k = Some quiz -> In q (questions quiz) -> In o (q_options q) ->
  exists i, opt_id o = uuidv4 i.
Proof.
  intros Hw Hk Hq Ho.
  apply (reachable_questions_added uuidv4 toISOString
           (fun q => forall o, In o (q_options q) -> exists i, opt_id o = uuidv4 i))
    with w k quiz q; try assumption.
  clear. intros quizId data w q w' H o Ho.
  apply addQuestion_built in H
    as (k1 & quiz1 & t1 & items & _ & _ & _ & _ & _ & _ & _ & _ & _ & _ & -> & _).
  simpl in Ho. apply (in_map opt_id) in Ho.
  rewrite built_options_ids in Ho.
  apply in_map_iff in Ho as (i & <- & _). eauto.
Qed.

(** The verdict on a selection of one option of a validated question
    whose option ids differ. *)
Lemma isAnswerCorrect_one q o :
  validate q = Return true ->
  unique_option_ids q ->
  In o (q_options q) -> opt_id o <> "" ->
  isAnswerCorrect q (VArr [VStr (opt_id o)]) = verdict q o.
Proof.
  intros Hv Hu Ho Hne.
  pose proof (ProjectionFacts.validate_valid_type q true Hv) as Hty.
  pose proof (proj1 (validate_by_counts q Hty) Hv) as (_ & Hc & _ & Hm & _).
  assert (Hsel : uniqueSelected [VStr (opt_id o)] = [VStr (opt_id o)]).
  { unfold uniqueSelected. simpl.
    destruct (opt_id o =? "") eqn:E; [apply String.eqb_eq in E; contradiction|].
    reflexivity. }
  assert (Hpre : preamble q [VStr (opt_id o)]).
  { split.
    - exists (VStr (opt_id o)). apply in_uniqueSelected. rewrite Hsel. now left.
    - intros v [[<-|[]] _]. now exists o.
    - unfold correct_count in Hc.
      destruct (List.filter opt_isCorrect (q_options q)) as [|o' l] eqn:E;
        [simpl in Hc; lia|].
      exists (opt_id o'). apply in_correct_ids. unfold getCorrectOptionIds.
      rewrite E. now left. }
  rewrite (isAnswerCorrect_dispatch q _ Hpre), Hsel. unfold verdict.
  assert (Hinc : includes (ids (getCorrectOptionIds q)) (VStr (opt_id o))
                 = opt_isCorrect o).
  { apply eq_true_iff_eq. unfold ids. rewrite includes_strs. split.
    - intros (s & [= <-] & Hs). apply in_correct_ids in Hs as (o' & Ho' & Hc' & E).
      now rewrite <- (NoDup_map_injective opt_id _ o' o Hu Ho' Ho E).
    - intros Hco. exists (opt_id o). split; [reflexivity|].
      apply in_correct_ids. now exists o. }
  destruct Hty as [E | [E | E]]; rewrite E in *; cbn [strict_equal].
  - change ("single_choice" =? "single_choice") with true.
    change ("single_choice" =? "multiple_choice") with false. cbn iota.
    unfold validateSingleChoice. simpl length. cbn [Nat.eqb negb nth].
    exact Hinc.
  - change ("multiple_choice" =? "single_choice") with false.
    change ("multiple_choice" =? "multiple_choice") with true. cbn iota.
    unfold validateMultipleChoice. specialize (Hm eq_refl).
    unfold correct_count in Hm. unfold getCorrectOptionIds.
    rewrite length_map. simpl length.
    destruct (length (List.filter opt_isCorrect (q_options q))) as [|[|n]];
      try lia. reflexivity.
  - change ("text" =? "single_choice") with false.
    change ("text" =? "multiple_choice") with false.
    change ("text" =? "text") with true. cbn iota.
    unfold validateTextChoice. cbn [existsb]. rewrite Hinc. apply orb_false_r.
Qed.

Lemma stored_option_ids_unique w k quiz q :
  never_repeats uuidv4 ->
  reachable uuidv4 toISOString w ->
  quizzes w !! k = Some quiz -> In q (questions quiz) ->
  unique_option_ids q.
Proof.
  intros Hinj Hw Hk Hq.
  apply (reachable_questions_added uuidv4 toISOString unique_option_ids)
    with w k quiz; try assumption.
  clear -Hinj. intros quizId data w q w' H.
  apply addQuestion_built in H
    as (k1 & quiz1 & t1 & items & _ & _ & _ & _ & _ & _ & _ & _ & _ & _ & -> & _).
  unfold unique_option_ids. simpl.
  pose proof (built_options_nodup uuidv4 (uuids_drawn w) items Hinj) as Hnd.
  now apply NoDup_cons in Hnd as [_ Hnd].
Qed.

(** The entry of [payload q o] passes the checks of the envelope. *)
Lemma payload_entry_ok quiz q o :
  In q (questions quiz) -> q_id q <> "" ->
  entry_ok quiz (VObj [("questionId", VStr (q_id q));
                       ("selectedOptionIds", VArr [VStr (opt_id o)])]) = true.
Proof.
  intros Hq Hne. unfold entry_ok, qid. cbn [get lookup_prop].
  change ("questionId" =? "questionId") with true.
  change ("questionId" =? "selectedOptionIds") with false.
  change ("selectedOptionIds" =? "selectedOptionIds") with true.
  cbn iota. cbn [truthy typeof isArray array_length length].
  change ("object" =? "object") with true.
  replace (q_id q =? "") with false
    by (symmetry; now apply String.eqb_neq).
  replace (includes (questionIds quiz) (VStr (q_id q))) with true; [reflexivity|].
  symmetry. apply includes_questionIds. eauto.
Qed.

(** X25.  From the stored quiz to the verdict.  With a generator that
    never returns an id twice nor the empty string, in a reachable world a
    payload that answers one question of a stored quiz by selecting one of
    its options is accepted; its one result is correct exactly when the
    option is marked correct, except on a multiple_choice question, where
    one option is never the whole correct set; and the score is 1 or 0
    accordingly. *)
Theorem one_selected_option_is_judged_by_its_flag w k quiz q o :
  never_repeats uuidv4 ->
  (forall n, uuidv4 n <> "") ->
  reachable uuidv4 toISOString w ->
  quizzes w !! k = Some quiz ->
  In q (questions quiz) ->
  In o (q_options q) ->
  exists res,
    submitQuizAnswers toISOString (VStr k) (payload q o) w
    = (Return res,
       {| quizzes := quizzes w; uuids_drawn := uuids_drawn w;
          clock_reads := S (clock_reads w) |})
    /\ map isCorrect (results res) = [verdict q o]
    /\ score (stats res) = (if verdict q o then 1 else 0)%Z.
Proof.
  intros Hinj Hne Hw Hk Hq Ho.
  destruct (reachable_ids_drawn uuidv4 toISOString w Hw) as [Hkeys Hqids].
  assert (Hk0 : k <> "") by (destruct (Hkeys k quiz Hk) as (i & _ & ->); apply Hne).
  assert (Hq0 : q_id q <> "")
    by (destruct (Hqids k quiz q Hk Hq) as (i & _ & ->); apply Hne).
  assert (Ho0 : opt_id o <> "")
    by (destruct (stored_option_ids_drawn w k quiz q o Hw Hk Hq Ho) as (i & ->);
        apply Hne).
  pose proof (reachable_consistent uuidv4 toISOString w Hinj Hw) as Hcons.
  assert (Hfind : findQuestionById quiz (VStr (q_id q)) = Some q).
  { apply find_unique_id; [|exact Hq]. exact (question_ids_differ _ _ Hcons k quiz Hk). }
  assert (Hval : validate q = Return true).
  { pose proof (reachable_questions_validated uuidv4 toISOString w Hw k quiz Hk) as Hall.
    exact (proj1 (List.Forall_forall _ _) Hall q Hq). }
  pose proof (stored_option_ids_unique w k quiz q Hinj Hw Hk Hq) as Huniq.
  set (e := VObj [("questionId", VStr (q_id q));
                  ("selectedOptionIds", VArr [VStr (opt_id o)])]).
  assert (Hok : entry_ok quiz e = true) by now apply payload_entry_ok.
  rewrite (submitQuizAnswers_run toISOString k quiz (payload q o) w Hk Hk0).
  unfold throw_if.
  replace (length (questions quiz) =? 0)%nat with false
    by (symmetry; apply Nat.eqb_neq; destruct (questions quiz); [destruct Hq | discriminate]).
  cbn [obind].
  assert (Hv : validateAnswersFormat (payload q o) quiz = Return tt).
  { apply validateAnswersFormat_Return_iff. exists [e]. split; [reflexivity|].
    split; [|split].
    - simpl. destruct (questions quiz); [destruct Hq | simpl; lia].
    - now constructor.
    - simpl. apply NoDup_cons. split; [apply not_elem_of_nil | apply NoDup_nil_2]. }
  rewrite Hv. cbn [obind]. unfold processAnswers, payload. fold e. cbn [forEach].
  destruct (processAnswer_cases quiz [] e 0 Hok) as (question & Hqe & Hcase).
  assert (question = q).
  { unfold question_of in Hqe. change (get e "questionId") with (VStr (q_id q)) in Hqe.
    congruence. }
  subst question.
  destruct (processAnswer quiz [] e 0) as [acc|msg].
  - destruct Hcase as (_ & r & -> & Hr). cbn [obind app].
    eexists. split; [reflexivity|]. cbn [results stats].
    assert (Hver : isCorrect r = verdict q o).
    { rewrite (reports_verdict _ _ _ Hr).
      change (get e "selectedOptionIds") with (VArr [VStr (opt_id o)]).
      now apply isAnswerCorrect_one. }
    split.
    + simpl. now rewrite Hver.
    + unfold calculateStatistics. cbn [score List.filter].
      rewrite Hver. now destruct (verdict q o).
  - exfalso. destruct Hcase as (v & Hv' & Hbad & _). apply Hbad.
    change (selection e) with [VStr (opt_id o)] in Hv'.
    destruct Hv' as [<-|[]]. now exists o.
Qed.

End EndToEnd.

Lemma three_in_full_quiz :
  In {| opt_id := "id-7"; opt_text := "3"; opt_isCorrect := true |}
     (q_options Scenario.primes_question).
Proof. right. left. reflexivity. Qed.

Lemma one_selected_option_is_judged_by_its_flag_witness :
  (Identity.never_repeats Scenario.uuids
   /\ (forall n, Scenario.uuids n <> "")
   /\ reachable Scenario.uuids Scenario.clock Scenario.with_questions
   /\ quizzes Scenario.with_questions !! "id-0" = Some Scenario.full_quiz
   /\ In Scenario.primes_question (questions Scenario.full_quiz)
   /\ In {| opt_id := "id-7"; opt_text := "3"; opt_isCorrect := true |}
         (q_options Scenario.primes_question))
  /\ exists res,
       submitQuizAnswers Scenario.clock (Js.VStr "id-0")
         (OneAnswer.payload Scenario.primes_question
            {| opt_id := "id-7"; opt_text := "3"; opt_isCorrect := true |})
         Scenario.with_questions
       = (Return res,
          {| quizzes := quizzes Scenario.with_questions;
             uuids_drawn := uuids_drawn Scenario.with_questions;
             clock_reads := S (clock_reads Scenario.with_questions) |})
       /\ map isCorrect (results res)
          = [OneAnswer.verdict Scenario.primes_question
               {| opt_id := "id-7"; opt_text := "3"; opt_isCorrect := true |}]
       /\ score (stats res)
          = (if OneAnswer.verdict Scenario.primes_question
                  {| opt_id := "id-7"; opt_text := "3"; opt_isCorrect := true |}
             then 1 else 0)%Z.
Proof.
  split.
  - split; [exact uuids_never_repeat|]. split; [exact uuids_not_empty|].
    split; [exact with_questions_reachable|].
    split; [exact with_questions_full_quiz|].
    split; [exact primes_in_full_quiz | exact three_in_full_quiz].
  - exact (one_selected_option_is_judged_by_its_flag Scenario.uuids Scenario.clock
             _ _ _ _ _ uuids_never_repeat uuids_not_empty with_questions_reachable
             with_questions_full_quiz primes_in_full_quiz three_in_full_quiz).
Defined.
